(** * state_loader_no_imports: CSV line parser, value inference, record
      construction, loader and the state index

    A shallow embedding of [state_loader_no_imports.py].

    Conventions.
    - A Python [str] is a Rocq [string]; a character is a code point in
      the range 0..255.  [str.strip], [str.isdigit] and [str.lower] are
      exact on that range; [str.upper] is exact except at U+00B5 and
      U+00FF, whose upper-case forms lie beyond it (see [upper_char]).
    - A Python exception is a value of [exn]; a function that can raise
      returns [result].
    - A [State] object is its instance [__dict__]: a finite map from
      attribute names to values.
    - The objects held by the index are references into the list of
      loaded states: a bucket is a list of pairs (position, object).
    - [list.sort] is a function as long as no comparison raises.  When one
      does, the order in which the list is left is not fixed by the
      program nor by Python, and [try_sort] relates the list before to
      every rearrangement of it. *)

From Stdlib Require Import ZArith QArith Ascii String List Lia.
From stdpp Require Import gmap strings list fin_maps sorting.

Open Scope string_scope.
Open Scope list_scope.
Open Scope nat_scope.

(** ** Exceptions *)

Inductive exn : Type :=
  | TypeError
  | AttributeError
  | IndexError
  | OSError.

(** Outcome of a call: a value, an exception, or [OutOfFuel] when a
    [while] loop of the model used up its iteration bound. *)
Inductive result (A : Type) : Type :=
  | Ok (a : A)
  | Raise (e : exn)
  | OutOfFuel.
Arguments Ok {A} a.
Arguments Raise {A} e.
Arguments OutOfFuel {A}.

#[global] Instance result_bind : MBind result := fun _ _ k r =>
  match r with
  | Ok a => k a
  | Raise e => Raise e
  | OutOfFuel => OutOfFuel
  end.

(** ** The [str] methods the program uses *)

Module Py.

Definition code (c : ascii) : N := N_of_ascii c.

Definition in_range (lo hi : N) (c : ascii) : bool :=
  ((lo <=? code c) && (code c <=? hi))%N.

(** [c.isspace()]: TAB..CR, FS..US, SPACE, NEL (U+0085), NBSP (U+00A0). *)
Definition isspace (c : ascii) : bool :=
  in_range 9 13 c || in_range 28 32 c
  || (code c =? 133)%N || (code c =? 160)%N.

(** [c.isdigit()]: '0'..'9' and the superscripts U+00B2, U+00B3, U+00B9. *)
Definition isdigit_char (c : ascii) : bool :=
  in_range 48 57 c
  || (code c =? 178)%N || (code c =? 179)%N || (code c =? 185)%N.

(** [s.isdigit()]: every character is a digit and there is at least one. *)
Fixpoint all_digits (s : string) : bool :=
  match s with
  | EmptyString => true
  | String c s' => isdigit_char c && all_digits s'
  end.

Definition isdigit (s : string) : bool :=
  match s with
  | EmptyString => false
  | String _ _ => all_digits s
  end.

Fixpoint lstrip (s : string) : string :=
  match s with
  | EmptyString => EmptyString
  | String c s' => if isspace c then lstrip s' else s
  end.

(** [s.rstrip(chars)] for the characters satisfying [p]. *)
Fixpoint rstrip (p : ascii -> bool) (s : string) : string :=
  match s with
  | EmptyString => EmptyString
  | String c s' =>
      match rstrip p s' with
      | EmptyString => if p c then EmptyString else String c EmptyString
      | r => String c r
      end
  end.

(** [s.strip()] *)
Definition strip (s : string) : string := rstrip isspace (lstrip s).

Definition is_eol (c : ascii) : bool :=
  (code c =? 10)%N || (code c =? 13)%N.

(** [s.rstrip('\n\r')] *)
Definition rstrip_eol (s : string) : string := rstrip is_eol s.

Definition lower_char (c : ascii) : ascii :=
  if in_range 65 90 c
     || (in_range 192 222 c && negb (code c =? 215)%N)
  then ascii_of_N (code c + 32)
  else c.

(** [s.lower()] *)
Fixpoint lower (s : string) : string :=
  match s with
  | EmptyString => EmptyString
  | String c s' => String (lower_char c) (lower s')
  end.

(** Upper-case form of one character.  U+00DF becomes the two
    characters SS.  U+00B5 and U+00FF have upper-case forms U+039C and
    U+0178, which an 8-bit character cannot hold: they are left as they
    are. *)
Definition upper_char (c : ascii) : string :=
  if in_range 97 122 c
     || (in_range 224 254 c && negb (code c =? 247)%N)
  then String (ascii_of_N (code c - 32)) EmptyString
  else if (code c =? 223)%N then "SS"
  else String c EmptyString.

(** [s.upper()] *)
Fixpoint upper (s : string) : string :=
  match s with
  | EmptyString => EmptyString
  | String c s' => String.append (upper_char c) (upper s')
  end.

(** [ch in s] for a one-character [ch]. *)
Fixpoint contains (ch : ascii) (s : string) : bool :=
  match s with
  | EmptyString => false
  | String c s' => Ascii.eqb c ch || contains ch s'
  end.

(** [s.replace(ch, '')] for a one-character [ch]. *)
Fixpoint remove_char (ch : ascii) (s : string) : string :=
  match s with
  | EmptyString => EmptyString
  | String c s' =>
      if Ascii.eqb c ch then remove_char ch s' else String c (remove_char ch s')
  end.

(** Value of a run of decimal digits, possibly grouped by single
    underscores; [None] where [int] raises ValueError.  [acc] is the value
    read so far, [sep] tells whether an underscore may come next. *)
Fixpoint int_digits (acc : Z) (sep : bool) (s : string) : option Z :=
  match s with
  | EmptyString => if sep then Some acc else None
  | String c s' =>
      if in_range 48 57 c
      then int_digits (10 * acc + Z.of_N (code c - 48))%Z true s'
      else if Ascii.eqb c "_" && sep then int_digits acc false s'
      else None
  end.

(** The most digits [int] reads from a text before it raises ValueError
    ([sys.int_info.default_max_str_digits]).  The program imports nothing
    and so leaves the interpreter's limit where it is. *)
Definition max_str_digits : N := 4300.

(** The number of decimal digits in [s]. *)
Fixpoint digit_count (s : string) : N :=
  match s with
  | EmptyString => 0
  | String c s' => ((if in_range 48 57 c then 1 else 0) + digit_count s')%N
  end.

(** The digits of [int(s)], after the sign: more of them than the limit
    allows make [int] raise ValueError, as does a text that is no run of
    digits. *)
Definition int_limited (ds : string) : option Z :=
  if (max_str_digits <? digit_count ds)%N then None
  else int_digits 0%Z false ds.

(** [int(s)] in base 10: surrounding white space is dropped, one sign is
    allowed, the digits must be decimal digits (the superscripts that
    [isdigit] accepts are refused), no more of them than
    [max_str_digits].  [None] stands for ValueError. *)
Definition int (s : string) : option Z :=
  match strip s with
  | EmptyString => None
  | String c s' =>
      if Ascii.eqb c "-" then option_map Z.opp (int_limited s')
      else if Ascii.eqb c "+" then int_limited s'
      else int_limited (String c s')
  end.

End Py.

(** ** [parse_csv_line] *)

Definition dquote : ascii := ascii_of_N 34.
Definition comma : ascii := ascii_of_N 44.

(** [''.join(cur)] *)
Definition join (cur : list ascii) : string := string_of_list_ascii cur.

(** The local variables of [parse_csv_line]. *)
Record scan : Type := Scan {
  fields : list string;
  cur : list ascii;
  in_quotes : bool;
  i : nat
}.

(** [line[i]] *)
Definition getitem (line : list ascii) (i : nat) : result ascii :=
  match line !! i with
  | Some ch => Ok ch
  | None => Raise IndexError
  end.

(** One pass through the body of the [while] loop. *)
Definition loop_body (line : list ascii) (st : scan) : result scan :=
  ch ← getitem line (i st);
  if in_quotes st then
    if Ascii.eqb ch dquote then
      escaped ← (if S (i st) <? length line
                 then nxt ← getitem line (S (i st)); Ok (Ascii.eqb nxt dquote)
                 else Ok false);
      if escaped : bool
      then Ok (Scan (fields st) (cur st ++ [dquote]) true (S (S (i st))))
      else Ok (Scan (fields st) (cur st) false (S (i st)))
    else Ok (Scan (fields st) (cur st ++ [ch]) true (S (i st)))
  else
    if Ascii.eqb ch comma
    then Ok (Scan (fields st ++ [join (cur st)]) [] false (S (i st)))
    else if Ascii.eqb ch dquote
    then Ok (Scan (fields st) (cur st) true (S (i st)))
    else Ok (Scan (fields st) (cur st ++ [ch]) false (S (i st))).

(** [while i < len(line): ...] *)
Fixpoint while_loop (fuel : nat) (line : list ascii) (st : scan) : result scan :=
  if i st <? length line then
    match fuel with
    | O => OutOfFuel
    | S fuel' => st' ← loop_body line st; while_loop fuel' line st'
    end
  else Ok st.

(** The loop of [parse_csv_line], from the initial values of its
    variables; [len(line)] iterations are allowed. *)
Definition scan_line (line : string) : result scan :=
  let chars := list_ascii_of_string line in
  while_loop (length chars) chars (Scan [] [] false 0).

Definition parse_csv_line (line : string) : result (list string) :=
  st ← scan_line line;
  Ok (fields st ++ [join (cur st)]).

(** ** Values held by a record *)

(** A Python [float] that is not a NaN, by its exact value: plus or minus
    infinity, or the binary fraction [m * 2^e].  ([float] is applied only
    to text that contains a decimal point, and no spelling of NaN does.) *)
Inductive pyfloat : Type :=
  | FInf (negative : bool)
  | FFin (m : Z) (e : Z).

Inductive Value : Type :=
  | PyNone
  | PyInt (z : Z)
  | PyFloat (f : pyfloat)
  | PyStr (s : string).

#[global] Instance pyfloat_eq_dec : EqDecision pyfloat.
Proof. solve_decision. Defined.

#[global] Instance Value_eq_dec : EqDecision Value.
Proof. solve_decision. Defined.

(** A [State] object, as its instance [__dict__]. *)
Abbreviation State := (gmap string Value).

(** ** class State *)

Module State.

Section WithFloat.

(** Python's built-in [float] on text; [None] stands for ValueError. *)
Variable float : string -> option pyfloat.

Definition exempt : list string :=
  ["fips"; "hash"; "totaltestresultssource"; "dataqualitygrade"; "grade";
   "state"; "lastupdateet"; "checktimeet"].

Definition _looks_like_int (s : string) : bool :=
  match s with
  | EmptyString => false
  | String c rest =>
      if Ascii.eqb c "-" || Ascii.eqb c "+" then Py.isdigit rest
      else Py.isdigit s
  end.

(** [_convert(self, s, key_name)].  [s] is always a [str] here, so the
    test [s is None] is never taken.  Each [try: return ... except
    Exception: pass] is an option: [None] means the block fell through. *)
Definition _convert (s key_name : string) : Value :=
  let s2 := Py.strip s in
  if String.eqb s2 EmptyString then PyNone else
  let lower_key := Py.lower key_name in
  if bool_decide (lower_key ∈ exempt) then PyStr s2 else
  let with_commas :=
    if Py.contains comma s2 then
      let s3 := Py.remove_char comma s2 in
      if _looks_like_int s3 then PyInt <$> Py.int s3 else None
    else None in
  match with_commas with
  | Some v => v
  | None =>
      let plain := if _looks_like_int s2 then PyInt <$> Py.int s2 else None in
      match plain with
      | Some v => v
      | None =>
          let floating :=
            if Py.contains "." s2 then PyFloat <$> float s2 else None in
          match floating with
          | Some v => v
          | None => PyStr s2
          end
      end
  end.

(** Whether [_convert(s, key_name)] reaches a call of
    [self._looks_like_int]: it does unless it returns from one of its first
    two tests. *)
Definition calls_looks_like_int (s key_name : string) : bool :=
  negb (String.eqb (Py.strip s) EmptyString)
  && negb (bool_decide (Py.lower key_name ∈ exempt)).

(** [self._convert(v, k)] inside [__init__].  Attribute lookup finds an
    entry of the instance [__dict__] before a method of the class, and
    [__init__] itself stores entries under names taken from the header: once
    it has stored one under [_convert] or [_looks_like_int], that name
    denotes the stored value (None, an int, a float or a str), and calling
    it raises TypeError. *)
Definition call_convert (self : State) (v k : string) : result Value :=
  if bool_decide (is_Some (self !! "_convert")) then Raise TypeError
  else if bool_decide (is_Some (self !! "_looks_like_int"))
          && calls_looks_like_int v k then Raise TypeError
  else Ok (_convert v k).

(** [setattr(self, name, val)] for a value that is None, an int, a float
    or a str: [__dict__] and [__class__] refuse such a value, [__weakref__]
    is read-only, every other name becomes an entry of [__dict__]. *)
Definition setattr (self : State) (name : string) (val : Value) : result State :=
  if bool_decide (name ∈ ["__dict__"; "__class__"]) then Raise TypeError
  else if String.eqb name "__weakref__" then Raise AttributeError
  else Ok (<[name := val]> self).

(** The normalisation of the row length at the head of [__init__]. *)
Definition normalize (header row : list string) : list string :=
  if length row <? length header
  then row ++ replicate (length header - length row) EmptyString
  else if length header <? length row
  then take (length header) row
  else row.

(** [for k, v in zip(header, row): ...] *)
Fixpoint init_loop (pairs : list (string * string)) (self : State) : result State :=
  match pairs with
  | [] => Ok self
  | (k, v) :: rest =>
      val ← call_convert self v k;
      self' ← setattr self (Py.strip k) val;
      init_loop rest self'
  end.

Definition __init__ (header row : list string) : result State :=
  init_loop (zip header (normalize header row)) ∅.

End WithFloat.

End State.

(** ** [load_states_no_imports] *)

Definition LF : ascii := ascii_of_N 10.
Definition CR : ascii := ascii_of_N 13.

(** The lines a text-mode file object yields ([readline], then iteration):
    each line keeps its terminator, and universal-newline translation
    turns CR LF and a lone CR into LF.  [acc] is the line being read. *)
Fixpoint file_lines (text : string) (acc : list ascii) : list string :=
  match text with
  | EmptyString =>
      match acc with
      | [] => []
      | _ => [join acc]
      end
  | String c rest =>
      if Ascii.eqb c LF then join (acc ++ [LF]) :: file_lines rest []
      else if Ascii.eqb c CR then
        match rest with
        | String c' rest' =>
            if Ascii.eqb c' LF then join (acc ++ [LF]) :: file_lines rest' []
            else join (acc ++ [LF]) :: file_lines rest []
        | EmptyString => [join (acc ++ [LF])]
        end
      else file_lines rest (acc ++ [c])
  end.

Section Loader.

Variable float : string -> option pyfloat.

(** The file system: [open(path, 'r', encoding='utf-8')] followed by the
    reads, giving the decoded text of the file or the exception raised. *)
Variable fs : string -> result string.

(** [for line in fh: ...] *)
Fixpoint rows_loop (header : list string) (lines : list string)
    (states : list State) : result (list State) :=
  match lines with
  | [] => Ok states
  | line :: rest =>
      let line := Py.rstrip_eol line in
      if String.eqb line EmptyString then rows_loop header rest states
      else
        row ← parse_csv_line line;
        st ← State.__init__ float header row;
        rows_loop header rest (states ++ [st])
  end.

Definition load_states_no_imports (path : string) : result (list State) :=
  text ← fs path;
  match file_lines text [] with
  | [] => Ok []
  | first :: lines =>
      header ← parse_csv_line (Py.rstrip_eol first);
      let header := map Py.strip header in
      rows_loop header lines []
  end.

End Loader.

(** ** The index built by [main] *)

(** [getattr(s, name, default)] for a name the class does not define. *)
Definition getattr (s : State) (name : string) (default : Value) : Value :=
  match s !! name with
  | Some v => v
  | None => default
  end.

(** [code.upper()]: only a [str] has the method. *)
Definition call_upper (code : Value) : result string :=
  match code with
  | PyStr s => Ok (Py.upper s)
  | _ => Raise AttributeError
  end.

(** A reference to a loaded object: its position in [states] and the
    object found there. *)
Abbreviation Ref := (nat * State)%type.

Fixpoint enumerate (n : nat) (states : list State) : list Ref :=
  match states with
  | [] => []
  | s :: rest => (n, s) :: enumerate (S n) rest
  end.

(** [for s in states: ...] filling [groups]. *)
Fixpoint group_loop (states : list Ref) (groups : gmap string (list Ref))
    : result (gmap string (list Ref)) :=
  match states with
  | [] => Ok groups
  | s :: rest =>
      match getattr (snd s) "state" PyNone with
      | PyNone => group_loop rest groups
      | code =>
          key ← call_upper code;
          group_loop rest (<[key := default [] (groups !! key) ++ [s]]> groups)
      end
  end.

(** Truth value of an object, as [or] tests it. *)
Definition truthy (v : Value) : bool :=
  match v with
  | PyNone => false
  | PyInt z => negb (z =? 0)%Z
  | PyFloat (FInf _) => true
  | PyFloat (FFin m _) => negb (m =? 0)%Z
  | PyStr s => negb (String.eqb s EmptyString)
  end.

(** [lambda x: (getattr(x, 'date', None) or 0)] *)
Definition sort_key (x : Ref) : Value :=
  let date := getattr (snd x) "date" PyNone in
  if truthy date then date else PyInt 0.

(** The exact value of a number, among the rationals with two infinities. *)
Inductive xnum : Type :=
  | NegInf
  | Fin (q : Q)
  | PosInf.

Definition float_val (f : pyfloat) : xnum :=
  match f with
  | FInf true => NegInf
  | FInf false => PosInf
  | FFin m e => Fin (inject_Z m * Qpower 2 e)
  end.

Definition xnum_ltb (a b : xnum) : bool :=
  match a, b with
  | NegInf, NegInf => false
  | NegInf, _ => true
  | Fin _, NegInf => false
  | Fin p, Fin q => match (p ?= q)%Q with Lt => true | _ => false end
  | Fin _, PosInf => true
  | PosInf, _ => false
  end.

Definition num_val (v : Value) : option xnum :=
  match v with
  | PyInt z => Some (Fin (inject_Z z))
  | PyFloat f => Some (float_val f)
  | _ => None
  end.

(** [a < b]: numbers compare by value, int against float exactly; strings
    compare character by character; any other pairing raises TypeError. *)
Definition lt (a b : Value) : result bool :=
  match a, b with
  | PyStr s, PyStr t => Ok (String.ltb s t)
  | _, _ =>
      match num_val a, num_val b with
      | Some x, Some y => Ok (xnum_ltb x y)
      | _, _ => Raise TypeError
      end
  end.

Section ListSort.

Context {A : Type}.

(** [list.sort(key=...)] is a stable comparison sort that uses only [<]
    on the keys, computed once per element, and lets an exception of [<]
    through.  It is modelled by stable insertion: every stable sort
    returns the same list when no comparison raises. *)
Fixpoint insert (x : Value * A) (sorted : list (Value * A))
    : result (list (Value * A)) :=
  match sorted with
  | [] => Ok [x]
  | y :: rest =>
      below ← lt (fst x) (fst y);
      if below : bool then Ok (x :: y :: rest)
      else rest' ← insert x rest; Ok (y :: rest')
  end.

Fixpoint sort_loop (todo sorted : list (Value * A)) : result (list (Value * A)) :=
  match todo with
  | [] => Ok sorted
  | x :: rest => sorted' ← insert x sorted; sort_loop rest sorted'
  end.

Definition list_sort (key : A -> Value) (l : list A) : result (list A) :=
  sorted ← sort_loop (map (fun x => (key x, x)) l) [];
  Ok (map snd sorted).

End ListSort.

(** [try: rows.sort(key=...) except Exception: pass], as a relation between
    the list before and the list after.  When the sort raises, Python
    leaves the list with the same objects in an order it does not specify
    (the order the interrupted sort had reached); the exception is
    dropped. *)
Inductive try_sort (rows : list Ref) : list Ref -> Prop :=
  | sort_completed rows' :
      list_sort sort_key rows = Ok rows' -> try_sort rows rows'
  | sort_abandoned e rows' :
      list_sort sort_key rows = Raise e -> rows' ≡ₚ rows -> try_sort rows rows'.

(** [for code, rows in groups.items(): ...] sorting every bucket in place. *)
Definition sort_groups (groups groups' : gmap string (list Ref)) : Prop :=
  forall code, option_Forall2 try_sort (groups !! code) (groups' !! code).

(** The part of [main] that builds the index from the loaded states. *)
Definition build_index (states : list State) (index : gmap string (list Ref)) : Prop :=
  exists groups,
    group_loop (enumerate 0 states) ∅ = Ok groups /\ sort_groups groups index.

(** * Notions used in the statements *)

(** ** The line parser *)
(** The scan of [parse_csv_line] by recursion on the text still to read;
    it returns the final [fields], [cur] and [in_quotes]. *)
Fixpoint scan_rest (rest : list ascii) (f : list string) (c : list ascii)
    (q : bool) : list string * list ascii * bool :=
  match rest with
  | [] => (f, c, q)
  | ch :: rest' =>
      if q then
        if Ascii.eqb ch dquote then
          match rest' with
          | nxt :: rest'' =>
              if Ascii.eqb nxt dquote then scan_rest rest'' f (c ++ [dquote]) true
              else scan_rest rest' f c false
          | [] => scan_rest rest' f c false
          end
        else scan_rest rest' f (c ++ [ch]) true
      else if Ascii.eqb ch comma then scan_rest rest' (f ++ [join c]) [] false
      else if Ascii.eqb ch dquote then scan_rest rest' f c true
      else scan_rest rest' f (c ++ [ch]) false
  end.

Definition scan_of (line : list ascii) (t : list string * list ascii * bool) : scan :=
  Scan t.1.1 t.1.2 t.2 (length line).

(** ** Value inference and record construction *)

(** A decimal digit, ['0'] to ['9'], and the number a run of them writes. *)
Definition is_decimal (c : ascii) : bool := Py.in_range 48 57 c.

Fixpoint all_decimal (s : string) : bool :=
  match s with
  | EmptyString => true
  | String c s' => is_decimal c && all_decimal s'
  end.

Fixpoint decimal_value (acc : Z) (s : string) : Z :=
  match s with
  | EmptyString => acc
  | String c s' => decimal_value (10 * acc + Z.of_N (Py.code c - 48))%Z s'
  end.

(** [signed_decimal s z]: [s] consists solely of decimal digits, at least
    one, optionally preceded by a single ['+'] or ['-'], and writes [z]. *)
Inductive signed_decimal : string -> Z -> Prop :=
  | sd_plain c ds :
      all_decimal (String c ds) = true ->
      signed_decimal (String c ds) (decimal_value 0 (String c ds))
  | sd_plus c ds :
      all_decimal (String c ds) = true ->
      signed_decimal (String "+" (String c ds)) (decimal_value 0 (String c ds))
  | sd_minus c ds :
      all_decimal (String c ds) = true ->
      signed_decimal (String "-" (String c ds)) (- decimal_value 0 (String c ds))%Z.

(** The attribute names a header must avoid for [State.__init__] to go
    through: the three that [setattr] refuses and the two methods that
    [__init__] still has to call. *)
Definition own_names : list string :=
  ["__dict__"; "__class__"; "__weakref__"; "_convert"; "_looks_like_int"].

(** The [__dict__] that the loop of [__init__] builds when no step
    raises. *)
Definition assigned (float : string -> option pyfloat)
    (pairs : list (string * string)) (self : State) : State :=
  foldl (fun d kv => <[Py.strip kv.1 := State._convert float kv.2 kv.1]> d) self pairs.

(** ** Vocabulary for the statements about the index *)

(** Whether [a < b] is defined: both numbers, or both strings. *)
Definition comparable (a b : Value) : bool :=
  match a, b with
  | PyStr _, PyStr _ => true
  | (PyInt _ | PyFloat _), (PyInt _ | PyFloat _) => true
  | _, _ => false
  end.

(** Neither key is below the other. *)
Definition tie (a b : Value) : Prop :=
  lt a b = Ok false /\ lt b a = Ok false.

(** [a == b] *)
Definition py_eq (a b : Value) : bool :=
  match a, b with
  | PyNone, PyNone => true
  | PyStr s, PyStr t => String.eqb s t
  | _, _ =>
      match num_val a, num_val b with
      | Some x, Some y => negb (xnum_ltb x y) && negb (xnum_ltb y x)
      | _, _ => false
      end
  end.

(** The order a stable sort by [sort_key] puts references in: by key, and
    by position in [states] where the keys tie. *)
Definition sorted_before (x y : Ref) : Prop :=
  lt (sort_key x) (sort_key y) = Ok true
  \/ (tie (sort_key x) (sort_key y) /\ x.1 < y.1).

(** [x] stands somewhere before [y] in [l]. *)
Definition precedes {A : Type} (x y : A) (l : list A) : Prop :=
  exists l1 l2 l3, l = l1 ++ x :: l2 ++ y :: l3.

(** The key of the bucket a reference is filed under, if any. *)
Definition bucket_key (r : Ref) : option string :=
  match getattr r.2 "state" PyNone with
  | PyStr code => Some (Py.upper code)
  | _ => None
  end.

(** The [state] attribute is absent, None or a string. *)
Definition text_state (s : State) : Prop :=
  getattr s "state" PyNone = PyNone \/ exists code, getattr s "state" PyNone = PyStr code.

(** All sort keys of a bucket can be compared with one another. *)
Definition uniform (rows : list Ref) : Prop :=
  forall x y, x ∈ rows -> y ∈ rows -> comparable (sort_key x) (sort_key y) = true.

(** A record with the given [state] and [date]. *)
Definition record (state date : Value) : State :=
  <["date" := date]> (<["state" := state]> ∅).

(** The kind of a sort key: [Some true] for a string, [Some false] for a
    number, [None] for None. *)
Definition kind (v : Value) : option bool :=
  match v with
  | PyNone => None
  | PyInt _ | PyFloat _ => Some false
  | PyStr _ => Some true
  end.

(** [sorted_before] on elements paired with their keys. *)
Definition keyed_before {A : Type} (pos : A -> nat) (x y : Value * A) : Prop :=
  lt x.1 y.1 = Ok true \/ (tie x.1 y.1 /\ pos x.2 < pos y.2).

(** One outcome of [try_sort]: the sorted bucket, or the bucket as it was
    when the sort raised before it had moved anything. *)
Definition sort_or_leave (rows : list Ref) : list Ref :=
  match list_sort sort_key rows with
  | Ok rows' => rows'
  | _ => rows
  end.

(** ** The claims about the index, as predicates, and the data of the
       counterexamples *)

(** What C1 asserts of a bucket [rows] and of what the sort leaves,
    [rows']: every pair with keys that cannot be compared keeps its order,
    and no pair with keys that can be compared is left in descending
    order. *)
Definition recovered_locally (rows rows' : list Ref) : Prop :=
  (forall x y, precedes x y rows ->
               comparable (sort_key x) (sort_key y) = false ->
               precedes x y rows')
  /\ (forall x y, precedes x y rows' -> lt (sort_key y) (sort_key x) <> Ok true).

(** What C3 asserts of an index: in every bucket, a record without a sort
    value stands before every record that has one. *)
Definition nulls_first (index : gmap string (list Ref)) : Prop :=
  forall key rows' x y,
    index !! key = Some rows' -> x ∈ rows' -> y ∈ rows' ->
    getattr x.2 "date" PyNone = PyNone ->
    getattr y.2 "date" PyNone <> PyNone ->
    precedes x y rows'.

(** Three rows of one state: a text date, then 5, then 3. *)
Definition text_then_numbers : list State :=
  [record (PyStr "WA") (PyStr "x");
   record (PyStr "WA") (PyInt 5);
   record (PyStr "WA") (PyInt 3)].

(** Two rows of one state: date -5, then no date. *)
Definition negative_then_null : list State :=
  [record (PyStr "WA") (PyInt (-5)); record (PyStr "WA") PyNone].

(** A value with a comma and 4301 digits: 1, then a comma, then 4300 times
    the digit 1. *)
Definition beyond_limit : string :=
  String "1" (String comma (N.iter 4300 (String "1") EmptyString)).

(** * Notions used in the further statements *)

(** ** Writing a line *)

(** [','.join(fields)] *)
Fixpoint join_commas (fields : list string) : string :=
  match fields with
  | [] => EmptyString
  | f :: rest =>
      match rest with
      | [] => f
      | _ => f +:+ String comma (join_commas rest)
      end
  end.

(** Every field followed by a comma. *)
Fixpoint closed_fields (fields : list string) : string :=
  match fields with
  | [] => EmptyString
  | f :: rest => f +:+ String comma (closed_fields rest)
  end.

(** [s.count(ch)] for a one-character [ch]. *)
Fixpoint count_char (ch : ascii) (s : string) : nat :=
  match s with
  | EmptyString => 0
  | String c s' => (if Ascii.eqb c ch then 1 else 0) + count_char ch s'
  end.

(** [s] with every quote character written twice. *)
Fixpoint double_quotes (s : string) : string :=
  match s with
  | EmptyString => EmptyString
  | String c s' =>
      if Ascii.eqb c dquote then String dquote (String dquote (double_quotes s'))
      else String c (double_quotes s')
  end.

(** A field as a writer of such lines puts it down: between quotes, with
    its quotes doubled, or bare. *)
Definition written (quoted : bool) (s : string) : string :=
  if quoted then String dquote (double_quotes s +:+ String dquote EmptyString)
  else s.

(** A field may be written bare when it holds no comma and no quote. *)
Definition writable (cell : bool * string) : Prop :=
  cell.1 = false ->
  Py.contains comma cell.2 = false /\ Py.contains dquote cell.2 = false.

(** The fields of a line, read off the scan by recursion. *)
Definition fields_of (line : string) : list string :=
  let t := scan_rest (list_ascii_of_string line) [] [] false in
  t.1.1 ++ [join t.1.2].

(** A field that holds no comma and no quote. *)
Definition plain (s : string) : Prop :=
  Py.contains comma s = false /\ Py.contains dquote s = false.

(** ** Records *)

(** [State.as_dict]: a new dict filled with the entries of [__dict__]. *)
Definition as_dict (self : State) : gmap string Value :=
  map_fold (fun k v d => <[k := v]> d) ∅ self.

(** [self.as_dict()].  The name is looked up on the instance first: where
    the object has stored a value under [as_dict], the name denotes that
    value (None, an int, a float or a str), and calling it raises
    TypeError. *)
Definition call_as_dict (self : State) : result (gmap string Value) :=
  if bool_decide (is_Some (self !! "as_dict")) then Raise TypeError
  else Ok (as_dict self).

(** The names [setattr] refuses. *)
Definition refused_names : list string := ["__dict__"; "__class__"; "__weakref__"].

(** ** Files *)

(** [text] with every LF replaced by the line end [eol]. *)
Fixpoint with_line_ends (eol : string) (text : string) : string :=
  match text with
  | EmptyString => EmptyString
  | String c rest =>
      if Ascii.eqb c LF then eol +:+ with_line_ends eol rest
      else String c (with_line_ends eol rest)
  end.

(** The header that the loader takes from the first line of a file. *)
Definition header_of (first : string) : list string :=
  map Py.strip (fields_of (Py.rstrip_eol first)).

(** The data lines that the loader does not skip. *)
Definition data_lines (lines : list string) : list string :=
  filter (fun line => line <> EmptyString) (map Py.rstrip_eol lines).

(** Every attribute of the record that is a string is a non-empty one
    with no white space at either end. *)
Definition trimmed (s : State) : Prop :=
  forall k t, s !! k = Some (PyStr t) -> Py.strip t = t /\ t <> EmptyString.

(** [code is None] fails: the record is filed by the grouping loop. *)
Definition stated (s : State) : bool :=
  match getattr s "state" PyNone with
  | PyNone => false
  | _ => true
  end.

(** ** The session of [main] *)

(** [main] reaches the outside through [print] and [input] alone.  A run
    is described by the list of these calls in the order they are made,
    each with the values it is given, before any formatting.  A call of
    [print] is taken to succeed.  A call of [input] returns a string or
    raises an Exception, as it does at the end of the input; an interrupt
    from the keyboard, which is no Exception, is not part of the model. *)
Inductive call : Type :=
  | PrintLoading (path : string)        (* print('Loading', path) *)
  | PrintErrorLoading (e : exn)         (* print('Error loading file:', e) *)
  | PrintLoaded (n : nat)               (* print('Loaded %d rows' % n) *)
  | PrintHelp                           (* the two lines of instructions *)
  | Input                               (* input('\nState code (or all/quit): ') *)
  | PrintInputError                     (* print('\nInput error; exiting.') *)
  | PrintGoodbye                        (* print('Goodbye') *)
  | PrintCount (code : string) (n : nat)          (* '%s: %d rows' *)
  | PrintNoData (c : string)            (* print('No data for state code:', c) *)
  | PrintDidYouMean (suggestions : list string)   (* 'Did you mean:', joined *)
  | PrintShowing (n : nat) (c : string) (* '\nShowing %d rows for %s' *)
  | PrintRow (idx : nat)                (* '\n--- row %d ---' *)
  | PrintField (k : string) (v : Value).          (* '  %s: %r' *)

Definition default_path : string :=
  "c:\Users\camjh\Downloads\extracted_files\usscv19d.csv".

(** The path [main] loads: [argv] is None or a list of strings. *)
Definition path_of (argv : option (list string)) : string :=
  match argv with
  | Some (p :: _) => if String.eqb p EmptyString then default_path else p
  | _ => default_path
  end.

(** The keys of [groups] in the order a dict keeps them, that of their
    first insertion: [setdefault] adds a key only when it is new.  The
    loop is the one of [group_loop], followed for the keys alone. *)
Fixpoint keys_loop (states : list Ref) (keys : list string) : list string :=
  match states with
  | [] => keys
  | s :: rest =>
      match getattr (snd s) "state" PyNone with
      | PyNone => keys_loop rest keys
      | PyStr code =>
          let key := Py.upper code in
          keys_loop rest (if bool_decide (key ∈ keys) then keys else keys ++ [key])
      | _ => keys
      end
  end.

(** The order of [str]: by code point, place by place, a proper prefix
    first.  [point] gives the code point a character stands for. *)
Fixpoint str_le (point : ascii -> N) (a b : string) : bool :=
  match a, b with
  | EmptyString, _ => true
  | String _ _, EmptyString => false
  | String x a', String y b' =>
      if (point x <? point y)%N then true
      else if (point x =? point y)%N then str_le point a' b'
      else false
  end.

(** [sorted(names)] for a list of strings. *)
Definition sorted (point : ascii -> N) (names : list string) : list string :=
  @merge_sort _ (fun a b => str_le point a b = true)
    (fun a b => decide (str_le point a b = true)) names.

(** The code point behind a character of an upper-cased string: the two
    characters that [Py.upper_char] leaves as they are stand for their
    upper-case forms U+039C and U+0178. *)
Definition upper_point (c : ascii) : N :=
  if (Py.code c =? 181)%N then 924%N
  else if (Py.code c =? 255)%N then 376%N
  else Py.code c.

(** The answer to [all]: the keys in ascending order, each with the
    length of its bucket.  A key of a dict always has an entry. *)
Definition listing (keys : list string) (index : gmap string (list Ref)) : list call :=
  omap (fun code => (fun rows => PrintCount code (length rows)) <$> index !! code)
       (sorted upper_point keys).

(** [[k for k in groups.keys() if k.startswith(c[:1])]] *)
Definition suggestions (keys : list string) (c : string) : list string :=
  filter (fun k => String.prefix (substring 0 1 c) k = true) keys.

(** The answer to a code that is no key. *)
Definition no_data (keys : list string) (c : string) : list call :=
  PrintNoData c ::
  match suggestions keys c with
  | [] => []
  | found => [PrintDidYouMean (take 8 found)]
  end.

(** The attributes of one row, by ascending name. *)
Definition show_fields (d : gmap string Value) : list call :=
  omap (fun k => PrintField k <$> d !! k) (sorted Py.code (map fst (map_to_list d))).

(** [for idx, row in enumerate(rows, idx): ...].  [row.as_dict] is looked
    up on the instance first: where the object has stored a value under
    [as_dict], the name denotes that value and calling it raises
    TypeError.  The result is the calls made and the exception that ended
    the loop, if one did. *)
Fixpoint show_rows (idx : nat) (rows : list Ref) : list call * option exn :=
  match rows with
  | [] => ([], None)
  | row :: rest =>
      if bool_decide (is_Some (snd row !! "as_dict"))
      then ([PrintRow idx], Some TypeError)
      else
        let shown := show_rows (S idx) rest in
        (PrintRow idx :: show_fields (as_dict (snd row)) ++ fst shown, snd shown)
  end.

(** Calls made first, then the rest of a run. *)
Definition and_then (out : list call) (run : list call * option exn)
    : list call * option exn :=
  (out ++ fst run, snd run).

(** The [while True] loop of [main].  [inputs] are the strings that the
    calls of [input] return, one after the other; the call after the
    last of them raises (the input has ended).  The result is the calls
    made and the exception that left the loop, if one did. *)
Fixpoint session (keys : list string) (index : gmap string (list Ref))
    (inputs : list string) : list call * option exn :=
  match inputs with
  | [] => ([Input; PrintInputError], None)
  | line :: rest =>
      let choice := Py.strip line in
      if String.eqb choice EmptyString
      then and_then [Input] (session keys index rest)
      else
        let c := Py.upper (Py.strip choice) in
        if String.eqb c "QUIT" || String.eqb c "EXIT"
        then ([Input; PrintGoodbye], None)
        else if String.eqb c "ALL"
        then and_then (Input :: listing keys index) (session keys index rest)
        else
          match index !! c with
          | None => and_then (Input :: no_data keys c) (session keys index rest)
          | Some rows =>
              let shown := show_rows 1 rows in
              match snd shown with
              | Some e => (Input :: PrintShowing (length rows) c :: fst shown, Some e)
              | None =>
                  and_then (Input :: PrintShowing (length rows) c :: fst shown)
                           (session keys index rest)
              end
          end
  end.

Section Main.

Variable float : string -> option pyfloat.
Variable fs : string -> result string.

(** The runs of [main]: the calls made, and the value returned or the
    exception raised.  A run is not a function of the inputs, as the
    order in which an abandoned sort leaves a bucket is not. *)
Inductive main_run (argv : option (list string)) (inputs : list string)
    : list call -> result Z -> Prop :=
  | run_load_error e :
      load_states_no_imports float fs (path_of argv) = Raise e ->
      main_run argv inputs
        [PrintLoading (path_of argv); PrintErrorLoading e] (Ok 2%Z)
  | run_group_error states e :
      load_states_no_imports float fs (path_of argv) = Ok states ->
      group_loop (enumerate 0 states) ∅ = Raise e ->
      main_run argv inputs
        [PrintLoading (path_of argv); PrintLoaded (length states)] (Raise e)
  | run_session states index shown :
      load_states_no_imports float fs (path_of argv) = Ok states ->
      build_index states index ->
      session (keys_loop (enumerate 0 states) []) index inputs = shown ->
      main_run argv inputs
        ([PrintLoading (path_of argv); PrintLoaded (length states); PrintHelp]
           ++ fst shown)
        (match snd shown with
         | None => Ok 0%Z
         | Some e => Raise e
         end).

End Main.

(** * Theorems *)

(** ** The line parser *)
Lemma while_loop_scan_rest (fuel : nat) (line : list ascii) (st : scan) :
  i st <= length line ->
  length line - i st <= fuel ->
  while_loop fuel line st =
    Ok (scan_of line
          (scan_rest (drop (i st) line) (fields st) (cur st) (in_quotes st))).
Proof.
  revert st. induction fuel as [|fuel IH]; intros [f c q n]; simpl; intros Hle Hfuel.
  - assert (n = length line) as -> by lia.
    rewrite Nat.ltb_irrefl, drop_all. reflexivity.
  - destruct (Nat.ltb_spec n (length line)) as [Hlt|Hge].
    2:{ rewrite drop_ge by lia. assert (n = length line) as -> by lia. reflexivity. }
    destruct (lookup_lt_is_Some_2 line n Hlt) as [ch Hch].
    rewrite (drop_S _ _ _ Hch). unfold loop_body, getitem; simpl. rewrite Hch; simpl.
    destruct q; simpl.
    + destruct (Ascii.eqb ch dquote).
      * destruct (Nat.ltb_spec (S n) (length line)) as [Hlt2|Hge2].
        -- destruct (lookup_lt_is_Some_2 line (S n) Hlt2) as [nxt Hnxt].
           rewrite (drop_S _ _ _ Hnxt), Hnxt. simpl.
           destruct (Ascii.eqb nxt dquote) eqn:E; simpl.
           ++ rewrite IH by (simpl; lia). reflexivity.
           ++ rewrite IH by (simpl; lia). simpl.
              rewrite (drop_S _ _ _ Hnxt). simpl. rewrite E. reflexivity.
        -- simpl. rewrite (drop_ge line (S n)) by lia.
           pose proof (IH (Scan f c false (S n))) as H. simpl in H.
           rewrite (drop_ge line (S n)) in H by lia. apply H; lia.
      * simpl. rewrite IH by (simpl; lia). reflexivity.
    + destruct (Ascii.eqb ch comma); simpl; [rewrite IH by (simpl; lia); reflexivity|].
      destruct (Ascii.eqb ch dquote); simpl; rewrite IH by (simpl; lia); reflexivity.
Qed.

Lemma scan_line_scan_rest (line : string) :
  scan_line line =
    Ok (scan_of (list_ascii_of_string line)
          (scan_rest (list_ascii_of_string line) [] [] false)).
Proof.
  unfold scan_line. rewrite while_loop_scan_rest; simpl; [reflexivity|lia|lia].
Qed.

Lemma chars_append (s t : string) :
  list_ascii_of_string (s +:+ t) = list_ascii_of_string s ++ list_ascii_of_string t.
Proof. induction s as [|c s IH]; simpl; [reflexivity|]. now rewrite IH. Qed.

Lemma contains_false (ch : ascii) (s : string) :
  Py.contains ch s = false -> ch ∉ list_ascii_of_string s.
Proof.
  induction s as [|c s IH]; simpl; intros H.
  - apply not_elem_of_nil.
  - apply orb_false_iff in H as [Hc Hs]. apply not_elem_of_cons. split.
    + intros ->. now rewrite Ascii.eqb_refl in Hc.
    + now apply IH.
Qed.

Lemma scan_rest_unquoted_app (p r : list ascii) (f : list string) (c : list ascii) :
  dquote ∉ p ->
  (scan_rest p f c false).2 = false /\
  scan_rest (p ++ r) f c false =
    scan_rest r (scan_rest p f c false).1.1 (scan_rest p f c false).1.2 false.
Proof.
  revert f c. induction p as [|ch p IH]; intros f c Hp; simpl; [auto|].
  apply not_elem_of_cons in Hp as [Hne Hp].
  destruct (Ascii.eqb ch comma); [now apply IH|].
  destruct (Ascii.eqb_spec ch dquote) as [->|_]; [congruence|].
  now apply IH.
Qed.

Lemma scan_rest_quoted (b : list ascii) (f : list string) (c : list ascii) :
  dquote ∉ b -> scan_rest b f c true = (f, c ++ b, true).
Proof.
  revert c. induction b as [|ch b IH]; intros c Hb; simpl.
  - now rewrite app_nil_r.
  - apply not_elem_of_cons in Hb as [Hne Hb].
    destruct (Ascii.eqb_spec ch dquote) as [->|_]; [congruence|].
    rewrite IH by assumption. now rewrite <- app_assoc.
Qed.

(** C8: [parse_csv_line] returns a list of fields for every line: the
    loop ends within [len(line)] iterations and no index is out of range.
    In particular, when a quote is opened and never closed (the text [p]
    before it and the text [b] after it hold no quote), the loop ends in
    quoted mode with everything after the quote, commas included, added to
    the buffer, and the buffer is returned as the last field. *)
Theorem parse_csv_line_total :
  (forall line : string,
      exists st, scan_line line = Ok st /\
                 parse_csv_line line = Ok (fields st ++ [join (cur st)]))
  /\
  (forall (p b : string) (stp : scan),
      Py.contains dquote p = false ->
      Py.contains dquote b = false ->
      scan_line p = Ok stp ->
      exists st,
        scan_line (p +:+ String dquote b) = Ok st /\
        in_quotes st = true /\
        fields st = fields stp /\
        cur st = cur stp ++ list_ascii_of_string b /\
        parse_csv_line (p +:+ String dquote b) =
          Ok (fields stp ++ [join (cur stp ++ list_ascii_of_string b)])).
Proof.
  split.
  - intros line. eexists. split; [apply scan_line_scan_rest|].
    unfold parse_csv_line. rewrite scan_line_scan_rest. reflexivity.
  - intros p b stp Hp Hb Hscan.
    apply contains_false in Hp, Hb.
    rewrite scan_line_scan_rest in Hscan. injection Hscan as <-.
    destruct (scan_rest_unquoted_app (list_ascii_of_string p)
                (dquote :: list_ascii_of_string b) [] [] Hp) as [Hq Happ].
    assert (Hfinal : scan_rest (list_ascii_of_string (p +:+ String dquote b)) [] [] false
              = ((scan_rest (list_ascii_of_string p) [] [] false).1.1,
                 (scan_rest (list_ascii_of_string p) [] [] false).1.2
                   ++ list_ascii_of_string b, true)).
    { rewrite chars_append. simpl. rewrite Happ.
      change (scan_rest (dquote :: list_ascii_of_string b) ?f ?c false)
        with (scan_rest (list_ascii_of_string b) f c true).
      now apply scan_rest_quoted. }
    eexists. split; [apply scan_line_scan_rest|].
    unfold parse_csv_line. rewrite scan_line_scan_rest, Hfinal. simpl. auto.
Qed.

Lemma parse_csv_line_total_witness :
  exists st,
    scan_line ("a,b" +:+ String dquote "c,d") = Ok st /\
    in_quotes st = true /\
    fields st = ["a"] /\
    cur st = list_ascii_of_string "bc,d" /\
    parse_csv_line ("a,b" +:+ String dquote "c,d") = Ok ["a"; "bc,d"].
Proof.
  exact (proj2 parse_csv_line_total "a,b" "c,d"
           (Scan ["a"] (list_ascii_of_string "b") false 3)
           eq_refl eq_refl eq_refl).
Defined.

(** C9: the three worked examples of the line parser: a quoted field
    keeps its comma, a doubled quote inside a quoted field gives one quote
    character, and the empty line gives one empty field. *)
Theorem parse_csv_line_examples :
  parse_csv_line (String dquote "a,b" +:+ String dquote ",c") = Ok ["a,b"; "c"]
  /\ parse_csv_line
       (String dquote "He said " +:+ String dquote (String dquote "hi")
          +:+ String dquote (String dquote (String dquote ",x")))
     = Ok ["He said " +:+ String dquote "hi" +:+ String dquote EmptyString; "x"]
  /\ parse_csv_line EmptyString = Ok [EmptyString].
Proof. repeat split; vm_compute; reflexivity. Qed.

(** ** Value inference *)

Lemma rstrip_fixed (p : ascii -> bool) (s : string) :
  (forall c, c ∈ list_ascii_of_string s -> p c = false) -> Py.rstrip p s = s.
Proof.
  induction s as [|c s IH]; simpl; intros H; [reflexivity|].
  rewrite IH by (intros d Hd; apply H; now right).
  destruct s; [|reflexivity].
  now rewrite (H c) by left.
Qed.

Lemma strip_fixed (s : string) :
  (forall c, c ∈ list_ascii_of_string s -> Py.isspace c = false) -> Py.strip s = s.
Proof.
  intros H. unfold Py.strip.
  assert (Hl : Py.lstrip s = s).
  { destruct s as [|c s]; simpl; [reflexivity|]. now rewrite (H c) by left. }
  rewrite Hl. now apply rstrip_fixed.
Qed.

Lemma is_decimal_isdigit (c : ascii) : is_decimal c = true -> Py.isdigit_char c = true.
Proof. unfold Py.isdigit_char, is_decimal. now intros ->. Qed.

Lemma is_decimal_not_space (c : ascii) : is_decimal c = true -> Py.isspace c = false.
Proof.
  unfold is_decimal, Py.isspace, Py.in_range. intros H.
  apply andb_true_iff in H as [H1 H2].
  apply N.leb_le in H1, H2.
  repeat (apply orb_false_iff; split);
    try apply andb_false_iff; rewrite ?N.leb_gt, ?N.eqb_neq; lia.
Qed.

Lemma all_decimal_all_digits (s : string) : all_decimal s = true -> Py.all_digits s = true.
Proof.
  induction s as [|c s IH]; simpl; [reflexivity|].
  intros [Hc Hs]%andb_true_iff. now rewrite (is_decimal_isdigit c Hc), IH.
Qed.

Lemma all_decimal_not_space (s : string) (c : ascii) :
  all_decimal s = true -> c ∈ list_ascii_of_string s -> Py.isspace c = false.
Proof.
  induction s as [|d s IH]; simpl; intros H Hin; [now apply elem_of_nil in Hin|].
  apply andb_true_iff in H as [Hd Hs].
  apply elem_of_cons in Hin as [->|Hin]; [now apply is_decimal_not_space|auto].
Qed.

Lemma int_digits_decimal (s : string) (acc : Z) (sep : bool) :
  all_decimal s = true ->
  (s = EmptyString -> sep = true) ->
  Py.int_digits acc sep s = Some (decimal_value acc s).
Proof.
  revert acc sep. induction s as [|c s IH]; simpl; intros acc sep H Hsep.
  - now rewrite Hsep.
  - apply andb_true_iff in H as [Hc Hs]. unfold is_decimal in Hc. rewrite Hc.
    now apply IH.
Qed.

Lemma int_limited_decimal (ds : string) :
  all_decimal ds = true -> ds <> EmptyString ->
  (Py.digit_count ds <= Py.max_str_digits)%N ->
  Py.int_limited ds = Some (decimal_value 0 ds).
Proof.
  intros Hd Hne Hlim. unfold Py.int_limited.
  apply N.ltb_ge in Hlim. rewrite Hlim.
  apply int_digits_decimal; [assumption|]. intros ->. contradiction.
Qed.

Lemma signed_decimal_int (s : string) (z : Z) :
  signed_decimal s z -> (Py.digit_count s <= Py.max_str_digits)%N ->
  State._looks_like_int s = true /\ Py.int s = Some z.
Proof.
  assert (Hplus : Py.isspace "+" = false) by reflexivity.
  assert (Hminus : Py.isspace "-" = false) by reflexivity.
  intros [c ds H|c ds H|c ds H] Hlim.
  - pose proof H as Hd. simpl in Hd. apply andb_true_iff in Hd as [Hc Hds].
    split.
    + unfold State._looks_like_int.
      assert (Hs : Ascii.eqb c "-" || Ascii.eqb c "+" = false).
      { destruct (Ascii.eqb_spec c "-") as [->|_]; [discriminate|].
        destruct (Ascii.eqb_spec c "+") as [->|_]; [discriminate|reflexivity]. }
      rewrite Hs. apply (all_decimal_all_digits (String c ds) H).
    + unfold Py.int. rewrite strip_fixed by (intros d; now apply all_decimal_not_space).
      destruct (Ascii.eqb_spec c "-") as [->|_]; [discriminate|].
      destruct (Ascii.eqb_spec c "+") as [->|_]; [discriminate|].
      now apply int_limited_decimal.
  - split.
    + apply (all_decimal_all_digits (String c ds) H).
    + unfold Py.int. rewrite strip_fixed.
      * change (Py.int_limited (String c ds) = Some (decimal_value 0 (String c ds))).
        now apply int_limited_decimal.
      * intros d [->|Hd]%elem_of_cons; [assumption|].
        exact (all_decimal_not_space (String c ds) d H Hd).
  - split.
    + apply (all_decimal_all_digits (String c ds) H).
    + unfold Py.int. rewrite strip_fixed.
      * change (option_map Z.opp (Py.int_limited (String c ds))
                = Some (- decimal_value 0 (String c ds))%Z).
        now rewrite int_limited_decimal.
      * intros d [->|Hd]%elem_of_cons; [assumption|].
        exact (all_decimal_not_space (String c ds) d H Hd).
Qed.

Lemma contains_not_empty (ch : ascii) (s : string) :
  Py.contains ch s = true -> String.eqb s EmptyString = false.
Proof. now destruct s. Qed.

(** C6: for a field whose lower-cased name is in the exempt set, a raw
    value that is not empty after trimming is returned as the trimmed text,
    whatever it looks like; ["06"] under [fips] stays the text ["06"]. *)
Theorem convert_exempt (float : string -> option pyfloat) :
  (forall s key_name : string,
      Py.strip s <> EmptyString ->
      Py.lower key_name ∈ State.exempt ->
      State._convert float s key_name = PyStr (Py.strip s))
  /\ State.exempt =
       ["fips"; "hash"; "totaltestresultssource"; "dataqualitygrade"; "grade";
        "state"; "lastupdateet"; "checktimeet"]
  /\ State._convert float "06" "fips" = PyStr "06"
  /\ State._convert float "06" "fips" <> PyInt 6.
Proof.
  split; [|split; [reflexivity|split; [reflexivity|discriminate]]].
  intros s key_name Hne Hin. unfold State._convert.
  apply String.eqb_neq in Hne. rewrite Hne.
  now rewrite bool_decide_eq_true_2.
Qed.

Lemma convert_exempt_witness :
  State._convert (fun _ => None) " 0012 " "FIPS" = PyStr "0012".
Proof.
  refine (proj1 (convert_exempt (fun _ => None)) " 0012 " "FIPS" _ _).
  - vm_compute. discriminate.
  - apply (bool_decide_eq_true_1 (Py.lower "FIPS" ∈ State.exempt)). vm_compute. reflexivity.
Defined.

(** C7 (as amended): for a field that is not exempt, a trimmed value that
    holds a comma and, once its commas are removed, is a signed run of
    decimal digits writing the integer [z], no more digits than [int]
    reads, is converted to the integer [z]; ["1,234"] becomes 1234. *)
Theorem convert_comma_int (float : string -> option pyfloat) :
  (forall (s key_name : string) (z : Z),
      Py.lower key_name ∉ State.exempt ->
      Py.contains comma (Py.strip s) = true ->
      signed_decimal (Py.remove_char comma (Py.strip s)) z ->
      (Py.digit_count (Py.remove_char comma (Py.strip s)) <= Py.max_str_digits)%N ->
      State._convert float s key_name = PyInt z)
  /\ State._convert float "1,234" "cases" = PyInt 1234.
Proof.
  split; [|reflexivity].
  intros s key_name z Hex Hcomma Hsd Hlim. unfold State._convert.
  rewrite (contains_not_empty _ _ Hcomma).
  rewrite bool_decide_eq_false_2 by assumption.
  rewrite Hcomma.
  destruct (signed_decimal_int _ _ Hsd Hlim) as [-> ->]. reflexivity.
Qed.

Lemma convert_comma_int_witness :
  State._convert (fun _ => None) " -12,345,678 " "Deaths" = PyInt (-12345678).
Proof.
  refine (proj1 (convert_comma_int (fun _ => None)) " -12,345,678 " "Deaths"
            (-12345678)%Z _ _ _ _).
  - apply (bool_decide_eq_false_1 (Py.lower "Deaths" ∈ State.exempt)). vm_compute. reflexivity.
  - reflexivity.
  - exact (sd_minus "1" "2345678" eq_refl).
  - vm_compute. discriminate.
Defined.

(** C7 as stated fails: a value with a comma whose digits are more than
    [int] reads is not converted; [int] raises ValueError, which
    [_convert] drops, and the trimmed text is returned. *)
Lemma comma_int_beyond_limit :
  (Py.lower "cases" ∉ State.exempt)
  /\ Py.contains comma (Py.strip beyond_limit) = true
  /\ signed_decimal (Py.remove_char comma (Py.strip beyond_limit))
       (decimal_value 0 (Py.remove_char comma (Py.strip beyond_limit)))
  /\ State._convert (fun _ => None) beyond_limit "cases" = PyStr beyond_limit
  /\ forall z, State._convert (fun _ => None) beyond_limit "cases" <> PyInt z.
Proof.
  assert (Hconv : State._convert (fun _ => None) beyond_limit "cases"
                  = PyStr beyond_limit) by (vm_compute; reflexivity).
  split; [apply (bool_decide_eq_false_1 (_ ∈ _)); vm_compute; reflexivity|].
  split; [vm_compute; reflexivity|].
  split.
  - set (t := Py.remove_char comma (Py.strip beyond_limit)).
    assert (Hd : all_decimal t = true) by (vm_compute; reflexivity).
    assert (Hne : t <> EmptyString) by (vm_compute; discriminate).
    clearbody t. destruct t as [|c ds]; [contradiction|]. now apply sd_plain.
  - split; [exact Hconv|]. intros z. rewrite Hconv. discriminate.
Qed.

(** ** Record construction *)

Section Init.

Variable float : string -> option pyfloat.

Lemma normalize_length (header row : list string) :
  length (State.normalize header row) = length header.
Proof.
  unfold State.normalize.
  destruct (Nat.ltb_spec (length row) (length header)).
  - rewrite length_app, length_replicate. lia.
  - destruct (Nat.ltb_spec (length header) (length row)).
    + rewrite length_take. lia.
    + lia.
Qed.

Lemma normalize_padding (header row : list string) (n : nat) :
  length row <= n -> n < length header ->
  State.normalize header row !! n = Some EmptyString.
Proof.
  intros Hn Hh. unfold State.normalize.
  destruct (Nat.ltb_spec (length row) (length header)); [|lia].
  rewrite lookup_app_r by assumption.
  apply lookup_replicate_2. lia.
Qed.

Lemma not_own_names (name : string) :
  name ∉ own_names ->
  name <> "__dict__" /\ name <> "__class__" /\ name <> "__weakref__"
  /\ name <> "_convert" /\ name <> "_looks_like_int".
Proof. unfold own_names. rewrite !not_elem_of_cons. tauto. Qed.

Lemma setattr_ok (self : State) (name : string) (val : Value) :
  name ∉ own_names -> State.setattr self name val = Ok (<[name := val]> self).
Proof.
  intros (Hd & Hc & Hw & _)%not_own_names. unfold State.setattr.
  rewrite bool_decide_eq_false_2.
  2:{ rewrite !elem_of_cons, elem_of_nil. tauto. }
  now destruct (String.eqb_spec name "__weakref__").
Qed.

Lemma init_loop_ok (pairs : list (string * string)) (self : State) :
  Forall (fun kv => Py.strip kv.1 ∉ own_names) pairs ->
  self !! "_convert" = None ->
  self !! "_looks_like_int" = None ->
  State.init_loop float pairs self = Ok (assigned float pairs self).
Proof.
  revert self. induction pairs as [|[k v] pairs IH]; intros self Hp Hc Hl; [reflexivity|].
  apply Forall_cons in Hp as [Hk Hp]. simpl in Hk. simpl.
  pose proof (not_own_names _ Hk) as (_ & _ & _ & Hnc & Hnl).
  unfold State.call_convert.
  rewrite bool_decide_eq_false_2 by (rewrite Hc; apply is_Some_None).
  rewrite (bool_decide_eq_false_2 (is_Some (self !! "_looks_like_int")))
    by (rewrite Hl; apply is_Some_None).
  simpl. rewrite setattr_ok by assumption. simpl.
  apply IH; [assumption| |].
  - now rewrite lookup_insert_ne.
  - now rewrite lookup_insert_ne.
Qed.

Lemma assigned_other (pairs : list (string * string)) (self : State) (name : string) :
  name ∉ map (fun kv => Py.strip kv.1) pairs ->
  assigned float pairs self !! name = self !! name.
Proof.
  revert self. induction pairs as [|[k v] pairs IH]; intros self Hn; [reflexivity|].
  simpl in *. apply not_elem_of_cons in Hn as [Hne Hn].
  unfold assigned in *. simpl. rewrite IH by assumption.
  now apply lookup_insert_ne.
Qed.

Lemma assigned_lookup (pairs : list (string * string)) (self : State)
    (n : nat) (k v : string) :
  NoDup (map (fun kv => Py.strip kv.1) pairs) ->
  pairs !! n = Some (k, v) ->
  assigned float pairs self !! Py.strip k = Some (State._convert float v k).
Proof.
  revert self n. induction pairs as [|[k' v'] pairs IH]; intros self n Hnd Hn.
  - now rewrite lookup_nil in Hn.
  - simpl in Hnd. apply NoDup_cons in Hnd as [Hfresh Hnd].
    destruct n as [|n]; simpl in Hn.
    + injection Hn as -> ->. unfold assigned. simpl.
      fold (assigned float pairs (<[Py.strip k := State._convert float v k]> self)).
      rewrite assigned_other by assumption. apply lookup_insert_eq.
    + unfold assigned. simpl. eapply IH; eassumption.
Qed.

Lemma assigned_size (pairs : list (string * string)) (self : State) :
  NoDup (map (fun kv => Py.strip kv.1) pairs) ->
  (forall name, name ∈ map (fun kv => Py.strip kv.1) pairs -> self !! name = None) ->
  size (assigned float pairs self) = size self + length pairs.
Proof.
  revert self. induction pairs as [|[k v] pairs IH]; intros self Hnd Hfresh; simpl.
  - unfold assigned. simpl. lia.
  - simpl in Hnd. apply NoDup_cons in Hnd as [Hk Hnd].
    unfold assigned. simpl.
    fold (assigned float pairs (<[Py.strip k := State._convert float v k]> self)).
    rewrite IH.
    + rewrite map_size_insert_None; [lia|]. apply Hfresh. simpl. left.
    + assumption.
    + intros name Hname. rewrite lookup_insert_ne.
      * apply Hfresh. simpl. now right.
      * intros <-. contradiction.
Qed.

Lemma zip_names (header row : list string) :
  length row = length header ->
  map (fun kv : string * string => Py.strip kv.1) (zip header row) = map Py.strip header.
Proof.
  revert row. induction header as [|k header IH]; intros [|v row] Hlen;
    simpl in *; try discriminate; [reflexivity|].
  f_equal. apply IH. lia.
Qed.

End Init.

(** C5 (as amended): for a header of N names that are pairwise distinct
    once trimmed, none of them a name the object reserves, and any row,
    the row is padded with empty strings or cut to N values, construction
    succeeds, the record has exactly N fields, and every field at a
    position beyond the end of the row holds None. *)
Theorem init_field_count (float : string -> option pyfloat)
    (header row : list string) :
  NoDup (map Py.strip header) ->
  Forall (fun k => Py.strip k ∉ own_names) header ->
  length (State.normalize header row) = length header
  /\ (length row < length header ->
      State.normalize header row
      = row ++ replicate (length header - length row) EmptyString)
  /\ (length header < length row ->
      State.normalize header row = take (length header) row)
  /\ exists self,
       State.__init__ float header row = Ok self
       /\ size self = length header
       /\ forall n k, length row <= n -> header !! n = Some k ->
            self !! Py.strip k = Some PyNone.
Proof.
  intros Hnd Hres.
  pose proof (normalize_length header row) as Hlen.
  split; [assumption|]. split; [|split].
  - intros Hlt. unfold State.normalize.
    now destruct (Nat.ltb_spec (length row) (length header)); [|lia].
  - intros Hlt. unfold State.normalize.
    destruct (Nat.ltb_spec (length row) (length header)); [lia|].
    now destruct (Nat.ltb_spec (length header) (length row)); [|lia].
  - exists (assigned float (zip header (State.normalize header row)) ∅).
    pose proof (zip_names header _ Hlen) as Hnames.
    split; [|split].
    + unfold State.__init__. apply init_loop_ok; try apply lookup_empty.
      apply Forall_forall. intros [k v] Hin. simpl.
      rewrite Forall_forall in Hres. apply Hres.
      apply list_elem_of_lookup in Hin as [n Hn].
      apply lookup_zip_with_Some in Hn as (k' & v' & E & Hk & _).
      injection E as -> ->. eapply list_elem_of_lookup_2; eassumption.
    + rewrite assigned_size.
      * rewrite map_size_empty, length_zip_with, Hlen. lia.
      * now rewrite Hnames.
      * intros name _. apply lookup_empty.
    + intros n k Hn Hk.
      assert (Hpad : State.normalize header row !! n = Some EmptyString).
      { apply normalize_padding; [assumption|]. eapply lookup_lt_Some; eassumption. }
      assert (Hz : zip header (State.normalize header row) !! n = Some (k, EmptyString)).
      { apply lookup_zip_with_Some. eauto. }
      rewrite (assigned_lookup float _ _ n k EmptyString) by (rewrite ?Hnames; assumption).
      reflexivity.
Qed.

Lemma init_field_count_witness :
  exists self,
    State.__init__ (fun _ => None) ["state"; "date"; "positive"] ["WA"] = Ok self
    /\ size self = 3
    /\ self !! "positive" = Some PyNone.
Proof.
  destruct (init_field_count (fun _ => None) ["state"; "date"; "positive"] ["WA"])
    as (_ & _ & _ & self & Hinit & Hsize & Hpad).
  - apply (bool_decide_eq_true_1 (NoDup _)). vm_compute. reflexivity.
  - apply (bool_decide_eq_true_1 (Forall _ _)). vm_compute. reflexivity.
  - exists self. split; [exact Hinit|]. split; [exact Hsize|].
    apply (Hpad 2 "positive"); [simpl; lia|reflexivity].
Defined.

(** C5 as stated fails in two ways: a name that occurs twice in the header
    names one field, so the record has fewer fields than the header has
    names; and a header name equal to [_convert] makes the next call of
    [self._convert] raise. *)
Lemma duplicate_names_drop_fields :
  (exists self,
     State.__init__ (fun _ => None) ["a"; "a"] ["1"; "2"] = Ok self
     /\ size self = 1
     /\ size self <> length ["a"; "a"])
  /\ State.__init__ (fun _ => None) ["_convert"; "a"] ["1"; "2"] = Raise TypeError.
Proof.
  split; [|vm_compute; reflexivity].
  exists (<["a" := PyInt 2]> ∅). split; [|split].
  - vm_compute. reflexivity.
  - vm_compute. reflexivity.
  - vm_compute. discriminate.
Qed.

(** ** The loader *)

(** C10: when [path] names a readable file with no content at all,
    [load_states_no_imports] returns the empty list and raises nothing. *)
Theorem load_empty_file (float : string -> option pyfloat)
    (fs : string -> result string) (path : string) :
  fs path = Ok EmptyString ->
  load_states_no_imports float fs path = Ok [].
Proof. intros Hfs. unfold load_states_no_imports. rewrite Hfs. reflexivity. Qed.

Lemma load_empty_file_witness :
  load_states_no_imports (fun _ => None) (fun _ => Ok EmptyString) "usscv19d.csv" = Ok [].
Proof.
  exact (load_empty_file (fun _ => None) (fun _ => Ok EmptyString) "usscv19d.csv" eq_refl).
Defined.

(** An exception raised while the file is opened or read comes out of the
    loader unchanged. *)
Lemma load_io_error (float : string -> option pyfloat)
    (fs : string -> result string) (path : string) (e : exn) :
  fs path = Raise e -> load_states_no_imports float fs path = Raise e.
Proof. intros Hfs. unfold load_states_no_imports. now rewrite Hfs. Qed.

(** The two-line file of the specification loads as one record. *)
Example load_two_lines :
  load_states_no_imports (fun _ => None)
    (fun _ => Ok ("state,date,positive" +:+ String LF "WA,20200301,5")) "data.csv"
  = Ok [ <["positive" := PyInt 5]>
           (<["date" := PyInt 20200301]> (<["state" := PyStr "WA"]> ∅)) ].
Proof. vm_compute. reflexivity. Qed.

(** ** The order on sort keys *)

Lemma Qlt_compare (p r : Q) : (p < r)%Q -> (p ?= r)%Q = Lt.
Proof. intros H. now apply Qlt_alt. Qed.

Lemma xnum_ltb_trans (a b c : xnum) :
  xnum_ltb a b = true -> xnum_ltb c b = false -> xnum_ltb a c = true.
Proof.
  destruct a as [|p|], b as [|q|], c as [|r|]; unfold xnum_ltb; try congruence.
  destruct (p ?= q)%Q eqn:E1; try discriminate.
  apply Qlt_alt in E1.
  destruct (r ?= q)%Q eqn:E2; try discriminate; intros _ _.
  - apply Qeq_alt in E2.
    rewrite (Qlt_compare p r); [reflexivity|]. now rewrite E2.
  - apply Qgt_alt in E2.
    rewrite (Qlt_compare p r); [reflexivity|]. eapply Qlt_trans; eassumption.
Qed.

Lemma xnum_ltb_asym (a b : xnum) : xnum_ltb a b = true -> xnum_ltb b a = false.
Proof.
  destruct a as [|p|], b as [|q|]; unfold xnum_ltb; try congruence.
  rewrite <- (Qcompare_antisym p q). now destruct (p ?= q)%Q.
Qed.

Lemma ascii_compare_refl (c : ascii) : Ascii.compare c c = Eq.
Proof. unfold Ascii.compare. apply N.compare_refl. Qed.

Lemma string_compare_refl (s : string) : String.compare s s = Eq.
Proof.
  induction s as [|c s IH]; simpl; [reflexivity|]. now rewrite ascii_compare_refl.
Qed.

Lemma string_ltb_asym (s t : string) : String.ltb s t = true -> String.ltb t s = false.
Proof.
  unfold String.ltb. rewrite (String.compare_antisym t s).
  now destruct (String.compare s t).
Qed.

Lemma string_ltb_trans (a b c : string) :
  String.ltb a b = true -> String.ltb c b = false -> String.ltb a c = true.
Proof.
  unfold String.ltb. revert b c.
  induction a as [|x a IH]; intros [|y b] [|z c]; simpl; try congruence.
  unfold Ascii.compare.
  destruct (N.compare_spec (N_of_ascii x) (N_of_ascii y)) as [Exy|Lxy|Gxy];
    try discriminate;
    destruct (N.compare_spec (N_of_ascii z) (N_of_ascii y)) as [Ezy|Lzy|Gzy];
    try discriminate;
    destruct (N.compare_spec (N_of_ascii x) (N_of_ascii z)) as [Exz|Lxz|Gxz];
    try reflexivity; try lia.
  apply IH.
Qed.

Lemma lt_comparable (a b : Value) :
  comparable a b = true -> exists r, lt a b = Ok r.
Proof. destruct a, b; simpl; try discriminate; eauto. Qed.

Lemma lt_incomparable (a b : Value) :
  comparable a b = false -> lt a b = Raise TypeError.
Proof. destruct a, b; simpl; try discriminate; eauto. Qed.

Lemma Ok_inj {A : Type} (a b : A) : Ok a = Ok b -> a = b.
Proof. now intros [= ->]. Qed.

Lemma lt_trans (a b c : Value) :
  lt a b = Ok true -> lt c b = Ok false -> lt a c = Ok true.
Proof.
  destruct a as [|x|f|s], b as [|y|g|t], c as [|z|h|u]; cbn [lt num_val];
    try discriminate; intros H1%Ok_inj H2%Ok_inj; f_equal;
    first [eapply xnum_ltb_trans; eassumption | eapply string_ltb_trans; eassumption].
Qed.

Lemma lt_asym (a b : Value) : lt a b = Ok true -> lt b a = Ok false.
Proof.
  destruct a as [|x|f|s], b as [|y|g|t]; cbn [lt num_val]; try discriminate;
    intros H%Ok_inj; f_equal;
    first [now apply xnum_ltb_asym | now apply string_ltb_asym].
Qed.

Lemma comparable_sym (a b : Value) : comparable a b = comparable b a.
Proof. now destruct a, b. Qed.

(** ** [list.sort] *)

Lemma comparable_kind (a b : Value) :
  comparable a b = true <-> kind a = kind b /\ kind a <> None.
Proof.
  destruct a, b; simpl;
    (split; [intros; split; congruence | intros [H1 H2]; congruence]).
Qed.

Section SortFacts.

Context {A : Type} (pos : A -> nat).

Implicit Types (x y : Value * A) (sorted todo : list (Value * A)).

Lemma insert_outcome x sorted :
  (exists r, insert x sorted = Ok r /\ r ≡ₚ x :: sorted)
  \/ insert x sorted = Raise TypeError.
Proof.
  induction sorted as [|y rest IH]; simpl; [left; eauto|].
  destruct (comparable x.1 y.1) eqn:Hc.
  - destruct (lt_comparable _ _ Hc) as [ [ | ] ->]; simpl; [left; eauto|].
    destruct IH as [(r & -> & Hr) | -> ]; simpl; [left|now right].
    eexists. split; [reflexivity|]. rewrite Hr. apply perm_swap.
  - rewrite (lt_incomparable _ _ Hc). now right.
Qed.

Lemma insert_first_comparison x y rest r :
  insert x (y :: rest) = Ok r -> comparable x.1 y.1 = true.
Proof.
  simpl. destruct (comparable x.1 y.1) eqn:Hc; [reflexivity|].
  now rewrite (lt_incomparable _ _ Hc).
Qed.

Lemma insert_sorted x sorted :
  StronglySorted (keyed_before pos) sorted ->
  Forall (fun y => comparable x.1 y.1 = true) sorted ->
  Forall (fun y => pos y.2 < pos x.2) sorted ->
  exists r, insert x sorted = Ok r /\ r ≡ₚ x :: sorted
            /\ StronglySorted (keyed_before pos) r.
Proof.
  induction sorted as [|y rest IH]; intros Hs Hc Hp; simpl.
  - eexists. split; [reflexivity|]. split; [reflexivity|].
    repeat constructor.
  - apply StronglySorted_inv in Hs as [Hrest Hy].
    apply Forall_cons in Hc as [Hcy Hc]. apply Forall_cons in Hp as [Hpy Hp].
    destruct (lt_comparable _ _ Hcy) as [ [ | ] Hlt]; rewrite Hlt; simpl.
    + eexists. split; [reflexivity|]. split; [reflexivity|].
      constructor; [now constructor|].
      constructor; [now left|].
      rewrite Forall_forall in Hy |- *. intros z Hz. left.
      destruct (Hy z Hz) as [Hyz|[[_ Hzy] _]].
      * eapply lt_trans; [eassumption|]. now apply lt_asym.
      * eapply lt_trans; eassumption.
    + destruct (IH Hrest Hc Hp) as (r & -> & Hperm & Hsorted). simpl.
      eexists. split; [reflexivity|]. split.
      * rewrite Hperm. apply perm_swap.
      * constructor; [assumption|].
        rewrite Hperm. constructor; [|assumption].
        rewrite comparable_sym in Hcy.
        destruct (lt_comparable _ _ Hcy) as [ [ | ] Hyx]; [now left|].
        right. split; [split|]; assumption.
Qed.

Lemma sort_loop_sorted todo sorted :
  StronglySorted (keyed_before pos) sorted ->
  (forall x y, x ∈ sorted ++ todo -> y ∈ sorted ++ todo ->
               comparable x.1 y.1 = true) ->
  StronglySorted (fun x y => pos x.2 < pos y.2) todo ->
  (forall x y, x ∈ sorted -> y ∈ todo -> pos x.2 < pos y.2) ->
  exists r, sort_loop todo sorted = Ok r /\ r ≡ₚ sorted ++ todo
            /\ StronglySorted (keyed_before pos) r.
Proof.
  revert sorted. induction todo as [|x todo IH]; intros sorted Hs Hc Ht Hp; simpl.
  - eexists. split; [reflexivity|]. now rewrite app_nil_r.
  - apply StronglySorted_inv in Ht as [Htodo Hx].
    destruct (insert_sorted x sorted Hs) as (r & -> & Hperm & Hsorted).
    + apply Forall_forall. intros y Hy. apply Hc; rewrite elem_of_app.
      * right. left.
      * now left.
    + apply Forall_forall. intros y Hy. apply Hp; [assumption|left].
    + simpl. destruct (IH r Hsorted) as (r' & Hloop & Hperm' & Hsorted').
      * intros a b Ha Hb. apply Hc.
        -- rewrite Hperm in Ha. simpl in Ha. now rewrite <- Permutation_middle.
        -- rewrite Hperm in Hb. simpl in Hb. now rewrite <- Permutation_middle.
      * assumption.
      * intros a b Ha Hb. rewrite Hperm in Ha.
        apply elem_of_cons in Ha as [->|Ha].
        -- rewrite Forall_forall in Hx. now apply Hx.
        -- apply Hp; [assumption|now right].
      * exists r'. split; [assumption|]. split; [|assumption].
        rewrite Hperm', Hperm. simpl. apply Permutation_middle.
Qed.

Lemma sort_loop_outcome todo sorted :
  (exists r, sort_loop todo sorted = Ok r /\ r ≡ₚ sorted ++ todo)
  \/ sort_loop todo sorted = Raise TypeError.
Proof.
  revert sorted. induction todo as [|x todo IH]; intros sorted; simpl.
  - left. eexists. split; [reflexivity|]. now rewrite app_nil_r.
  - destruct (insert_outcome x sorted) as [(r & -> & Hr) | -> ]; [|now right].
    simpl. destruct (IH r) as [(r' & -> & Hr') | -> ]; [left|now right].
    eexists. split; [reflexivity|].
    rewrite Hr', Hr. simpl. apply Permutation_middle.
Qed.

Lemma sort_loop_one_kind todo sorted r :
  sort_loop todo sorted = Ok r ->
  Forall (fun x => kind x.1 <> None) (sorted ++ todo) ->
  (forall x y, x ∈ sorted -> y ∈ sorted -> kind x.1 = kind y.1) ->
  forall x y, x ∈ sorted ++ todo -> y ∈ sorted ++ todo -> kind x.1 = kind y.1.
Proof.
  revert sorted. induction todo as [|x todo IH]; intros sorted Hloop Hk Hs.
  - now rewrite app_nil_r.
  - simpl in Hloop.
    destruct (insert_outcome x sorted) as [(s' & Hins & Hperm)|Hins];
      rewrite Hins in Hloop; [|discriminate]. simpl in Hloop.
    assert (Hall : forall a b, a ∈ s' ++ todo -> b ∈ s' ++ todo -> kind a.1 = kind b.1).
    { apply IH; [assumption| |].
      - rewrite Hperm. simpl. rewrite Permutation_middle. assumption.
      - assert (Hx : forall y, y ∈ sorted -> kind x.1 = kind y.1).
        { destruct sorted as [|z rest]; [intros y Hy; now apply elem_of_nil in Hy|].
          intros y Hy. apply insert_first_comparison in Hins.
          apply comparable_kind in Hins as [-> _]. apply Hs; [left|assumption]. }
        intros a b Ha Hb. rewrite Hperm in Ha, Hb.
        apply elem_of_cons in Ha as [->|Ha]; apply elem_of_cons in Hb as [->|Hb];
          auto. symmetry. auto. }
    intros a b Ha Hb. apply Hall.
    + rewrite Hperm. simpl. now rewrite Permutation_middle.
    + rewrite Hperm. simpl. now rewrite Permutation_middle.
Qed.

End SortFacts.

(** ** Sorting a bucket *)

Lemma sort_key_kind (x : Ref) : kind (sort_key x) <> None.
Proof.
  unfold sort_key. destruct (truthy _) eqn:Ht; [|discriminate].
  destruct (getattr x.2 "date" PyNone); simpl in *; congruence.
Qed.

Lemma StronglySorted_map_on {A B : Type} (f : A -> B) (P : A -> Prop)
    (R1 : relation A) (R2 : relation B) (l : list A) :
  (forall x y, P x -> P y -> R1 x y -> R2 (f x) (f y)) ->
  Forall P l -> StronglySorted R1 l -> StronglySorted R2 (map f l).
Proof.
  intros HR HP Hs. induction Hs as [|x l Hs IH Hx]; simpl; [constructor|].
  apply Forall_cons in HP as [Hpx HP]. constructor; [now apply IH|].
  apply Forall_map. rewrite Forall_forall in Hx, HP |- *.
  intros y Hy. apply HR; auto.
Qed.

Lemma decorate_snd (rows : list Ref) :
  map snd (map (fun x => (sort_key x, x)) rows) = rows.
Proof. induction rows as [|x rows IH]; simpl; [reflexivity|]. now rewrite IH. Qed.

Lemma list_sort_outcome (rows : list Ref) :
  (exists rows', list_sort sort_key rows = Ok rows' /\ rows' ≡ₚ rows)
  \/ list_sort sort_key rows = Raise TypeError.
Proof.
  unfold list_sort.
  destruct (sort_loop_outcome (map (fun x => (sort_key x, x)) rows) [])
    as [(r & -> & Hr)| ->]; [left|now right].
  simpl. eexists. split; [reflexivity|].
  simpl in Hr. rewrite Hr. now rewrite decorate_snd.
Qed.

Lemma list_sort_sorted (rows : list Ref) :
  StronglySorted (fun x y : Ref => x.1 < y.1) rows ->
  uniform rows ->
  exists rows', list_sort sort_key rows = Ok rows' /\ rows' ≡ₚ rows
                /\ StronglySorted sorted_before rows'.
Proof.
  intros Hpos Huni. unfold list_sort.
  destruct (sort_loop_sorted fst (map (fun x => (sort_key x, x)) rows) [])
    as (r & -> & Hperm & Hsorted).
  - constructor.
  - simpl. intros x y [x' [-> Hx]]%list_elem_of_fmap [y' [-> Hy]]%list_elem_of_fmap.
    simpl. now apply Huni.
  - eapply StronglySorted_fmap; [|exact Hpos]. auto.
  - intros x y Hx. now apply elem_of_nil in Hx.
  - simpl in Hperm. simpl. eexists. split; [reflexivity|]. split.
    + rewrite Hperm. now rewrite decorate_snd.
    + eapply (StronglySorted_map_on snd (fun x => x.1 = sort_key x.2));
        [| |exact Hsorted].
      * intros x y Hx Hy [Hlt|[[H1 H2] Hp]]; unfold sorted_before, tie.
        -- left. now rewrite <- Hx, <- Hy.
        -- right. now rewrite <- Hx, <- Hy.
      * apply Forall_forall. intros x Hx. rewrite Hperm in Hx.
        now apply list_elem_of_fmap in Hx as [x' [-> _]].
Qed.

Lemma list_sort_uniform (rows rows' : list Ref) :
  list_sort sort_key rows = Ok rows' -> uniform rows.
Proof.
  unfold list_sort. intros Hsort.
  destruct (sort_loop (map (fun x => (sort_key x, x)) rows) []) as [r| |] eqn:Hloop;
    try discriminate.
  pose proof (sort_loop_one_kind _ _ _ Hloop) as Hkind. simpl in Hkind.
  intros x y Hx Hy. apply comparable_kind. split; [|apply sort_key_kind].
  apply (Hkind
           ltac:(apply Forall_forall; intros z [z' [-> _]]%list_elem_of_fmap;
                 apply sort_key_kind)
           ltac:(intros a b Ha; now apply elem_of_nil in Ha)
           (sort_key x, x) (sort_key y, y));
    apply list_elem_of_fmap; eauto.
Qed.

(** A bucket that holds both a number key and a string key makes the sort
    raise, whatever the order of its records. *)
Lemma list_sort_mixed (rows : list Ref) (x y : Ref) :
  x ∈ rows -> y ∈ rows -> comparable (sort_key x) (sort_key y) = false ->
  list_sort sort_key rows = Raise TypeError.
Proof.
  intros Hx Hy Hc.
  destruct (list_sort_outcome rows) as [(rows' & Hsort & _)|]; [|assumption].
  apply list_sort_uniform in Hsort. rewrite (Hsort x y Hx Hy) in Hc. discriminate.
Qed.

Lemma sorted_before_asym (x y : Ref) : sorted_before x y -> sorted_before y x -> False.
Proof.
  intros [Hxy|[[Hxy Hyx] Hp]] [Hyx'|[[Hyx' Hxy'] Hp']].
  - apply lt_asym in Hxy. congruence.
  - congruence.
  - congruence.
  - lia.
Qed.

(** The result of the sort does not depend on the sorting method: a list
    with the same records in key order, ties in order of position, is the
    list [list_sort] returns. *)
Lemma stable_sort_unique (rows rows' other : list Ref) :
  list_sort sort_key rows = Ok rows' ->
  StronglySorted (fun x y : Ref => x.1 < y.1) rows ->
  other ≡ₚ rows -> StronglySorted sorted_before other ->
  other = rows'.
Proof.
  intros Hsort Hpos Hperm Hother.
  destruct (list_sort_sorted rows Hpos (list_sort_uniform _ _ Hsort))
    as (r & Hr & Hperm' & Hsorted).
  rewrite Hsort in Hr. injection Hr as <-.
  apply (StronglySorted_unique_strong sorted_before); try assumption.
  - intros a b _ _ Hab Hba. destruct (sorted_before_asym a b Hab Hba).
  - now rewrite Hperm, Hperm'.
Qed.

Lemma try_sort_perm (rows rows' : list Ref) : try_sort rows rows' -> rows' ≡ₚ rows.
Proof.
  intros [r Hsort|e r Hsort Hperm]; [|assumption].
  destruct (list_sort_outcome rows) as [(r' & Hr & Hperm)|Hr]; congruence.
Qed.

Lemma try_sort_sort_or_leave (rows : list Ref) : try_sort rows (sort_or_leave rows).
Proof.
  unfold sort_or_leave.
  destruct (list_sort_outcome rows) as [(r & Hr & _)|Hr]; rewrite Hr.
  - now apply sort_completed.
  - now apply (sort_abandoned rows TypeError).
Qed.

(** ** Grouping *)

Lemma enumerate_lookup (states : list State) (n : nat) (r : Ref) :
  r ∈ enumerate n states <-> n <= r.1 /\ states !! (r.1 - n) = Some r.2.
Proof.
  revert n. induction states as [|s states IH]; intros n; simpl.
  - split; [intros H; now apply elem_of_nil in H|now intros [_ H]].
  - rewrite elem_of_cons, IH. destruct r as [k t]. simpl. split.
    + intros [[= -> ->]|[Hle Hlk]].
      * split; [lia|]. now rewrite Nat.sub_diag.
      * split; [lia|]. now replace (k - n) with (S (k - S n)) by lia.
    + intros [Hle Hlk]. destruct (decide (k = n)) as [->|Hne].
      * left. rewrite Nat.sub_diag in Hlk. simpl in Hlk. congruence.
      * right. split; [lia|].
        now replace (k - n) with (S (k - S n)) in Hlk by lia.
Qed.

Lemma enumerate_sorted (states : list State) (n : nat) :
  StronglySorted (fun x y : Ref => x.1 < y.1) (enumerate n states).
Proof.
  revert n. induction states as [|s states IH]; intros n; simpl; constructor.
  - apply IH.
  - apply Forall_forall. intros r [Hle _]%enumerate_lookup. simpl. lia.
Qed.

Lemma StronglySorted_filter {A : Type} (R : relation A) (P : A -> Prop)
    `{forall x, Decision (P x)} (l : list A) :
  StronglySorted R l -> StronglySorted R (filter P l).
Proof.
  induction 1 as [|x l Hs IH Hx]; [constructor|].
  rewrite filter_cons. destruct (decide (P x)); [|assumption].
  constructor; [assumption|].
  rewrite Forall_forall in Hx |- *. intros y [_ Hy]%list_elem_of_filter. auto.
Qed.

Lemma StronglySorted_lt_NoDup (rows : list Ref) :
  StronglySorted (fun x y : Ref => x.1 < y.1) rows -> NoDup rows.
Proof.
  induction 1 as [|x l Hs IH Hx]; constructor; [|assumption].
  intros Hin. rewrite Forall_forall in Hx. specialize (Hx x Hin). lia.
Qed.

Lemma group_loop_buckets (refs : list Ref) (groups : gmap string (list Ref)) :
  Forall (fun r : Ref => text_state r.2) refs ->
  exists groups',
    group_loop refs groups = Ok groups'
    /\ forall key,
         groups' !! key =
           match filter (fun r => bucket_key r = Some key) refs with
           | [] => groups !! key
           | found => Some (default [] (groups !! key) ++ found)
           end.
Proof.
  revert groups. induction refs as [|r refs IH]; intros groups Ht.
  - exists groups. split; [reflexivity|]. intros key. reflexivity.
  - apply Forall_cons in Ht as [Hr Ht]. simpl. unfold text_state in Hr.
    destruct Hr as [Hnone|[code Hcode]].
    + rewrite Hnone. destruct (IH groups Ht) as (g' & Hg' & Hlk).
      exists g'. split; [assumption|]. intros key.
      rewrite filter_cons_False; [apply Hlk|].
      unfold bucket_key. now rewrite Hnone.
    + rewrite Hcode. simpl.
      destruct (IH (<[Py.upper code := default [] (groups !! Py.upper code) ++ [r]]> groups) Ht)
        as (g' & Hg' & Hlk).
      exists g'. split; [assumption|]. intros key. rewrite Hlk.
      destruct (decide (key = Py.upper code)) as [->|Hne].
      * rewrite lookup_insert_eq.
        rewrite (filter_cons_True _ r) by (unfold bucket_key; now rewrite Hcode).
        simpl. destruct (filter _ refs); [reflexivity|].
        now rewrite <- app_assoc.
      * rewrite lookup_insert_ne by congruence.
        rewrite (filter_cons_False _ r); [reflexivity|].
        unfold bucket_key. rewrite Hcode. congruence.
Qed.

Lemma group_loop_raises (refs : list Ref) (groups : gmap string (list Ref)) (r : Ref) :
  r ∈ refs ->
  kind (getattr r.2 "state" PyNone) = Some false ->
  group_loop refs groups = Raise AttributeError.
Proof.
  intros Hin Hk. revert groups.
  induction refs as [|r' refs IH]; intros groups; [now apply elem_of_nil in Hin|].
  simpl. apply elem_of_cons in Hin as [<-|Hin].
  - now destruct (getattr r.2 "state" PyNone).
  - destruct (getattr r'.2 "state" PyNone); simpl; auto.
Qed.

(** ** Positions in a bucket *)

Lemma precedes_sorted {A : Type} (R : relation A) (l : list A) (x y : A) :
  StronglySorted R l -> precedes x y l -> R x y.
Proof.
  intros Hs (l1 & l2 & l3 & ->).
  apply StronglySorted_app_1_r in Hs. apply StronglySorted_inv in Hs as [_ Hx].
  rewrite Forall_forall in Hx. apply Hx. rewrite elem_of_app. right. left.
Qed.

Lemma precedes_total {A : Type} (l : list A) (x y : A) :
  x ∈ l -> y ∈ l -> x <> y -> precedes x y l \/ precedes y x l.
Proof.
  intros Hx Hy Hne.
  apply list_elem_of_split in Hx as (l1 & l2 & ->).
  apply elem_of_app in Hy as [Hy|Hy].
  - right. apply list_elem_of_split in Hy as (k1 & k2 & ->).
    exists k1, k2, l2. now rewrite <- app_assoc.
  - apply elem_of_cons in Hy as [->|Hy]; [congruence|].
    left. apply list_elem_of_split in Hy as (k1 & k2 & ->).
    now exists l1, k1, k2.
Qed.

Lemma precedes_elem_of {A : Type} (l : list A) (x y : A) :
  precedes x y l -> x ∈ l /\ y ∈ l.
Proof.
  intros (l1 & l2 & l3 & ->). rewrite !elem_of_app, !elem_of_cons, !elem_of_app, !elem_of_cons.
  tauto.
Qed.

(** ** The sorting pass over the groups *)

Lemma sort_groups_sort_or_leave (groups : gmap string (list Ref)) :
  sort_groups groups (sort_or_leave <$> groups).
Proof.
  intros code. rewrite lookup_fmap.
  destruct (groups !! code) as [rows|]; simpl; constructor.
  apply try_sort_sort_or_leave.
Qed.

Lemma sort_groups_lookup (groups index : gmap string (list Ref)) (key : string) :
  sort_groups groups index ->
  (forall rows, groups !! key = Some rows ->
     exists rows', index !! key = Some rows' /\ try_sort rows rows')
  /\ (forall rows', index !! key = Some rows' ->
     exists rows, groups !! key = Some rows /\ try_sort rows rows').
Proof.
  intros Hs. specialize (Hs key). split.
  - intros rows Hrows. rewrite Hrows in Hs. inversion Hs; subst. eauto.
  - intros rows' Hrows'. rewrite Hrows' in Hs. inversion Hs; subst. eauto.
Qed.

Lemma group_loop_text (refs : list Ref) (groups groups' : gmap string (list Ref)) :
  group_loop refs groups = Ok groups' -> Forall (fun r : Ref => text_state r.2) refs.
Proof.
  revert groups. induction refs as [|r refs IH]; intros groups; [constructor|].
  simpl. unfold text_state.
  destruct (getattr r.2 "state" PyNone) eqn:E; simpl; try discriminate.
  - intros H. constructor; [now left|]. eapply IH; eassumption.
  - intros H. constructor; [right; eauto|]. eapply IH; eassumption.
Qed.

(** The buckets that the grouping loop builds from the loaded states. *)
Lemma grouped_bucket (states : list State) (groups : gmap string (list Ref))
    (key : string) (rows : list Ref) :
  group_loop (enumerate 0 states) ∅ = Ok groups ->
  groups !! key = Some rows ->
  rows = filter (fun r => bucket_key r = Some key) (enumerate 0 states)
  /\ StronglySorted (fun x y : Ref => x.1 < y.1) rows
  /\ NoDup rows.
Proof.
  intros Hloop Hrows.
  destruct (group_loop_buckets (enumerate 0 states) ∅ (group_loop_text _ _ _ Hloop))
    as (groups' & Hloop' & Hlk).
  rewrite Hloop in Hloop'. injection Hloop' as <-.
  specialize (Hlk key). rewrite Hrows, lookup_empty in Hlk.
  assert (Hs : StronglySorted (fun x y : Ref => x.1 < y.1)
                 (filter (fun r => bucket_key r = Some key) (enumerate 0 states)))
    by apply StronglySorted_filter, enumerate_sorted.
  destruct (filter _ _) as [|r found] eqn:E; [discriminate|].
  simpl in Hlk. injection Hlk as ->.
  split; [reflexivity|]. split; [assumption|]. now apply StronglySorted_lt_NoDup.
Qed.

(** C1 (as amended): once the grouping loop has returned, the sorting pass
    raises nothing and every bucket keeps exactly its records.  A bucket
    whose keys can all be compared ends up sorted by key, ties in order of
    position.  A bucket that holds two records whose keys cannot be compared
    has its whole sort abandoned with TypeError, which is dropped; only the
    records it holds are known of it then, not their order. *)
Theorem sort_failure_swallowed (states : list State)
    (groups : gmap string (list Ref)) :
  group_loop (enumerate 0 states) ∅ = Ok groups ->
  (exists index, sort_groups groups index)
  /\ forall index, sort_groups groups index ->
       forall key rows, groups !! key = Some rows ->
         exists rows',
           index !! key = Some rows'
           /\ rows' ≡ₚ rows
           /\ (uniform rows ->
               list_sort sort_key rows = Ok rows'
               /\ StronglySorted sorted_before rows')
           /\ (forall x y, x ∈ rows -> y ∈ rows ->
                 comparable (sort_key x) (sort_key y) = false ->
                 list_sort sort_key rows = Raise TypeError).
Proof.
  intros Hloop. split.
  - exists (sort_or_leave <$> groups). apply sort_groups_sort_or_leave.
  - intros index Hsort key rows Hrows.
    destruct (proj1 (sort_groups_lookup _ _ key Hsort) rows Hrows) as (rows' & Hrows' & Htry).
    exists rows'. split; [assumption|]. split; [now apply try_sort_perm|]. split.
    + intros Huni.
      destruct (grouped_bucket _ _ _ _ Hloop Hrows) as (_ & Hpos & _).
      destruct (list_sort_sorted rows Hpos Huni) as (r & Hr & _ & Hsorted).
      destruct Htry as [r' Hr'|e r' Hr' _]; [|congruence].
      assert (r' = r) as -> by congruence. auto.
    + intros x y. apply list_sort_mixed.
Qed.

Lemma sort_failure_swallowed_witness :
  exists rows',
    (sort_or_leave <$> {[ "WA" := enumerate 0 text_then_numbers ]} : gmap string (list Ref))
      !! "WA" = Some rows'
    /\ rows' ≡ₚ enumerate 0 text_then_numbers.
Proof.
  assert (Hloop : group_loop (enumerate 0 text_then_numbers) ∅
                  = Ok {[ "WA" := enumerate 0 text_then_numbers ]})
    by (vm_compute; reflexivity).
  destruct (proj2 (sort_failure_swallowed text_then_numbers _ Hloop)
              (sort_or_leave <$> {[ "WA" := enumerate 0 text_then_numbers ]})
              (sort_groups_sort_or_leave _)
              "WA" (enumerate 0 text_then_numbers))
    as (rows' & Hrows' & Hperm & _).
  - apply lookup_singleton_eq.
  - exists rows'. split; assumption.
Defined.

(** C1 as stated fails: in the bucket with dates "x", 5, 3 the first
    comparison, of 5 with "x", raises; nothing has been moved then, so the
    bucket stays as it was, with 5 before 3. *)
Lemma sort_failure_not_recovered :
  exists groups index rows rows',
    group_loop (enumerate 0 text_then_numbers) ∅ = Ok groups
    /\ sort_groups groups index
    /\ groups !! "WA" = Some rows
    /\ index !! "WA" = Some rows'
    /\ list_sort sort_key rows = Raise TypeError
    /\ ~ recovered_locally rows rows'.
Proof.
  exists {[ "WA" := enumerate 0 text_then_numbers ]},
         (sort_or_leave <$> {[ "WA" := enumerate 0 text_then_numbers ]}),
         (enumerate 0 text_then_numbers), (enumerate 0 text_then_numbers).
  split; [vm_compute; reflexivity|]. split; [apply sort_groups_sort_or_leave|].
  split; [apply lookup_singleton_eq|].
  split; [rewrite lookup_fmap, lookup_singleton_eq; vm_compute; reflexivity|].
  split; [vm_compute; reflexivity|].
  intros [_ Hsorted].
  apply (Hsorted (1, record (PyStr "WA") (PyInt 5)) (2, record (PyStr "WA") (PyInt 3))).
  - now exists [(0, record (PyStr "WA") (PyStr "x"))], [], [].
  - reflexivity.
Qed.

(** ** Zero, truth values and equality of sort values *)

Lemma Qcompare_zero_mult (q : Q) :
  (inject_Z 0 ?= inject_Z 0 * q)%Q = Eq /\ (inject_Z 0 * q ?= inject_Z 0)%Q = Eq.
Proof.
  split; apply Qeq_alt; [symmetry|]; apply Qmult_0_l.
Qed.

Lemma falsy_zero (v : Value) (x : xnum) :
  truthy v = false -> num_val v = Some x ->
  xnum_ltb x (Fin (inject_Z 0)) = false /\ xnum_ltb (Fin (inject_Z 0)) x = false.
Proof.
  destruct v as [|z|[neg|m e]|s]; simpl; try discriminate.
  - intros Hz%negb_false_iff%Z.eqb_eq [= <-]. subst z. split; reflexivity.
  - intros Hm%negb_false_iff%Z.eqb_eq [= <-]. subst m. unfold xnum_ltb.
    destruct (Qcompare_zero_mult (Qpower 2 e)) as [-> ->]. split; reflexivity.
Qed.

Lemma lt_zero_truthy (v : Value) :
  lt (PyInt 0) v = Ok true \/ lt v (PyInt 0) = Ok true -> truthy v = true.
Proof.
  intros H. destruct (truthy v) eqn:Ht; [reflexivity|exfalso].
  destruct v as [|z|f|s]; cbn [lt num_val] in H.
  - destruct H; discriminate.
  - destruct (falsy_zero (PyInt z) _ Ht eq_refl) as [H1 H2].
    cbn [num_val] in H1, H2. destruct H as [H%Ok_inj|H%Ok_inj]; congruence.
  - destruct (falsy_zero (PyFloat f) _ Ht eq_refl) as [H1 H2].
    destruct H as [H%Ok_inj|H%Ok_inj]; congruence.
  - destruct H; discriminate.
Qed.

Lemma string_ltb_irrefl (s : string) : String.ltb s s = false.
Proof. unfold String.ltb. now rewrite string_compare_refl. Qed.

(** Equal sort values give keys neither of which is below the other. *)
Lemma py_eq_not_lt (a b : Value) :
  py_eq a b = true ->
  lt (if truthy a then a else PyInt 0) (if truthy b then b else PyInt 0) <> Ok true.
Proof.
  intros Heq.
  assert (Hzero : lt (PyInt 0) (PyInt 0) <> Ok true) by discriminate.
  destruct a as [|z|f|s], b as [|z'|f'|s']; try discriminate Heq;
    try (simpl; exact Hzero).
  5:{ simpl in Heq. apply String.eqb_eq in Heq as <-.
      destruct (truthy (PyStr s)); [|exact Hzero].
      cbn [lt]. rewrite string_ltb_irrefl. discriminate. }
  all: cbn [py_eq num_val] in Heq;
    apply andb_true_iff in Heq as [Hxy%negb_true_iff Hyx%negb_true_iff].
  all: match goal with
       | |- lt (if truthy ?a then _ else _) (if truthy ?b then _ else _) <> _ =>
           destruct (truthy a) eqn:Ha, (truthy b) eqn:Hb;
           [ cbn [lt num_val]; rewrite Hxy; discriminate
           | destruct (falsy_zero b _ Hb eq_refl) as [H1 H2];
             cbn [lt num_val]; intros H%Ok_inj;
             pose proof (xnum_ltb_trans _ _ _ H H1); cbn [num_val] in *; congruence
           | destruct (falsy_zero a _ Ha eq_refl) as [H1 H2];
             cbn [lt num_val]; intros H%Ok_inj;
             pose proof (xnum_ltb_trans _ _ _ H Hxy); cbn [num_val] in *; congruence
           | exact Hzero ]
       end.
Qed.

(** ** The finished index *)

Lemma grouped_member (states : list State) (groups : gmap string (list Ref))
    (key : string) (r : Ref) :
  group_loop (enumerate 0 states) ∅ = Ok groups ->
  r ∈ enumerate 0 states -> bucket_key r = Some key ->
  exists rows, groups !! key = Some rows /\ r ∈ rows.
Proof.
  intros Hloop Hr Hkey.
  destruct (group_loop_buckets (enumerate 0 states) ∅ (group_loop_text _ _ _ Hloop))
    as (groups' & Hloop' & Hlk).
  rewrite Hloop in Hloop'. injection Hloop' as <-.
  specialize (Hlk key).
  assert (Hin : r ∈ filter (fun r => bucket_key r = Some key) (enumerate 0 states))
    by now apply list_elem_of_filter.
  destruct (filter _ _) as [|r' found] eqn:E; [now apply elem_of_nil in Hin|].
  rewrite lookup_empty in Hlk. eauto.
Qed.

Lemma bucket_members (states : list State) (index : gmap string (list Ref))
    (key : string) (rows' : list Ref) :
  build_index states index -> index !! key = Some rows' ->
  NoDup rows'
  /\ forall r, r ∈ rows' -> states !! r.1 = Some r.2 /\ bucket_key r = Some key.
Proof.
  intros (groups & Hloop & Hsort) Hrows'.
  destruct (proj2 (sort_groups_lookup _ _ key Hsort) rows' Hrows') as (rows & Hrows & Htry).
  apply try_sort_perm in Htry.
  destruct (grouped_bucket _ _ _ _ Hloop Hrows) as (Hfilter & _ & Hnd).
  split; [now rewrite Htry|].
  intros r Hr. rewrite Htry, Hfilter in Hr.
  apply list_elem_of_filter in Hr as [Hkey [_ Hlk]%enumerate_lookup].
  now rewrite Nat.sub_0_r in Hlk.
Qed.

Lemma bucket_sorted (states : list State) (index : gmap string (list Ref))
    (key : string) (rows' : list Ref) :
  build_index states index -> index !! key = Some rows' -> uniform rows' ->
  StronglySorted sorted_before rows'.
Proof.
  intros (groups & Hloop & Hsort) Hrows' Huni.
  destruct (proj2 (sort_groups_lookup _ _ key Hsort) rows' Hrows') as (rows & Hrows & Htry).
  pose proof (try_sort_perm _ _ Htry) as Hperm.
  destruct (grouped_bucket _ _ _ _ Hloop Hrows) as (_ & Hpos & _).
  destruct (list_sort_sorted rows Hpos) as (r & Hr & _ & Hsorted).
  - intros x y Hx Hy. apply Huni; now rewrite Hperm.
  - destruct Htry as [r' Hr'|e r' Hr' _]; congruence.
Qed.

(** The index of a list of records whose [state] is a string, None or
    absent: building it raises nothing; a record whose [state] is a string
    is in the bucket filed under the upper-cased string and in no other,
    once; a record without a [state] is in no bucket. *)
Lemma partition_of_text_states (states : list State) :
  Forall text_state states ->
  (exists index, build_index states index)
  /\ forall index, build_index states index ->
       (forall key rows', index !! key = Some rows' ->
          NoDup rows' /\ forall r, r ∈ rows' -> states !! r.1 = Some r.2)
       /\ forall n s, states !! n = Some s ->
            (forall code, getattr s "state" PyNone = PyStr code ->
               (exists rows', index !! Py.upper code = Some rows' /\ (n, s) ∈ rows')
               /\ (forall key rows', index !! key = Some rows' ->
                     (n, s) ∈ rows' -> key = Py.upper code))
            /\ (getattr s "state" PyNone = PyNone ->
                forall key rows', index !! key = Some rows' -> (n, s) ∉ rows').
Proof.
  intros Htext. split.
  - destruct (group_loop_buckets (enumerate 0 states) ∅) as (groups & Hloop & _).
    { apply Forall_forall. intros r [_ Hr]%enumerate_lookup.
      rewrite Forall_forall in Htext. apply Htext.
      eapply list_elem_of_lookup_2; eassumption. }
    exists (sort_or_leave <$> groups), groups.
    split; [assumption|apply sort_groups_sort_or_leave].
  - intros index Hbuild. split.
    + intros key rows' Hrows'.
      destruct (bucket_members _ _ _ _ Hbuild Hrows') as [Hnd Hmem].
      split; [assumption|]. intros r Hr. now apply Hmem.
    + intros n s Hn.
      assert (Hin : (n, s) ∈ enumerate 0 states).
      { apply enumerate_lookup. simpl. rewrite Nat.sub_0_r. split; [lia|assumption]. }
      split.
      * intros code Hcode.
        assert (Hkey : bucket_key (n, s) = Some (Py.upper code))
          by (unfold bucket_key; simpl; now rewrite Hcode).
        split.
        -- destruct Hbuild as (groups & Hloop & Hsort).
           destruct (grouped_member _ _ _ _ Hloop Hin Hkey) as (rows & Hrows & Hmem).
           destruct (proj1 (sort_groups_lookup _ _ _ Hsort) rows Hrows)
             as (rows' & Hrows' & Htry).
           exists rows'. split; [assumption|].
           now rewrite (try_sort_perm _ _ Htry).
        -- intros key rows' Hrows' Hmem.
           destruct (bucket_members _ _ _ _ Hbuild Hrows') as [_ Hall].
           destruct (Hall _ Hmem) as [_ Hkey']. congruence.
      * intros Hnone key rows' Hrows' Hmem.
        destruct (bucket_members _ _ _ _ Hbuild Hrows') as [_ Hall].
        destruct (Hall _ Hmem) as [_ Hkey'].
        unfold bucket_key in Hkey'. simpl in Hkey'. now rewrite Hnone in Hkey'.
Qed.

(** C3 (as amended): a record without a sort value gets the key 0.  In a
    bucket whose keys can all be compared, it stands before every record
    whose sort value is above 0 and after every record whose sort value is
    below 0. *)
Theorem null_sorts_as_zero (states : list State) (index : gmap string (list Ref))
    (key : string) (rows' : list Ref) (x y : Ref) :
  build_index states index ->
  index !! key = Some rows' ->
  uniform rows' ->
  x ∈ rows' -> y ∈ rows' ->
  getattr x.2 "date" PyNone = PyNone ->
  sort_key x = PyInt 0
  /\ (lt (PyInt 0) (getattr y.2 "date" PyNone) = Ok true -> precedes x y rows')
  /\ (lt (getattr y.2 "date" PyNone) (PyInt 0) = Ok true -> precedes y x rows').
Proof.
  intros Hbuild Hrows' Huni Hx Hy Hnull.
  pose proof (bucket_sorted _ _ _ _ Hbuild Hrows' Huni) as Hsorted.
  assert (Hkx : sort_key x = PyInt 0) by (unfold sort_key; now rewrite Hnull).
  assert (Hky : forall H : lt (PyInt 0) (getattr y.2 "date" PyNone) = Ok true
                           \/ lt (getattr y.2 "date" PyNone) (PyInt 0) = Ok true,
             sort_key y = getattr y.2 "date" PyNone /\ x <> y).
  { intros H. split.
    - unfold sort_key. now rewrite (lt_zero_truthy _ H).
    - intros ->. rewrite Hnull in H. destruct H; discriminate. }
  split; [assumption|]. split.
  - intros Hpos. destruct (Hky (or_introl Hpos)) as [Hk Hne].
    destruct (precedes_total rows' x y Hx Hy Hne) as [H|H]; [assumption|exfalso].
    apply (precedes_sorted _ _ _ _ Hsorted) in H.
    unfold sorted_before, tie in H. rewrite Hkx, Hk in H.
    destruct H as [H|[[_ H] _]]; [|congruence].
    apply lt_asym in Hpos. congruence.
  - intros Hneg. destruct (Hky (or_intror Hneg)) as [Hk Hne].
    destruct (precedes_total rows' x y Hx Hy Hne) as [H|H]; [exfalso|assumption].
    apply (precedes_sorted _ _ _ _ Hsorted) in H.
    unfold sorted_before, tie in H. rewrite Hkx, Hk in H.
    destruct H as [H|[[_ H] _]]; [|congruence].
    apply lt_asym in Hneg. congruence.
Qed.

(** A sort that completes is stable: in a bucket whose keys can all be
    compared, two records with equal sort values stand in the order of
    their positions in the loaded list.  Of a bucket whose sort is
    abandoned nothing of the kind is known: the order an interrupted
    [list.sort] leaves is not fixed by the program nor by Python. *)
Lemma completed_sort_stable (states : list State)
    (index : gmap string (list Ref)) (key : string) (rows' : list Ref)
    (x y : Ref) :
  build_index states index ->
  index !! key = Some rows' ->
  uniform rows' ->
  precedes x y rows' ->
  py_eq (getattr x.2 "date" PyNone) (getattr y.2 "date" PyNone) = true ->
  states !! x.1 = Some x.2 /\ states !! y.1 = Some y.2 /\ x.1 < y.1.
Proof.
  intros Hbuild Hrows' Huni Hprec Heq.
  destruct (bucket_members _ _ _ _ Hbuild Hrows') as [_ Hmem].
  destruct (precedes_elem_of _ _ _ Hprec) as [Hx Hy].
  split; [apply Hmem, Hx|]. split; [apply Hmem, Hy|].
  pose proof (bucket_sorted _ _ _ _ Hbuild Hrows' Huni) as Hsorted.
  destruct (precedes_sorted _ _ _ _ Hsorted Hprec) as [Hlt|[_ Hpos]]; [|assumption].
  exfalso. revert Hlt. apply py_eq_not_lt. assumption.
Qed.

Lemma uniform_check (rows : list Ref) :
  forallb (fun x => forallb (fun y => comparable (sort_key x) (sort_key y)) rows) rows
  = true ->
  uniform rows.
Proof.
  intros H x y Hx Hy. rewrite forallb_forall in H.
  apply list_elem_of_In in Hx, Hy. specialize (H x Hx).
  rewrite forallb_forall in H. now apply H.
Qed.

Lemma build_index_sort_or_leave (states : list State) (groups : gmap string (list Ref)) :
  group_loop (enumerate 0 states) ∅ = Ok groups ->
  build_index states (sort_or_leave <$> groups).
Proof. intros Hloop. exists groups. split; [assumption|apply sort_groups_sort_or_leave]. Qed.

Lemma null_sorts_as_zero_witness :
  precedes (0, record (PyStr "WA") (PyInt (-5))) (1, record (PyStr "WA") PyNone)
    [(0, record (PyStr "WA") (PyInt (-5))); (1, record (PyStr "WA") PyNone)].
Proof.
  refine (proj2 (proj2
    (null_sorts_as_zero negative_then_null
       (sort_or_leave <$> {[ "WA" := enumerate 0 negative_then_null ]}) "WA"
       [(0, record (PyStr "WA") (PyInt (-5))); (1, record (PyStr "WA") PyNone)]
       (1, record (PyStr "WA") PyNone) (0, record (PyStr "WA") (PyInt (-5)))
       _ _ _ _ _ _)) _).
  - apply build_index_sort_or_leave. vm_compute. reflexivity.
  - rewrite lookup_fmap, lookup_singleton_eq. vm_compute. reflexivity.
  - apply uniform_check. vm_compute. reflexivity.
  - rewrite !elem_of_cons. right. left. reflexivity.
  - rewrite !elem_of_cons. left. reflexivity.
  - vm_compute. reflexivity.
  - vm_compute. reflexivity.
Defined.

(** C3 as stated fails: None sorts as 0, so the record dated -5 stays
    before the record without a date. *)
Lemma null_after_negative :
  (exists index, build_index negative_then_null index)
  /\ forall index, build_index negative_then_null index -> ~ nulls_first index.
Proof.
  assert (Hloop : group_loop (enumerate 0 negative_then_null) ∅
                  = Ok {[ "WA" := enumerate 0 negative_then_null ]})
    by (vm_compute; reflexivity).
  split; [eexists; apply (build_index_sort_or_leave _ _ Hloop)|].
  intros index (groups & Hloop' & Hsort) Hclaim.
  rewrite Hloop in Hloop'. injection Hloop' as <-.
  destruct (proj1 (sort_groups_lookup _ _ "WA" Hsort) (enumerate 0 negative_then_null))
    as (rows' & Hrows' & Htry); [apply lookup_singleton_eq|].
  assert (Hsorted : list_sort sort_key (enumerate 0 negative_then_null)
                    = Ok (enumerate 0 negative_then_null))
    by (vm_compute; reflexivity).
  destruct Htry as [r Hr|e r Hr _]; [|congruence].
  assert (r = enumerate 0 negative_then_null) as -> by congruence.
  assert (Hprec : precedes (1, record (PyStr "WA") PyNone)
                    (0, record (PyStr "WA") (PyInt (-5)))
                    (enumerate 0 negative_then_null)).
  { apply (Hclaim "WA" _ _ _ Hrows').
    - simpl. rewrite !elem_of_cons. right. left. reflexivity.
    - simpl. rewrite !elem_of_cons. left. reflexivity.
    - vm_compute. reflexivity.
    - vm_compute. discriminate. }
  apply (precedes_sorted _ _ _ _ (enumerate_sorted negative_then_null 0)) in Hprec.
  simpl in Hprec. lia.
Qed.

(** ** The records that the loader returns *)

Lemma lstrip_head (s : string) :
  Py.lstrip s = EmptyString
  \/ exists c t, Py.lstrip s = String c t /\ Py.isspace c = false.
Proof.
  induction s as [|c s IH]; simpl; [now left|].
  destruct (Py.isspace c) eqn:E; [assumption|]. right. eauto.
Qed.

Lemma rstrip_head (p : ascii -> bool) (c : ascii) (t : string) :
  Py.rstrip p (String c t) = EmptyString
  \/ exists t', Py.rstrip p (String c t) = String c t'.
Proof.
  simpl. destruct (Py.rstrip p t); [|right; eauto].
  destruct (p c); [now left|right; eauto].
Qed.

Lemma rstrip_idem (p : ascii -> bool) (s : string) :
  Py.rstrip p (Py.rstrip p s) = Py.rstrip p s.
Proof.
  induction s as [|c s IH]; simpl; [reflexivity|].
  destruct (Py.rstrip p s) as [|d r] eqn:E.
  - destruct (p c) eqn:Hc; simpl; [reflexivity|]. now rewrite Hc.
  - change (Py.rstrip p (String c (String d r))) with
      (match Py.rstrip p (String d r) with
       | EmptyString => if p c then EmptyString else String c EmptyString
       | r' => String c r'
       end).
    now rewrite IH.
Qed.

Lemma strip_idem (s : string) : Py.strip (Py.strip s) = Py.strip s.
Proof.
  unfold Py.strip.
  destruct (lstrip_head s) as [->|(c & t & -> & Hc)]; [reflexivity|].
  destruct (rstrip_head Py.isspace c t) as [->|[t' Ht']]; [reflexivity|].
  rewrite Ht'. simpl Py.lstrip. rewrite Hc. rewrite <- Ht'. apply rstrip_idem.
Qed.

Lemma exempt_gives_text (float : string -> option pyfloat) (v k : string) :
  Py.lower k ∈ State.exempt ->
  State._convert float v k = PyNone \/ exists code, State._convert float v k = PyStr code.
Proof.
  intros Hk. unfold State._convert.
  destruct (String.eqb _ _); [now left|].
  rewrite bool_decide_eq_true_2 by assumption. right. eauto.
Qed.

Lemma init_loop_text (float : string -> option pyfloat)
    (pairs : list (string * string)) (self st : State) :
  Forall (fun kv : string * string => Py.strip kv.1 = kv.1) pairs ->
  text_state self ->
  State.init_loop float pairs self = Ok st ->
  text_state st.
Proof.
  revert self. induction pairs as [|[k v] pairs IH]; intros self Hs Ht; simpl.
  - now intros [= <-].
  - apply Forall_cons in Hs as [Hk Hs]. simpl in Hk.
    unfold State.call_convert, State.setattr.
    repeat (match goal with |- context [if ?b then _ else _] => destruct b end;
            simpl; try discriminate).
    apply IH; [assumption|].
    unfold text_state, getattr in *.
    destruct (decide (Py.strip k = "state")) as [E|E].
    + rewrite E, lookup_insert_eq. apply exempt_gives_text.
      rewrite <- Hk, E. apply (bool_decide_eq_true_1 (_ ∈ _)). vm_compute. reflexivity.
    + now rewrite lookup_insert_ne.
Qed.

Lemma rows_loop_text (float : string -> option pyfloat)
    (header lines : list string) (acc states : list State) :
  Forall (fun k => Py.strip k = k) header ->
  Forall text_state acc ->
  rows_loop float header lines acc = Ok states ->
  Forall text_state states.
Proof.
  intros Hh. revert acc. induction lines as [|line lines IH]; intros acc Hacc; simpl.
  - now intros [= <-].
  - destruct (String.eqb _ _); [now apply IH|].
    destruct (parse_csv_line _) as [row| |]; simpl; try discriminate.
    destruct (State.__init__ float header row) as [st| |] eqn:Hinit; simpl;
      try discriminate.
    apply IH. apply Forall_app. split; [assumption|].
    constructor; [|constructor].
    unfold State.__init__ in Hinit.
    eapply init_loop_text; [| |exact Hinit].
    + apply Forall_forall. intros [k v] Hin. simpl.
      apply list_elem_of_lookup in Hin as [n Hn].
      apply lookup_zip_with_Some in Hn as (k' & v' & E & Hk & _).
      injection E as -> ->. rewrite Forall_forall in Hh. apply Hh.
      eapply list_elem_of_lookup_2; eassumption.
    + left. reflexivity.
Qed.

(** Every record that [load_states_no_imports] returns has a [state] that
    is a string, None or absent: [state] is an exempt field name. *)
Lemma load_text_state (float : string -> option pyfloat)
    (fs : string -> result string) (path : string) (states : list State) :
  load_states_no_imports float fs path = Ok states ->
  Forall text_state states.
Proof.
  unfold load_states_no_imports.
  destruct (fs path) as [text| |]; simpl; try discriminate.
  destruct (file_lines text []) as [|first lines]; [now intros [= <-]|].
  destruct (parse_csv_line _) as [header| |]; simpl; try discriminate.
  apply rows_loop_text; [|constructor].
  apply Forall_forall. intros k [h [-> _]]%list_elem_of_fmap. apply strip_idem.
Qed.

(** ** The index of a loaded store *)

(** C2: for every list of records that the loader returns, building the
    index raises nothing.  The [state] of a loaded record is a string, or
    it is None or absent: there is no other value to be rendered as a
    string.  A record whose [state] is not None is in exactly one bucket,
    once: the bucket filed under the upper-cased [state].  A record whose
    [state] is None or absent is in no bucket. *)
Theorem index_partition (float : string -> option pyfloat)
    (fs : string -> result string) (path : string) (states : list State) :
  load_states_no_imports float fs path = Ok states ->
  (exists index, build_index states index)
  /\ (forall e, group_loop (enumerate 0 states) ∅ <> Raise e)
  /\ forall index, build_index states index ->
       (forall key rows', index !! key = Some rows' ->
          NoDup rows' /\ forall r, r ∈ rows' -> states !! r.1 = Some r.2)
       /\ forall n s, states !! n = Some s ->
            (getattr s "state" PyNone <> PyNone ->
               exists code,
                 getattr s "state" PyNone = PyStr code
                 /\ (exists rows', index !! Py.upper code = Some rows'
                                   /\ (n, s) ∈ rows')
                 /\ (forall key rows', index !! key = Some rows' ->
                        (n, s) ∈ rows' -> key = Py.upper code))
            /\ (getattr s "state" PyNone = PyNone ->
                forall key rows', index !! key = Some rows' -> (n, s) ∉ rows').
Proof.
  intros Hload. pose proof (load_text_state _ _ _ _ Hload) as Htext.
  destruct (partition_of_text_states states Htext) as [Hex Hall].
  split; [exact Hex|]. split.
  - intros e He. destruct Hex as (index & groups & Hloop & _). congruence.
  - intros index Hbuild. destruct (Hall index Hbuild) as [Hmem Hplace].
    split; [exact Hmem|]. intros n s Hn.
    destruct (Hplace n s Hn) as [Hstr Hnone]. split; [|exact Hnone].
    intros Hstate. rewrite Forall_forall in Htext.
    destruct (Htext s (list_elem_of_lookup_2 _ _ _ Hn)) as [E|[code E]];
      [contradiction|].
    exists code. split; [exact E|]. exact (Hstr code E).
Qed.

Lemma index_partition_witness :
  exists index rows',
    build_index [record (PyStr "wa") (PyInt 1); record PyNone (PyInt 2)] index
    /\ index !! "WA" = Some rows'
    /\ (0, record (PyStr "wa") (PyInt 1)) ∈ rows'.
Proof.
  destruct (index_partition (fun _ => None)
              (fun _ => Ok ("state,date" +:+ String LF ("wa,1" +:+ String LF ",2")))
              "data.csv"
              [record (PyStr "wa") (PyInt 1); record PyNone (PyInt 2)])
    as ([index Hbuild] & _ & Hall).
  - vm_compute. reflexivity.
  - destruct (Hall index Hbuild) as [_ Hplace].
    destruct (Hplace 0 (record (PyStr "wa") (PyInt 1)) eq_refl) as [Hstr _].
    destruct Hstr as (code & Hcode & (rows' & Hrows' & Hmem) & _);
      [vm_compute; discriminate|].
    assert (E : code = "wa") by (vm_compute in Hcode; congruence).
    subst code.
    exists index, rows'. split; [assumption|]. split; assumption.
Defined.

(** * Further properties *)

(** ** The line parser *)

Lemma parse_csv_line_fields_of (line : string) :
  parse_csv_line line = Ok (fields_of line).
Proof. unfold parse_csv_line. rewrite scan_line_scan_rest. reflexivity. Qed.

Lemma append_cons (x : ascii) (a b : string) : String x a +:+ b = String x (a +:+ b).
Proof. reflexivity. Qed.

Lemma append_nil_l (b : string) : EmptyString +:+ b = b.
Proof. reflexivity. Qed.

Lemma append_assoc (a b c : string) : (a +:+ b) +:+ c = a +:+ (b +:+ c).
Proof.
  induction a as [|x a IH]; [reflexivity|]. rewrite !append_cons. now f_equal.
Qed.

Lemma append_empty_r (a : string) : a +:+ EmptyString = a.
Proof. induction a as [|x a IH]; [reflexivity|]. rewrite append_cons. now f_equal. Qed.

Lemma join_app (c d : list ascii) : join (c ++ d) = join c +:+ join d.
Proof.
  unfold join. induction c as [|x c IH]; simpl; [reflexivity|].
  rewrite append_cons. now f_equal.
Qed.

Lemma join_snoc (c : list ascii) (ch : ascii) :
  join (c ++ [ch]) = join c +:+ String ch EmptyString.
Proof. apply join_app. Qed.

Lemma closed_fields_snoc (f : list string) (x : string) :
  closed_fields (f ++ [x]) = closed_fields f +:+ (x +:+ String comma EmptyString).
Proof.
  induction f as [|y f IH]; simpl.
  - now rewrite append_nil_l.
  - rewrite IH, append_assoc, append_cons. reflexivity.
Qed.

Lemma join_commas_snoc (f : list string) (x : string) :
  join_commas (f ++ [x]) = closed_fields f +:+ x.
Proof.
  induction f as [|y f IH]; simpl; [reflexivity|].
  destruct (f ++ [x]) eqn:E.
  - now destruct f.
  - rewrite IH, append_assoc, append_cons. reflexivity.
Qed.

Lemma remove_char_append (ch : ascii) (a b : string) :
  Py.remove_char ch (a +:+ b) = Py.remove_char ch a +:+ Py.remove_char ch b.
Proof.
  induction a as [|x a IH]; [reflexivity|].
  rewrite append_cons. simpl.
  destruct (Ascii.eqb x ch); rewrite IH; reflexivity.
Qed.

(** What the scan has read so far, as text. *)
Lemma scan_rest_keeps_text (rest : list ascii) (f : list string) (c : list ascii) (q : bool) :
  Py.remove_char dquote
    (closed_fields (scan_rest rest f c q).1.1 +:+ join (scan_rest rest f c q).1.2)
  = Py.remove_char dquote (closed_fields f +:+ join c)
    +:+ Py.remove_char dquote (join rest).
Proof.
  remember (length rest) as n eqn:Hn. revert rest f c q Hn.
  induction n as [n IH] using lt_wf_ind. intros rest f c q Hn.
  destruct rest as [|ch rest]; [simpl; now rewrite append_empty_r|].
  assert (Hstep : forall f' c' q',
             Py.remove_char dquote (closed_fields f' +:+ join c')
             = Py.remove_char dquote (closed_fields f +:+ join c)
               +:+ Py.remove_char dquote (String ch EmptyString) ->
             Py.remove_char dquote
               (closed_fields (scan_rest rest f' c' q').1.1
                +:+ join (scan_rest rest f' c' q').1.2)
             = Py.remove_char dquote (closed_fields f +:+ join c)
               +:+ Py.remove_char dquote (join (ch :: rest))).
  { intros f' c' q' H. rewrite (IH (length rest)); [|simpl in Hn; lia|reflexivity].
    rewrite H, append_assoc. f_equal.
    change (join (ch :: rest)) with (String ch EmptyString +:+ join rest).
    now rewrite remove_char_append. }
  assert (Hquote : Ascii.eqb ch dquote = true ->
             Py.remove_char dquote (String ch EmptyString) = EmptyString).
  { intros E. simpl. now rewrite E. }
  assert (Hother : Ascii.eqb ch dquote = false ->
             Py.remove_char dquote (String ch EmptyString) = String ch EmptyString).
  { intros E. simpl. now rewrite E. }
  cbn [scan_rest]. destruct q.
  - destruct (Ascii.eqb ch dquote) eqn:Ed.
    + destruct rest as [|nxt rest'].
      * apply (Hstep f c false). now rewrite Hquote, append_empty_r.
      * destruct (Ascii.eqb nxt dquote) eqn:Ed'.
        -- rewrite (IH (length rest')); [|simpl in Hn; lia|reflexivity].
           apply Ascii.eqb_eq in Ed, Ed'. subst ch nxt.
           rewrite join_snoc, <- append_assoc, remove_char_append.
           rewrite append_assoc. f_equal.
        -- apply (Hstep f c false). now rewrite Hquote, append_empty_r.
    + apply (Hstep f (c ++ [ch]) true).
      now rewrite join_snoc, <- append_assoc, remove_char_append.
  - destruct (Ascii.eqb ch comma) eqn:Ec.
    + apply (Hstep (f ++ [join c]) [] false).
      apply Ascii.eqb_eq in Ec. subst ch.
      rewrite closed_fields_snoc. change (join []) with EmptyString.
      rewrite append_empty_r, <- append_assoc. apply remove_char_append.
    + destruct (Ascii.eqb ch dquote) eqn:Ed.
      * apply (Hstep f c true). now rewrite Hquote, append_empty_r.
      * apply (Hstep f (c ++ [ch]) false).
        now rewrite join_snoc, <- append_assoc, remove_char_append.
Qed.

(** X1: parsing loses nothing but quote characters: the fields, joined
    by commas, and the line are the same text once the quote characters are
    taken out of both. *)
Theorem parse_keeps_text (line : string) :
  exists fields,
    parse_csv_line line = Ok fields
    /\ Py.remove_char dquote (join_commas fields) = Py.remove_char dquote line.
Proof.
  exists (fields_of line). split; [apply parse_csv_line_fields_of|].
  unfold fields_of. cbv zeta. rewrite join_commas_snoc.
  rewrite (scan_rest_keeps_text (list_ascii_of_string line) [] [] false).
  unfold join. now rewrite string_of_list_ascii_of_string.
Qed.

Lemma contains_join_snoc (x : ascii) (c : list ascii) (ch : ascii) :
  Py.contains x (join (c ++ [ch])) = Py.contains x (join c) || Ascii.eqb ch x.
Proof.
  unfold join. induction c as [|y c IH]; simpl.
  - now rewrite orb_false_r.
  - rewrite IH. now rewrite orb_assoc.
Qed.

Lemma scan_rest_plain (rest : list ascii) (f : list string) (c : list ascii) :
  dquote ∉ rest ->
  (scan_rest rest f c false).2 = false
  /\ closed_fields (scan_rest rest f c false).1.1 +:+ join (scan_rest rest f c false).1.2
     = (closed_fields f +:+ join c) +:+ join rest
  /\ length (scan_rest rest f c false).1.1 = length f + count_char comma (join rest)
  /\ (Forall plain f -> plain (join c) ->
      Forall plain (scan_rest rest f c false).1.1
      /\ plain (join (scan_rest rest f c false).1.2)).
Proof.
  revert f c. induction rest as [|ch rest IH]; intros f c Hq.
  - cbn [scan_rest fst snd]. change (join []) with EmptyString.
    rewrite append_empty_r. split; [reflexivity|]. split; [reflexivity|].
    split; [simpl; lia|auto].
  - apply not_elem_of_cons in Hq as [Hne Hq]. cbn [scan_rest].
    change (join (ch :: rest)) with (String ch EmptyString +:+ join rest).
    destruct (Ascii.eqb ch comma) eqn:Ec.
    + destruct (IH (f ++ [join c]) [] Hq) as (H1 & H2 & H3 & H4).
      apply Ascii.eqb_eq in Ec. subst ch.
      split; [assumption|]. split; [|split].
      * rewrite H2, closed_fields_snoc. change (join []) with EmptyString.
        rewrite append_empty_r, !append_assoc. reflexivity.
      * rewrite H3, length_app, append_cons, append_nil_l. simpl. lia.
      * intros Hf Hc. apply H4; [|split; reflexivity].
        apply Forall_app. split; [assumption|]. now constructor.
    + destruct (Ascii.eqb_spec ch dquote) as [->|_]; [congruence|].
      destruct (IH f (c ++ [ch]) Hq) as (H1 & H2 & H3 & H4).
      split; [assumption|]. split; [|split].
      * rewrite H2, join_snoc, !append_assoc. reflexivity.
      * rewrite H3. rewrite append_cons, append_nil_l. simpl. now rewrite Ec.
      * intros Hf [Hc1 Hc2]. apply H4; [assumption|].
        split; rewrite contains_join_snoc.
        -- now rewrite Hc1, Ec.
        -- rewrite Hc2. simpl. now apply Ascii.eqb_neq.
Qed.

(** X2: a line without quote characters is cut at its commas and nowhere
    else: there is one field more than there are commas, no field holds a
    comma, and the fields joined by commas are the line again. *)
Theorem parse_plain_line (line : string) :
  Py.contains dquote line = false ->
  exists fields,
    parse_csv_line line = Ok fields
    /\ join_commas fields = line
    /\ length fields = S (count_char comma line)
    /\ Forall plain fields.
Proof.
  intros Hq. apply contains_false in Hq.
  exists (fields_of line). split; [apply parse_csv_line_fields_of|].
  destruct (scan_rest_plain (list_ascii_of_string line) [] [] Hq) as (_ & H2 & H3 & H4).
  unfold fields_of. cbv zeta. split; [|split].
  - rewrite join_commas_snoc, H2. unfold join.
    now rewrite string_of_list_ascii_of_string.
  - rewrite length_app, H3. unfold join at 1.
    rewrite string_of_list_ascii_of_string. simpl. lia.
  - destruct H4 as [Hf Hc]; [constructor|split; reflexivity|].
    apply Forall_app. split; [assumption|]. now constructor.
Qed.

Lemma parse_plain_line_witness :
  exists fields,
    parse_csv_line "WA,20200301,,5" = Ok fields
    /\ join_commas fields = "WA,20200301,,5"
    /\ length fields = 4
    /\ Forall plain fields.
Proof. exact (parse_plain_line "WA,20200301,,5" eq_refl). Defined.

Lemma scan_rest_bare (s rest : list ascii) (f : list string) (c : list ascii) :
  comma ∉ s -> dquote ∉ s ->
  scan_rest (s ++ rest) f c false = scan_rest rest f (c ++ s) false.
Proof.
  revert c. induction s as [|ch s IH]; intros c Hc Hq; simpl app.
  - now rewrite app_nil_r.
  - apply not_elem_of_cons in Hc as [Hnc Hc]. apply not_elem_of_cons in Hq as [Hnq Hq].
    cbn [scan_rest].
    destruct (Ascii.eqb_spec ch comma) as [->|_]; [congruence|].
    destruct (Ascii.eqb_spec ch dquote) as [->|_]; [congruence|].
    rewrite IH by assumption. now rewrite <- app_assoc.
Qed.

Lemma scan_rest_in_quotes (s : string) (rest : list ascii) (f : list string)
    (c : list ascii) :
  head rest <> Some dquote ->
  scan_rest (list_ascii_of_string (double_quotes s) ++ dquote :: rest) f c true
  = scan_rest rest f (c ++ list_ascii_of_string s) false.
Proof.
  intros Hrest. revert c. induction s as [|ch s IH]; intros c.
  - cbn [double_quotes list_ascii_of_string app scan_rest].
    rewrite app_nil_r, Ascii.eqb_refl.
    destruct rest as [|nxt rest']; [reflexivity|].
    destruct (Ascii.eqb_spec nxt dquote) as [->|_]; [now destruct Hrest|reflexivity].
  - cbn [double_quotes]. destruct (Ascii.eqb ch dquote) eqn:Ed.
    + apply Ascii.eqb_eq in Ed. subst ch.
      cbn [list_ascii_of_string app scan_rest]. rewrite Ascii.eqb_refl.
      rewrite IH. cbn [list_ascii_of_string]. now rewrite <- app_assoc.
    + cbn [list_ascii_of_string app scan_rest]. rewrite Ed.
      rewrite IH. cbn [list_ascii_of_string]. now rewrite <- app_assoc.
Qed.

Lemma scan_rest_written (cell : bool * string) (rest : list ascii) (f : list string) :
  writable cell ->
  head rest <> Some dquote ->
  scan_rest (list_ascii_of_string (written cell.1 cell.2) ++ rest) f [] false
  = scan_rest rest f (list_ascii_of_string cell.2) false.
Proof.
  destruct cell as [[|] s]; unfold writable, written; simpl fst; simpl snd; intros Hw Hrest.
  - cbn [list_ascii_of_string app]. rewrite chars_append.
    cbn [list_ascii_of_string]. rewrite <- app_assoc. cbn [app scan_rest].
    assert (E : Ascii.eqb dquote comma = false) by reflexivity.
    rewrite E, Ascii.eqb_refl. now rewrite scan_rest_in_quotes.
  - destruct Hw as [Hc Hq]; [reflexivity|].
    apply contains_false in Hc, Hq. now rewrite scan_rest_bare.
Qed.

Lemma scan_rest_cells (cells : list (bool * string)) (cell : bool * string)
    (f : list string) :
  Forall writable (cell :: cells) ->
  (scan_rest
     (list_ascii_of_string
        (join_commas (map (fun qs => written qs.1 qs.2) (cell :: cells)))) f [] false).1.1
  ++ [join (scan_rest
     (list_ascii_of_string
        (join_commas (map (fun qs => written qs.1 qs.2) (cell :: cells)))) f [] false).1.2]
  = f ++ map snd (cell :: cells).
Proof.
  revert cell f. induction cells as [|next cells IH]; intros cell f Hw.
  - apply Forall_cons in Hw as [Hw _]. cbn [map join_commas].
    rewrite <- (app_nil_r (list_ascii_of_string _)).
    rewrite scan_rest_written by (assumption || discriminate).
    cbn [scan_rest fst snd]. unfold join. now rewrite string_of_list_ascii_of_string.
  - apply Forall_cons in Hw as [Hw Hws].
    change (join_commas (map (fun qs => written qs.1 qs.2) (cell :: next :: cells)))
      with (written cell.1 cell.2
            +:+ String comma
                  (join_commas (map (fun qs => written qs.1 qs.2) (next :: cells)))).
    rewrite chars_append, scan_rest_written by (assumption || discriminate).
    cbn [list_ascii_of_string scan_rest].
    assert (E : Ascii.eqb comma comma = true) by reflexivity. rewrite E.
    rewrite IH by assumption.
    unfold join. rewrite string_of_list_ascii_of_string.
    cbn [map]. now rewrite <- app_assoc.
Qed.

(** X3: a line written field by field is read back field by field: when
    every field is put between quotes with its quotes doubled, or left bare
    if it holds no comma and no quote, and the fields are joined by commas,
    parsing the line returns the fields. *)
Theorem parse_written_line (cells : list (bool * string)) :
  cells <> [] ->
  Forall writable cells ->
  parse_csv_line (join_commas (map (fun qs => written qs.1 qs.2) cells))
  = Ok (map snd cells).
Proof.
  intros Hne Hw. rewrite parse_csv_line_fields_of. f_equal.
  destruct cells as [|cell cells]; [congruence|].
  unfold fields_of. cbv zeta. now rewrite scan_rest_cells.
Qed.

Lemma parse_written_line_witness :
  parse_csv_line
    (join_commas
       [written true ("He said " +:+ String dquote "hi" +:+ String dquote EmptyString);
        written false "x"; written true "a,b"])
  = Ok ["He said " +:+ String dquote "hi" +:+ String dquote EmptyString; "x"; "a,b"].
Proof.
  refine (parse_written_line
            [(true, "He said " +:+ String dquote "hi" +:+ String dquote EmptyString);
             (false, "x"); (true, "a,b")] _ _).
  - discriminate.
  - repeat (apply Forall_cons; split); try apply Forall_nil_2;
      intros H; try discriminate H; split; reflexivity.
Defined.

(** ** Value inference *)

Lemma isdigit_not_space (c : ascii) : Py.isdigit_char c = true -> Py.isspace c = false.
Proof.
  unfold Py.isdigit_char, Py.isspace, Py.in_range.
  rewrite !orb_true_iff, !andb_true_iff, !N.leb_le, !N.eqb_eq.
  intros H.
  repeat (apply orb_false_iff; split);
    try apply andb_false_iff; rewrite ?N.leb_gt, ?N.eqb_neq; lia.
Qed.

Lemma all_digits_not_space (s : string) (c : ascii) :
  Py.all_digits s = true -> c ∈ list_ascii_of_string s -> Py.isspace c = false.
Proof.
  induction s as [|d s IH]; simpl; intros H Hin; [now apply elem_of_nil in Hin|].
  apply andb_true_iff in H as [Hd Hs].
  apply elem_of_cons in Hin as [->|Hin]; [now apply isdigit_not_space|auto].
Qed.

Lemma int_digits_sound (s : string) (acc z : Z) (sep : bool) :
  Py.all_digits s = true ->
  Py.int_digits acc sep s = Some z ->
  all_decimal s = true /\ z = decimal_value acc s.
Proof.
  revert acc sep. induction s as [|c s IH]; simpl; intros acc sep Hd Hi.
  - destruct sep; [|discriminate]. injection Hi as <-. auto.
  - apply andb_true_iff in Hd as [Hc Hs]. unfold is_decimal.
    destruct (Py.in_range 48 57 c) eqn:Er.
    + destruct (IH _ _ Hs Hi) as [-> ->]. auto.
    + destruct (Ascii.eqb_spec c "_") as [->|_]; [discriminate Hc|discriminate Hi].
Qed.

Lemma isdigit_all_digits (s : string) :
  Py.isdigit s = true -> Py.all_digits s = true /\ exists c ds, s = String c ds.
Proof. destruct s as [|c ds]; [discriminate|]. intros H. split; [exact H|eauto]. Qed.

Lemma int_limited_sound (ds : string) (z : Z) :
  Py.all_digits ds = true ->
  Py.int_limited ds = Some z ->
  all_decimal ds = true /\ z = decimal_value 0 ds
  /\ (Py.digit_count ds <= Py.max_str_digits)%N.
Proof.
  unfold Py.int_limited. intros Hall.
  destruct (N.ltb_spec Py.max_str_digits (Py.digit_count ds)) as [Hlt|Hle];
    [discriminate|].
  intros Hi. destruct (int_digits_sound _ _ _ _ Hall Hi) as [Hdec ->]. auto.
Qed.

(** What [int] accepts after [_looks_like_int] is a signed run of decimal
    digits, no more of them than the limit, and the value is the number it
    writes. *)
Lemma looks_like_int_sound (s : string) (z : Z) :
  State._looks_like_int s = true -> Py.int s = Some z ->
  signed_decimal s z /\ (Py.digit_count s <= Py.max_str_digits)%N.
Proof.
  destruct s as [|c rest]; [discriminate|]. unfold State._looks_like_int.
  destruct (Ascii.eqb c "-" || Ascii.eqb c "+") eqn:Es; intros Hd Hi.
  - apply isdigit_all_digits in Hd as [Hall (d & ds & ->)].
    assert (Hstrip : Py.strip (String c (String d ds)) = String c (String d ds)).
    { apply strip_fixed. intros x [->|Hx]%elem_of_cons.
      - apply orb_true_iff in Es as [E|E]; apply Ascii.eqb_eq in E; now subst c.
      - exact (all_digits_not_space (String d ds) x Hall Hx). }
    unfold Py.int in Hi. rewrite Hstrip in Hi.
    destruct (Ascii.eqb_spec c "-") as [->|Hm].
    + destruct (Py.int_limited (String d ds)) as [v|] eqn:Ev; [|discriminate].
      injection Hi as <-.
      destruct (int_limited_sound _ _ Hall Ev) as (Hdec & -> & Hlim).
      split; [now constructor|exact Hlim].
    + destruct (Ascii.eqb_spec c "+") as [->|Hp]; [|discriminate Es].
      destruct (int_limited_sound _ _ Hall Hi) as (Hdec & -> & Hlim).
      split; [now constructor|exact Hlim].
  - pose proof Hd as Hall.
    assert (Hstrip : Py.strip (String c rest) = String c rest).
    { apply strip_fixed. intros x Hx.
      exact (all_digits_not_space (String c rest) x Hall Hx). }
    unfold Py.int in Hi. rewrite Hstrip in Hi.
    apply orb_false_iff in Es as [Em Ep]. rewrite Em, Ep in Hi.
    destruct (int_limited_sound _ _ Hall Hi) as (Hdec & -> & Hlim).
    split; [now constructor|exact Hlim].
Qed.

Lemma all_decimal_no_comma (s : string) :
  all_decimal s = true -> Py.remove_char comma s = s /\ Py.contains comma s = false.
Proof.
  induction s as [|c s IH]; simpl; [auto|].
  intros [Hc Hs]%andb_true_iff. destruct (IH Hs) as [-> ->].
  destruct (Ascii.eqb_spec c comma) as [->|_]; [discriminate Hc|auto].
Qed.

Lemma remove_char_absent (ch : ascii) (s : string) :
  Py.contains ch s = false -> Py.remove_char ch s = s.
Proof.
  induction s as [|c s IH]; simpl; [reflexivity|].
  intros [Hc Hs]%orb_false_iff. rewrite Hc. now rewrite IH.
Qed.

Lemma contains_cons (ch c : ascii) (s : string) :
  Py.contains ch (String c s) = Ascii.eqb c ch || Py.contains ch s.
Proof. reflexivity. Qed.

Lemma signed_decimal_no_comma (s : string) (z : Z) :
  signed_decimal s z -> Py.remove_char comma s = s /\ Py.contains comma s = false.
Proof.
  intros Hsd.
  assert (H : Py.contains comma s = false).
  { destruct Hsd as [c ds H|c ds H|c ds H].
    - exact (proj2 (all_decimal_no_comma _ H)).
    - rewrite contains_cons, (proj2 (all_decimal_no_comma _ H)). reflexivity.
    - rewrite contains_cons, (proj2 (all_decimal_no_comma _ H)). reflexivity. }
  split; [now apply remove_char_absent|assumption].
Qed.

(** X4: the values converted to an integer are exactly those whose field
    is not exempt and whose trimmed text, commas taken out, is a signed run
    of decimal digits, no more of them than [int] reads; the integer is
    the number the digits write. *)
Theorem convert_integer (float : string -> option pyfloat) (s key_name : string) (z : Z) :
  State._convert float s key_name = PyInt z
  <-> (Py.lower key_name ∉ State.exempt)
      /\ signed_decimal (Py.remove_char comma (Py.strip s)) z
      /\ (Py.digit_count (Py.remove_char comma (Py.strip s)) <= Py.max_str_digits)%N.
Proof.
  unfold State._convert. split.
  - destruct (String.eqb (Py.strip s) EmptyString) eqn:Ee; [discriminate|].
    destruct (bool_decide (Py.lower key_name ∈ State.exempt)) eqn:Ex; [discriminate|].
    apply bool_decide_eq_false in Ex. intros H. split; [assumption|].
    destruct (Py.contains comma (Py.strip s)) eqn:Ec.
    + destruct (State._looks_like_int (Py.remove_char comma (Py.strip s))) eqn:El.
      * destruct (Py.int (Py.remove_char comma (Py.strip s))) as [v|] eqn:Ei; simpl in H.
        -- injection H as <-. now apply looks_like_int_sound.
        -- exfalso. clear El Ei.
           destruct (State._looks_like_int (Py.strip s)) eqn:El2.
           ++ destruct (Py.int (Py.strip s)) as [v|] eqn:Ei2; simpl in H.
              ** injection H as ->.
                 apply (looks_like_int_sound _ _ El2) in Ei2 as [Ei2 _].
                 apply signed_decimal_no_comma in Ei2 as [_ Hno]. congruence.
              ** destruct (Py.contains "." (Py.strip s)); simpl in H;
                   [destruct (float (Py.strip s)); discriminate|discriminate].
           ++ destruct (Py.contains "." (Py.strip s)); simpl in H;
                [destruct (float (Py.strip s)); discriminate|discriminate].
      * exfalso.
        destruct (State._looks_like_int (Py.strip s)) eqn:El2.
        -- destruct (Py.int (Py.strip s)) as [v|] eqn:Ei2; simpl in H.
           ++ apply (looks_like_int_sound _ _ El2) in Ei2 as [Ei2 _].
              apply signed_decimal_no_comma in Ei2 as [_ Hno]. congruence.
           ++ destruct (Py.contains "." (Py.strip s)); simpl in H;
                [destruct (float (Py.strip s)); discriminate|discriminate].
        -- destruct (Py.contains "." (Py.strip s)); simpl in H;
             [destruct (float (Py.strip s)); discriminate|discriminate].
    + rewrite (remove_char_absent _ _ Ec).
      destruct (State._looks_like_int (Py.strip s)) eqn:El2.
      * destruct (Py.int (Py.strip s)) as [v|] eqn:Ei2; simpl in H.
        -- injection H as <-. now apply looks_like_int_sound.
        -- destruct (Py.contains "." (Py.strip s)); simpl in H;
             [destruct (float (Py.strip s)); discriminate|discriminate].
      * destruct (Py.contains "." (Py.strip s)); simpl in H;
          [destruct (float (Py.strip s)); discriminate|discriminate].
  - intros (Hex & Hsd & Hlim).
    assert (Hne : String.eqb (Py.strip s) EmptyString = false).
    { destruct (Py.strip s); [inversion Hsd|reflexivity]. }
    rewrite Hne, bool_decide_eq_false_2 by assumption.
    destruct (Py.contains comma (Py.strip s)) eqn:Ec.
    + destruct (signed_decimal_int _ _ Hsd Hlim) as [-> ->]. reflexivity.
    + rewrite (remove_char_absent _ _ Ec) in Hsd, Hlim.
      destruct (signed_decimal_int _ _ Hsd Hlim) as [-> ->]. reflexivity.
Qed.

(** X5: what else [_convert] returns: None exactly for a value that is
    blank; a string only as the trimmed text, which is not empty; a float
    only for a field that is not exempt, when the trimmed text holds a
    decimal point and [float] accepts it. *)
Theorem convert_results (float : string -> option pyfloat) (s key_name : string) :
  (State._convert float s key_name = PyNone <-> Py.strip s = EmptyString)
  /\ (forall t, State._convert float s key_name = PyStr t ->
        t = Py.strip s /\ t <> EmptyString)
  /\ (forall f, State._convert float s key_name = PyFloat f ->
        (Py.lower key_name ∉ State.exempt)
        /\ Py.contains "." (Py.strip s) = true
        /\ float (Py.strip s) = Some f).
Proof.
  unfold State._convert.
  destruct (String.eqb_spec (Py.strip s) EmptyString) as [Ee|Ee].
  { split; [tauto|]. split; intros; discriminate. }
  destruct (bool_decide (Py.lower key_name ∈ State.exempt)) eqn:Ex.
  { split; [split; [discriminate|contradiction]|].
    split; [intros t [= <-]; auto|intros; discriminate]. }
  apply bool_decide_eq_false in Ex.
  repeat match goal with
         | |- context [if ?b then _ else _] => destruct b eqn:?
         | |- context [PyInt <$> ?o] => destruct o eqn:?; simpl
         | |- context [PyFloat <$> ?o] => destruct o eqn:?; simpl
         end;
    (split; [split; [discriminate|contradiction]|]);
    (split; [intros t H; try discriminate H; injection H as <-; auto
            |intros f H; try discriminate H; injection H as <-; auto]).
Qed.

(** ** Records *)

Lemma as_dict_copy (self : State) : as_dict self = self.
Proof.
  unfold as_dict. rewrite map_fold_foldr.
  rewrite <- (list_to_map_to_list self) at 2.
  generalize (map_to_list self). intros l.
  induction l as [|[k v] l IH]; simpl; [reflexivity|]. now rewrite IH.
Qed.

Section InitFacts.

Variable float : string -> option pyfloat.

Lemma init_loop_assigned (pairs : list (string * string)) (self st : State) :
  State.init_loop float pairs self = Ok st -> st = assigned float pairs self.
Proof.
  revert self. induction pairs as [|[k v] pairs IH]; intros self; simpl.
  - now intros [= <-].
  - unfold State.call_convert, State.setattr.
    repeat (match goal with |- context [if ?b then _ else _] => destruct b end;
            simpl; try discriminate).
    apply IH.
Qed.

Lemma assigned_dom (pairs : list (string * string)) (self : State) :
  dom (assigned float pairs self)
  = dom self ∪ list_to_set (map (fun kv => Py.strip kv.1) pairs).
Proof.
  revert self. induction pairs as [|[k v] pairs IH]; intros self.
  - unfold assigned. cbn [foldl map]. now rewrite list_to_set_nil, union_empty_r_L.
  - unfold assigned in *. cbn [foldl map]. rewrite IH, dom_insert_L, list_to_set_cons.
    rewrite (comm_L (∪) {[Py.strip k]} (dom self)). now rewrite <- (assoc_L (∪)).
Qed.

Lemma assigned_size_le (pairs : list (string * string)) (self : State) :
  size (assigned float pairs self) <= size self + length pairs.
Proof.
  revert self. induction pairs as [|[k v] pairs IH]; intros self.
  - unfold assigned. simpl. lia.
  - unfold assigned in *. simpl. etransitivity; [apply IH|].
    destruct (self !! Py.strip k) eqn:E.
    + rewrite map_size_insert_Some by eauto. lia.
    + rewrite map_size_insert_None by assumption. lia.
Qed.

Lemma assigned_last (pairs : list (string * string)) (self : State)
    (n : nat) (k v : string) :
  pairs !! n = Some (k, v) ->
  (forall m kv, n < m -> pairs !! m = Some kv -> Py.strip kv.1 <> Py.strip k) ->
  assigned float pairs self !! Py.strip k = Some (State._convert float v k).
Proof.
  revert self n. induction pairs as [|[k' v'] pairs IH]; intros self n Hn Hlast.
  - now rewrite lookup_nil in Hn.
  - destruct n as [|n]; simpl in Hn.
    + injection Hn as -> ->. unfold assigned. simpl.
      fold (assigned float pairs (<[Py.strip k := State._convert float v k]> self)).
      rewrite assigned_other; [apply lookup_insert_eq|].
      intros Hin. apply list_elem_of_fmap in Hin as [kv [Hkv Hin]].
      apply list_elem_of_lookup in Hin as [m Hm].
      apply (Hlast (S m) kv); [lia|exact Hm|congruence].
    + unfold assigned. simpl. apply (IH _ n Hn).
      intros m kv Hm. apply (Hlast (S m) kv). lia.
Qed.

Lemma normalize_lookup (header row : list string) (n : nat) :
  n < length header ->
  State.normalize header row !! n = Some (default EmptyString (row !! n)).
Proof.
  intros Hn. unfold State.normalize.
  destruct (Nat.ltb_spec (length row) (length header)).
  - destruct (Nat.lt_ge_cases n (length row)) as [Hlt|Hge].
    + rewrite lookup_app_l by assumption.
      destruct (lookup_lt_is_Some_2 row n Hlt) as [v ->]. reflexivity.
    + rewrite lookup_app_r by assumption.
      rewrite (lookup_ge_None_2 row n) by assumption.
      apply lookup_replicate_2. lia.
  - assert (Hlt : n < length row) by lia.
    destruct (lookup_lt_is_Some_2 row n Hlt) as [v Hv].
    destruct (Nat.ltb_spec (length header) (length row)).
    + rewrite lookup_take_lt by assumption. now rewrite Hv.
    + now rewrite Hv.
Qed.

Lemma zip_normalize (header row : list string) :
  zip header (State.normalize header row)
  = zip header (row ++ replicate (length header - length row) EmptyString).
Proof.
  unfold State.normalize.
  destruct (Nat.ltb_spec (length row) (length header)); [reflexivity|].
  replace (length header - length row) with 0 by lia. simpl. rewrite app_nil_r.
  destruct (Nat.ltb_spec (length header) (length row)); [|reflexivity].
  now rewrite zip_with_take_r.
Qed.

End InitFacts.

(** X6: when a record has been built, its fields are named by the trimmed
    header names, no more and no less, so there are at most as many as the
    header has names.  Calling [as_dict] on it returns the same fields,
    unless one of them is named [as_dict]: then the call raises
    TypeError. *)
Theorem init_keys (float : string -> option pyfloat) (header row : list string)
    (self : State) :
  State.__init__ float header row = Ok self ->
  dom self = list_to_set (map Py.strip header)
  /\ size self <= length header
  /\ call_as_dict self
     = if bool_decide ("as_dict" ∈ map Py.strip header) then Raise TypeError
       else Ok self.
Proof.
  intros Hinit. unfold State.__init__ in Hinit.
  apply init_loop_assigned in Hinit.
  assert (Hdom : dom self = list_to_set (map Py.strip header)).
  { subst self.
    rewrite assigned_dom, dom_empty_L, zip_names by apply normalize_length.
    apply union_empty_l_L. }
  split; [assumption|]. split.
  - subst self. etransitivity; [apply assigned_size_le|].
    rewrite map_size_empty, length_zip_with, normalize_length. simpl. lia.
  - unfold call_as_dict. rewrite as_dict_copy.
    assert (Hiff : is_Some (self !! "as_dict") <-> "as_dict" ∈ map Py.strip header).
    { rewrite <- elem_of_dom, Hdom. apply elem_of_list_to_set. }
    destruct (bool_decide ("as_dict" ∈ map Py.strip header)) eqn:E.
    + apply bool_decide_eq_true in E. now rewrite bool_decide_eq_true_2 by tauto.
    + apply bool_decide_eq_false in E. now rewrite bool_decide_eq_false_2 by tauto.
Qed.

Lemma init_keys_witness :
  dom (<["as_dict" := PyInt 1]> (<["a" := PyInt 2]> ∅) : State)
    = list_to_set (map Py.strip [" a"; "as_dict "; "a"])
  /\ size (<["as_dict" := PyInt 1]> (<["a" := PyInt 2]> ∅) : State) <= 3
  /\ call_as_dict (<["as_dict" := PyInt 1]> (<["a" := PyInt 2]> ∅))
     = if bool_decide ("as_dict" ∈ map Py.strip [" a"; "as_dict "; "a"])
       then Raise TypeError
       else Ok (<["as_dict" := PyInt 1]> (<["a" := PyInt 2]> ∅)).
Proof.
  refine (init_keys (fun _ => None) [" a"; "as_dict "; "a"] ["1"; " 1"; "2"; "9"] _ _).
  vm_compute. reflexivity.
Defined.

(** X7: reading a field back.  In a record that has been built, the field
    named by a header entry holds the conversion of the row value at that
    entry's position, an empty value when the row is too short, provided no
    later entry has the same trimmed name: of entries that share a name the
    last one counts. *)
Theorem init_read_back (float : string -> option pyfloat) (header row : list string)
    (self : State) (n : nat) (k : string) :
  State.__init__ float header row = Ok self ->
  header !! n = Some k ->
  (forall m k', n < m -> header !! m = Some k' -> Py.strip k' <> Py.strip k) ->
  as_dict self !! Py.strip k
  = Some (State._convert float (default EmptyString (row !! n)) k).
Proof.
  intros Hinit Hk Hlast. rewrite as_dict_copy. unfold State.__init__ in Hinit.
  apply init_loop_assigned in Hinit. subst self.
  apply (assigned_last float _ _ n).
  - apply lookup_zip_with_Some. exists k, (default EmptyString (row !! n)).
    split; [reflexivity|]. split; [assumption|].
    apply normalize_lookup. eapply lookup_lt_Some; eassumption.
  - intros m [k' v'] Hm Hkv. simpl.
    apply lookup_zip_with_Some in Hkv as (k'' & v'' & E & Hk' & _).
    injection E as -> ->. eapply Hlast; eassumption.
Qed.

Lemma init_read_back_witness :
  as_dict (<["b" := PyNone]> (<["a" := PyInt 2]> ∅)) !! Py.strip "a"
  = Some (State._convert (fun _ => None)
            (default EmptyString (["1"; " "; "2"; "9"] !! 2)) "a").
Proof.
  refine (init_read_back (fun _ => None) [" a"; "b "; "a"] ["1"; " "; "2"; "9"]
            _ 2 "a" _ eq_refl _).
  - vm_compute. reflexivity.
  - intros m k' Hm Hk'. apply lookup_lt_Some in Hk'. simpl in Hk'. lia.
Defined.

(** X8: only the row values under a header entry count.  Values beyond the
    length of the header change nothing, and a row that is too short gives
    the record of the same row filled up with empty values. *)
Theorem init_row_length (float : string -> option pyfloat) (header row : list string) :
  (forall extra, length header <= length row ->
     State.__init__ float header (row ++ extra) = State.__init__ float header row)
  /\ (forall n, length row + n <= length header ->
     State.__init__ float header (row ++ replicate n EmptyString)
     = State.__init__ float header row).
Proof.
  split.
  - intros extra Hlen. unfold State.__init__. rewrite !zip_normalize.
    rewrite length_app.
    replace (length header - (length row + length extra)) with 0 by lia.
    replace (length header - length row) with 0 by lia. simpl. rewrite !app_nil_r.
    rewrite <- (zip_with_take_r pair header (row ++ extra)).
    rewrite <- (zip_with_take_r pair header row).
    now rewrite take_app_le.
  - intros n Hlen. unfold State.__init__. rewrite !zip_normalize.
    rewrite length_app, length_replicate, <- app_assoc, <- replicate_add.
    now replace (n + (length header - (length row + n)))
      with (length header - length row) by lia.
Qed.

Lemma init_row_length_witness :
  State.__init__ (fun _ => None) ["state"; "positive"] (["WA"; "12"] ++ ["x"; "y"])
  = State.__init__ (fun _ => None) ["state"; "positive"] ["WA"; "12"]
  /\ State.__init__ (fun _ => None) ["state"; "positive"] (["WA"] ++ replicate 1 EmptyString)
     = State.__init__ (fun _ => None) ["state"; "positive"] ["WA"].
Proof.
  split.
  - apply (proj1 (init_row_length (fun _ => None) ["state"; "positive"] ["WA"; "12"])).
    simpl. lia.
  - apply (proj2 (init_row_length (fun _ => None) ["state"; "positive"] ["WA"])).
    simpl. lia.
Defined.

Lemma init_loop_refused (float : string -> option pyfloat)
    (pairs : list (string * string)) (self : State) (kv : string * string) :
  kv ∈ pairs -> Py.strip kv.1 ∈ refused_names ->
  State.init_loop float pairs self = Raise TypeError
  \/ State.init_loop float pairs self = Raise AttributeError.
Proof.
  intros Hin Hr. revert self. induction pairs as [|[k v] pairs IH]; intros self.
  - now apply elem_of_nil in Hin.
  - simpl. unfold State.call_convert.
    destruct (bool_decide (is_Some (self !! "_convert"))); [now left|].
    destruct (_ && _); [now left|]. simpl. unfold State.setattr.
    destruct (bool_decide (Py.strip k ∈ ["__dict__"; "__class__"])) eqn:E1; [now left|].
    destruct (String.eqb_spec (Py.strip k) "__weakref__") as [E2|E2]; [now right|].
    simpl. apply elem_of_cons in Hin as [->|Hin]; [|now apply IH].
    exfalso. apply bool_decide_eq_false in E1. cbn [fst] in Hr.
    unfold refused_names in Hr.
    apply elem_of_cons in Hr as [Hr|Hr]; [apply E1; rewrite Hr; left|].
    apply elem_of_cons in Hr as [Hr|Hr]; [apply E1; rewrite Hr; right; left|].
    apply elem_of_cons in Hr as [Hr|Hr]; [contradiction|].
    now apply elem_of_nil in Hr.
Qed.

(** X9: a header entry whose trimmed name is [__dict__], [__class__] or
    [__weakref__] makes the construction raise, whatever the row and the
    other entries are. *)
Theorem init_refused (float : string -> option pyfloat) (header row : list string)
    (k : string) :
  k ∈ header -> Py.strip k ∈ refused_names ->
  State.__init__ float header row = Raise TypeError
  \/ State.__init__ float header row = Raise AttributeError.
Proof.
  intros Hin Hr. unfold State.__init__.
  apply list_elem_of_lookup in Hin as [n Hn].
  apply (init_loop_refused float _ _ (k, default EmptyString (row !! n))); [|assumption].
  apply list_elem_of_lookup. exists n. apply lookup_zip_with_Some.
  exists k, (default EmptyString (row !! n)). split; [reflexivity|].
  split; [assumption|]. apply normalize_lookup. eapply lookup_lt_Some; eassumption.
Qed.

Lemma init_refused_witness :
  State.__init__ (fun _ => None) ["state"; " __class__ "] ["WA"; "x"] = Raise TypeError
  \/ State.__init__ (fun _ => None) ["state"; " __class__ "] ["WA"; "x"]
     = Raise AttributeError.
Proof.
  refine (init_refused (fun _ => None) ["state"; " __class__ "] ["WA"; "x"]
            " __class__ " _ _).
  - rewrite !elem_of_cons. right. left. reflexivity.
  - apply (bool_decide_eq_true_1 (_ ∈ _)). vm_compute. reflexivity.
Defined.

(** ** The loader *)

Section LoadFacts.

Variable float : string -> option pyfloat.

Lemma rows_loop_built (header lines : list string) (acc : list State) :
  Forall (fun k => Py.strip k ∉ own_names) header ->
  exists states,
    rows_loop float header lines acc = Ok (acc ++ states)
    /\ Forall2 (fun line st => State.__init__ float header (fields_of line) = Ok st)
         (data_lines lines) states.
Proof.
  intros Hh. revert acc. induction lines as [|line lines IH]; intros acc.
  - exists []. split; [simpl; now rewrite app_nil_r|constructor].
  - simpl. unfold data_lines. simpl. rewrite filter_cons.
    destruct (String.eqb_spec (Py.rstrip_eol line) EmptyString) as [E|E].
    + destruct (decide (Py.rstrip_eol line <> EmptyString)) as [Hd|Hd]; [contradiction|].
      apply IH.
    + destruct (decide (Py.rstrip_eol line <> EmptyString)) as [Hd|Hd]; [|contradiction].
      rewrite parse_csv_line_fields_of. simpl.
      assert (Hinit : State.__init__ float header (fields_of (Py.rstrip_eol line))
                      = Ok (assigned float
                              (zip header
                                 (State.normalize header (fields_of (Py.rstrip_eol line))))
                              ∅)).
      { unfold State.__init__. apply init_loop_ok; try apply lookup_empty.
        apply Forall_forall. intros [k v] Hin. simpl.
        rewrite Forall_forall in Hh. apply Hh.
        apply list_elem_of_lookup in Hin as [n Hn].
        apply lookup_zip_with_Some in Hn as (k' & v' & Ekv & Hk & _).
        injection Ekv as -> ->. eapply list_elem_of_lookup_2; eassumption. }
      rewrite Hinit. simpl.
      destruct (IH (acc ++ [assigned float
                              (zip header
                                 (State.normalize header (fields_of (Py.rstrip_eol line))))
                              ∅])) as (states & Hloop & Hall).
      eexists (_ :: states). split.
      * rewrite Hloop. now rewrite <- app_assoc.
      * constructor; assumption.
Qed.

Lemma rows_loop_keys (header lines : list string) (acc states : list State)
    (names : gset string) :
  names = list_to_set (map Py.strip header) ->
  Forall (fun s : State => dom s = names) acc ->
  rows_loop float header lines acc = Ok states ->
  Forall (fun s : State => dom s = names) states.
Proof.
  intros Hnames. revert acc. induction lines as [|line lines IH]; intros acc Hacc; simpl.
  - now intros [= <-].
  - destruct (String.eqb _ _); [now apply IH|].
    rewrite parse_csv_line_fields_of. simpl.
    destruct (State.__init__ float header _) as [st| |] eqn:Hinit; simpl;
      try discriminate.
    apply IH. apply Forall_app. split; [assumption|].
    constructor; [|constructor].
    unfold State.__init__ in Hinit. apply init_loop_assigned in Hinit. subst st.
    rewrite assigned_dom, dom_empty_L, zip_names by apply normalize_length.
    rewrite Hnames. apply union_empty_l_L.
Qed.

Lemma rows_loop_app (header l1 l2 : list string) (acc : list State) :
  rows_loop float header (l1 ++ l2) acc
  = rows_loop float header l1 acc ≫= rows_loop float header l2.
Proof.
  revert acc. induction l1 as [|line l1 IH]; intros acc; [reflexivity|].
  simpl. destruct (String.eqb _ _); [apply IH|].
  destruct (parse_csv_line _) as [row| |]; simpl; try reflexivity.
  destruct (State.__init__ float header row) as [st| |]; simpl; try reflexivity.
  apply IH.
Qed.

End LoadFacts.

Lemma strip_header_of (first : string) :
  Forall (fun k => Py.strip k = k) (header_of first).
Proof.
  unfold header_of. apply Forall_forall.
  intros k [h [-> _]]%list_elem_of_fmap. apply strip_idem.
Qed.

(** X10: no data line can make the loader fail.  When the file can be read
    and no header name is one the record object reserves, the loader
    returns one record for each line after the first that is not empty once
    its line end is removed, in the order of the lines, each built from the
    header and the fields of its line. *)
Theorem load_rows (float : string -> option pyfloat) (fs : string -> result string)
    (path text first : string) (lines : list string) :
  fs path = Ok text ->
  file_lines text [] = first :: lines ->
  Forall (fun k => k ∉ own_names) (header_of first) ->
  exists states,
    load_states_no_imports float fs path = Ok states
    /\ Forall2
         (fun line st => State.__init__ float (header_of first) (fields_of line) = Ok st)
         (data_lines lines) states.
Proof.
  intros Hfs Hlines Hh. unfold load_states_no_imports.
  rewrite Hfs. simpl. rewrite Hlines, parse_csv_line_fields_of. simpl.
  destruct (rows_loop_built float (header_of first) lines []) as (states & Hloop & Hall).
  - pose proof (strip_header_of first) as Hs. rewrite Forall_forall in Hs, Hh |- *.
    intros k Hk. rewrite (Hs k Hk). now apply Hh.
  - exists states. split; [exact Hloop|exact Hall].
Qed.

Lemma load_rows_witness :
  exists states,
    load_states_no_imports (fun _ => None)
      (fun _ => Ok ("state,date" +:+ String LF (String LF ("WA,1" +:+ String LF "OR"))))
      "data.csv" = Ok states
    /\ Forall2
         (fun line st =>
            State.__init__ (fun _ => None)
              (header_of ("state,date" +:+ String LF EmptyString)) (fields_of line) = Ok st)
         (data_lines [String LF EmptyString; "WA,1" +:+ String LF EmptyString; "OR"])
         states.
Proof.
  refine (load_rows (fun _ => None) _ "data.csv"
            ("state,date" +:+ String LF (String LF ("WA,1" +:+ String LF "OR")))
            ("state,date" +:+ String LF EmptyString)
            [String LF EmptyString; "WA,1" +:+ String LF EmptyString; "OR"]
            eq_refl _ _).
  - vm_compute. reflexivity.
  - apply (bool_decide_eq_true_1 (Forall _ _)). vm_compute. reflexivity.
Defined.

(** X11: every record of one load has the same field names: the trimmed
    names of the header line. *)
Theorem load_same_keys (float : string -> option pyfloat) (fs : string -> result string)
    (path text first : string) (lines : list string) (states : list State) :
  fs path = Ok text ->
  file_lines text [] = first :: lines ->
  load_states_no_imports float fs path = Ok states ->
  Forall (fun s : State => dom s = list_to_set (header_of first)) states.
Proof.
  intros Hfs Hlines. unfold load_states_no_imports.
  rewrite Hfs. simpl. rewrite Hlines, parse_csv_line_fields_of. simpl.
  apply rows_loop_keys; [|constructor].
  f_equal. fold (header_of first).
  pose proof (strip_header_of first) as Hs.
  induction Hs as [|k l Hk Hl IH]; simpl; [reflexivity|]. now rewrite Hk, <- IH.
Qed.

Lemma load_same_keys_witness :
  Forall (fun s : State => dom s = list_to_set (header_of (" state , date" +:+ String LF EmptyString)))
    [ <["date" := PyInt 1]> (<["state" := PyStr "WA"]> ∅);
      <["date" := PyNone]> (<["state" := PyStr "OR"]> ∅) ].
Proof.
  refine (load_same_keys (fun _ => None)
            (fun _ => Ok (" state , date" +:+ String LF ("WA,1" +:+ String LF "OR")))
            "data.csv" _ _ ["WA,1" +:+ String LF EmptyString; "OR"] _ eq_refl _ _).
  - vm_compute. reflexivity.
  - vm_compute. reflexivity.
Defined.

Lemma with_line_ends_head (text : string) (c : ascii) (r : string) :
  with_line_ends (String CR EmptyString) text = String c r -> c <> LF.
Proof.
  destruct text as [|d text]; cbn [with_line_ends]; [discriminate|].
  destruct (Ascii.eqb_spec d LF) as [->|Hne].
  - rewrite append_cons. intros [= <- _]. discriminate.
  - now intros [= <- _].
Qed.

Lemma file_lines_line_ends (eol text : string) (acc : list ascii) :
  eol = String CR (String LF EmptyString) \/ eol = String CR EmptyString ->
  Py.contains CR text = false ->
  file_lines (with_line_ends eol text) acc = file_lines text acc.
Proof.
  intros Heol. revert acc. induction text as [|c text IH]; intros acc Hcr; [reflexivity|].
  simpl in Hcr. apply orb_false_iff in Hcr as [Hc Hcr].
  cbn [with_line_ends]. destruct (Ascii.eqb c LF) eqn:El.
  - apply Ascii.eqb_eq in El. subst c.
    destruct Heol as [-> | ->]; rewrite !append_cons, append_nil_l.
    + cbn [file_lines].
      assert (E1 : Ascii.eqb CR LF = false) by reflexivity.
      rewrite E1, !Ascii.eqb_refl. now rewrite IH.
    + cbn [file_lines].
      assert (E1 : Ascii.eqb CR LF = false) by reflexivity.
      rewrite E1, !Ascii.eqb_refl.
      destruct (with_line_ends (String CR EmptyString) text) as [|d r] eqn:Ew.
      * rewrite <- (IH [] Hcr). reflexivity.
      * assert (Hd : d <> LF) by (eapply with_line_ends_head; exact Ew).
        apply Ascii.eqb_neq in Hd. rewrite Hd. now rewrite <- (IH [] Hcr).
  - cbn [file_lines]. rewrite El, Hc. now apply IH.
Qed.

(** X12: the line ends do not matter.  A file whose lines end in CR LF, or
    in CR alone, loads as the same file with lines ending in LF. *)
Theorem load_line_ends (float : string -> option pyfloat)
    (fs fs' : string -> result string) (path text eol : string) :
  eol = String CR (String LF EmptyString) \/ eol = String CR EmptyString ->
  Py.contains CR text = false ->
  fs path = Ok text ->
  fs' path = Ok (with_line_ends eol text) ->
  load_states_no_imports float fs' path = load_states_no_imports float fs path.
Proof.
  intros Heol Hcr Hfs Hfs'. unfold load_states_no_imports.
  rewrite Hfs, Hfs'. simpl. now rewrite file_lines_line_ends.
Qed.

Lemma load_line_ends_witness :
  load_states_no_imports (fun _ => None)
    (fun _ => Ok (with_line_ends (String CR (String LF EmptyString))
                    ("state,date" +:+ String LF ("WA,1" +:+ String LF EmptyString))))
    "data.csv"
  = load_states_no_imports (fun _ => None)
      (fun _ => Ok ("state,date" +:+ String LF ("WA,1" +:+ String LF EmptyString)))
      "data.csv".
Proof.
  refine (load_line_ends (fun _ => None) _ _ "data.csv" _ _ _ _ eq_refl eq_refl).
  - left. reflexivity.
  - vm_compute. reflexivity.
Defined.

Lemma file_lines_cut (a rest : string) (acc : list ascii) :
  file_lines (a +:+ String LF rest) acc
  = file_lines (a +:+ String LF EmptyString) acc ++ file_lines rest [].
Proof.
  remember (String.length a) as n eqn:Hn. revert a acc Hn.
  induction n as [n IH] using lt_wf_ind. intros a acc Hn.
  destruct a as [|c a].
  - rewrite !append_nil_l. cbn [file_lines]. rewrite Ascii.eqb_refl. reflexivity.
  - rewrite !append_cons. cbn [file_lines].
    destruct (Ascii.eqb c LF).
    + rewrite (IH (String.length a)); [reflexivity|subst n; cbn [String.length]; lia|reflexivity].
    + destruct (Ascii.eqb c CR).
      * destruct a as [|c' a'].
        -- rewrite !append_nil_l. rewrite Ascii.eqb_refl. reflexivity.
        -- rewrite !append_cons. destruct (Ascii.eqb c' LF).
           ++ rewrite (IH (String.length a')); [reflexivity|subst n; cbn [String.length]; lia|reflexivity].
           ++ rewrite <- !append_cons.
              rewrite (IH (String.length (String c' a'))); [reflexivity|subst n; cbn [String.length]; lia|reflexivity].
      * rewrite (IH (String.length a)); [reflexivity|subst n; cbn [String.length]; lia|reflexivity].
Qed.

Lemma file_lines_closed (a : string) (acc : list ascii) :
  exists first more, file_lines (a +:+ String LF EmptyString) acc = first :: more.
Proof.
  remember (String.length a) as n eqn:Hn. revert a acc Hn.
  induction n as [n IH] using lt_wf_ind. intros a acc Hn.
  destruct a as [|c a].
  - rewrite append_nil_l. cbn [file_lines]. rewrite Ascii.eqb_refl. eauto.
  - rewrite append_cons. cbn [file_lines].
    destruct (Ascii.eqb c LF); [eauto|].
    destruct (Ascii.eqb c CR).
    + destruct (a +:+ String LF EmptyString) as [|c' r]; [eauto|].
      destruct (Ascii.eqb c' LF); eauto.
    + apply (IH (String.length a)); [subst n; cbn [String.length]; lia|reflexivity].
Qed.

(** X13: an empty line changes nothing: a file with one more empty line,
    wherever it is put after a line end, loads as the file without it. *)
Theorem load_empty_line (float : string -> option pyfloat)
    (fs fs' : string -> result string) (path a b : string) :
  fs path = Ok (a +:+ String LF b) ->
  fs' path = Ok (a +:+ String LF (String LF b)) ->
  load_states_no_imports float fs' path = load_states_no_imports float fs path.
Proof.
  intros Hfs Hfs'. unfold load_states_no_imports.
  rewrite Hfs, Hfs'. simpl.
  rewrite (file_lines_cut a b), (file_lines_cut a (String LF b)).
  destruct (file_lines_closed a []) as (first & more & ->).
  cbn [file_lines app]. rewrite Ascii.eqb_refl.
  destruct (parse_csv_line (Py.rstrip_eol first)) as [header| |]; simpl; try reflexivity.
  rewrite !rows_loop_app.
  destruct (rows_loop float (map Py.strip header) more []) as [acc| |]; reflexivity.
Qed.

Lemma load_empty_line_witness :
  load_states_no_imports (fun _ => None)
    (fun _ => Ok ("state,date" +:+ String LF (String LF "WA,1"))) "data.csv"
  = load_states_no_imports (fun _ => None)
      (fun _ => Ok ("state,date" +:+ String LF "WA,1")) "data.csv".
Proof.
  exact (load_empty_line (fun _ => None) _ _ "data.csv" "state,date" "WA,1"
           eq_refl eq_refl).
Defined.

Lemma convert_text (float : string -> option pyfloat) (s key_name t : string) :
  State._convert float s key_name = PyStr t -> t = Py.strip s /\ t <> EmptyString.
Proof.
  unfold State._convert.
  destruct (String.eqb_spec (Py.strip s) EmptyString) as [Ee|Ee]; [discriminate|].
  repeat match goal with
         | |- context [if ?b then _ else _] => destruct b eqn:?
         | |- context [PyInt <$> ?o] => destruct o eqn:?; simpl
         | |- context [PyFloat <$> ?o] => destruct o eqn:?; simpl
         | |- context [match ?o with Some _ => _ | None => _ end] => destruct o eqn:?
         end;
    intros H; try discriminate H; injection H as <-; auto.
Qed.

Lemma init_loop_trimmed (float : string -> option pyfloat)
    (pairs : list (string * string)) (self st : State) :
  trimmed self -> State.init_loop float pairs self = Ok st -> trimmed st.
Proof.
  revert self. induction pairs as [|[k v] pairs IH]; intros self Ht; simpl.
  - now intros [= <-].
  - unfold State.call_convert, State.setattr.
    repeat (match goal with |- context [if ?b then _ else _] => destruct b end;
            simpl; try discriminate).
    apply IH. intros k' t.
    destruct (decide (k' = Py.strip k)) as [->|Hne].
    + rewrite lookup_insert_eq. intros [= Hc].
      apply convert_text in Hc as [-> Hc]. split; [apply strip_idem|assumption].
    + rewrite lookup_insert_ne by congruence. apply Ht.
Qed.

Lemma rows_loop_trimmed (float : string -> option pyfloat)
    (header lines : list string) (acc states : list State) :
  Forall trimmed acc ->
  rows_loop float header lines acc = Ok states ->
  Forall trimmed states.
Proof.
  revert acc. induction lines as [|line lines IH]; intros acc Hacc; simpl.
  - now intros [= <-].
  - destruct (String.eqb _ _); [now apply IH|].
    destruct (parse_csv_line _) as [row| |]; simpl; try discriminate.
    destruct (State.__init__ float header row) as [st| |] eqn:Hinit; simpl;
      try discriminate.
    apply IH. apply Forall_app. split; [assumption|].
    constructor; [|constructor].
    eapply init_loop_trimmed; [|exact Hinit].
    intros k t. rewrite lookup_empty. discriminate.
Qed.

Lemma load_trimmed (float : string -> option pyfloat)
    (fs : string -> result string) (path : string) (states : list State) :
  load_states_no_imports float fs path = Ok states -> Forall trimmed states.
Proof.
  unfold load_states_no_imports.
  destruct (fs path) as [text| |]; simpl; try discriminate.
  destruct (file_lines text []) as [|first lines]; [now intros [= <-]|].
  destruct (parse_csv_line _) as [header| |]; simpl; try discriminate.
  apply rows_loop_trimmed. constructor.
Qed.

Lemma trimmed_member (float : string -> option pyfloat)
    (fs : string -> result string) (path : string) (states : list State)
    (s : State) (k t : string) :
  load_states_no_imports float fs path = Ok states ->
  s ∈ states -> s !! k = Some (PyStr t) ->
  Py.strip t = t /\ t <> EmptyString.
Proof.
  intros Hload Hs. apply load_trimmed in Hload.
  rewrite Forall_forall in Hload. now apply Hload.
Qed.

(** X14: no text that the loader stores is empty or has white space at
    either end: an attribute of a loaded record that is a string is the
    trimmed, non-empty text of its field. *)
Theorem load_text_trimmed (float : string -> option pyfloat)
    (fs : string -> result string) (path : string) (states : list State)
    (s : State) (k t : string) :
  load_states_no_imports float fs path = Ok states ->
  s ∈ states -> s !! k = Some (PyStr t) ->
  Py.strip t = t /\ t <> EmptyString.
Proof.
  intros Hload Hs. apply load_trimmed in Hload.
  rewrite Forall_forall in Hload. now apply Hload.
Qed.

Lemma load_text_trimmed_witness :
  Py.strip "WA" = "WA" /\ "WA" <> EmptyString.
Proof.
  apply (load_text_trimmed (fun _ => None)
           (fun _ => Ok ("state,n" +:+ String LF "  WA  ,1")) "data.csv"
           [ <["n" := PyInt 1]> (<["state" := PyStr "WA"]> ∅) ]
           (<["n" := PyInt 1]> (<["state" := PyStr "WA"]> ∅)) "state" "WA").
  - vm_compute. reflexivity.
  - left.
  - vm_compute. reflexivity.
Defined.

(** * The session of [main] *)

(** ** The order of strings *)

Section StrOrder.

Variable point : ascii -> N.

Lemma str_le_total (a b : string) :
  str_le point a b = true \/ str_le point b a = true.
Proof.
  revert b. induction a as [|x a IH]; intros b; [now left|].
  destruct b as [|y b]; [now right|]. simpl.
  destruct (N.ltb_spec (point x) (point y)) as [Hxy|Hxy]; [now left|].
  destruct (N.ltb_spec (point y) (point x)) as [Hyx|Hyx]; [now right|].
  assert (E : point x = point y) by lia.
  rewrite E, N.eqb_refl. apply IH.
Qed.

Lemma str_le_trans (a b c : string) :
  str_le point a b = true -> str_le point b c = true -> str_le point a c = true.
Proof.
  revert b c. induction a as [|x a IH]; intros b c; [reflexivity|].
  destruct b as [|y b]; [discriminate|]. destruct c as [|z c]; [simpl; now intros _|].
  simpl.
  destruct (N.ltb_spec (point x) (point y)) as [Hxy|Hxy];
    destruct (N.ltb_spec (point y) (point z)) as [Hyz|Hyz];
    destruct (N.ltb_spec (point x) (point z)) as [Hxz|Hxz];
    try reflexivity; try lia.
  - destruct (N.eqb_spec (point y) (point z)); [lia|discriminate].
  - destruct (N.eqb_spec (point x) (point y)); [lia|discriminate].
  - destruct (N.eqb_spec (point x) (point y)) as [E1|]; [|discriminate].
    destruct (N.eqb_spec (point y) (point z)) as [E2|]; [|discriminate].
    rewrite E1, E2, N.eqb_refl. apply IH.
Qed.

Lemma str_le_antisym (a b : string) :
  (forall x y, point x = point y -> x = y) ->
  str_le point a b = true -> str_le point b a = true -> a = b.
Proof.
  intros Hinj. revert b. induction a as [|x a IH]; intros b.
  - destruct b; [reflexivity|discriminate].
  - destruct b as [|y b]; [discriminate|]. simpl.
    destruct (N.ltb_spec (point x) (point y)) as [Hxy|Hxy];
      destruct (N.ltb_spec (point y) (point x)) as [Hyx|Hyx]; try lia.
    + destruct (N.eqb_spec (point y) (point x)); [lia|discriminate].
    + destruct (N.eqb_spec (point x) (point y)); [lia|discriminate].
    + destruct (N.eqb_spec (point x) (point y)) as [E|]; [|discriminate].
      rewrite E, N.eqb_refl. intros H1 H2.
      f_equal; [now apply Hinj|now apply IH].
Qed.

Lemma sorted_perm (names : list string) : sorted point names ≡ₚ names.
Proof. apply merge_sort_Permutation. Qed.

Lemma sorted_ascending (names : list string) :
  StronglySorted (fun a b => str_le point a b = true) (sorted point names).
Proof.
  apply StronglySorted_merge_sort.
  - intros a b c. apply str_le_trans.
  - intros a b. apply str_le_total.
Qed.

(** Distinct names come out in strictly ascending order. *)
Lemma sorted_strictly (names : list string) :
  (forall x y, point x = point y -> x = y) ->
  NoDup names ->
  StronglySorted (fun a b => str_le point a b = true /\ str_le point b a = false)
    (sorted point names).
Proof.
  intros Hinj Hnd. rewrite <- (sorted_perm names) in Hnd.
  pose proof (sorted_ascending names) as Hs.
  induction Hs as [|a l Hs IH Ha]; constructor.
  - apply IH. now apply NoDup_cons in Hnd.
  - apply NoDup_cons in Hnd as [Hnot _].
    rewrite Forall_forall in Ha. apply Forall_forall. intros b Hb.
    split; [now apply Ha|].
    destruct (str_le point b a) eqn:E; [|reflexivity].
    exfalso. apply Hnot.
    rewrite (str_le_antisym a b Hinj (Ha b Hb) E). exact Hb.
Qed.

End StrOrder.

Lemma code_inj (x y : ascii) : Py.code x = Py.code y -> x = y.
Proof.
  unfold Py.code. intros H.
  rewrite <- (ascii_N_embedding x), <- (ascii_N_embedding y). now rewrite H.
Qed.

Lemma code_bound (x : ascii) : (Py.code x < 256)%N.
Proof. apply N_ascii_bounded. Qed.

Lemma upper_point_inj (x y : ascii) : upper_point x = upper_point y -> x = y.
Proof.
  unfold upper_point. intros H. apply code_inj.
  pose proof (code_bound x). pose proof (code_bound y).
  destruct (N.eqb_spec (Py.code x) 181), (N.eqb_spec (Py.code x) 255),
    (N.eqb_spec (Py.code y) 181), (N.eqb_spec (Py.code y) 255); lia.
Qed.

(** ** The keys of the index *)

Lemma keys_loop_index (refs : list Ref) (keys : list string)
    (groups groups' : gmap string (list Ref)) :
  group_loop refs groups = Ok groups' ->
  NoDup keys -> (forall k, k ∈ keys <-> is_Some (groups !! k)) ->
  NoDup (keys_loop refs keys)
  /\ forall k, k ∈ keys_loop refs keys <-> is_Some (groups' !! k).
Proof.
  revert keys groups. induction refs as [|r refs IH]; intros keys groups; simpl.
  - intros [= <-]. auto.
  - destruct (getattr r.2 "state" PyNone) as [| | |code]; simpl; try discriminate.
    + apply IH.
    + intros Hloop Hnd Hkeys. apply (IH _ _ Hloop).
      * case_bool_decide as Hin; [assumption|].
        apply NoDup_app. repeat split; [assumption| |apply NoDup_singleton].
        intros k Hk ->%list_elem_of_singleton. contradiction.
      * intros k. destruct (decide (k = Py.upper code)) as [->|Hne].
        -- rewrite lookup_insert_eq. split; [eauto|intros _].
           case_bool_decide as Hin; [assumption|].
           apply elem_of_app. right. now apply list_elem_of_singleton.
        -- rewrite lookup_insert_ne by congruence. rewrite <- Hkeys.
           case_bool_decide as Hin; [reflexivity|].
           rewrite elem_of_app, list_elem_of_singleton. tauto.
Qed.

Lemma sort_groups_keys (groups index : gmap string (list Ref)) (k : string) :
  sort_groups groups index -> is_Some (index !! k) <-> is_Some (groups !! k).
Proof.
  intros Hs. specialize (Hs k).
  destruct (groups !! k), (index !! k); inversion Hs; split; intros [z Hz];
    eauto; discriminate.
Qed.

(** The keys that [main] keeps are the keys of the index, each once. *)
Lemma index_keys (states : list State) (index : gmap string (list Ref)) :
  build_index states index ->
  NoDup (keys_loop (enumerate 0 states) [])
  /\ forall k, k ∈ keys_loop (enumerate 0 states) [] <-> is_Some (index !! k).
Proof.
  intros (groups & Hloop & Hsort).
  destruct (keys_loop_index _ [] _ _ Hloop) as [Hnd Hk].
  - constructor.
  - intros k. rewrite lookup_empty. split; [now intros ?%elem_of_nil|].
    intros [x Hx]. discriminate.
  - split; [assumption|]. intros k. rewrite Hk. symmetry.
    now apply sort_groups_keys.
Qed.

(** ** What the loader can return *)

Lemma init_loop_returns (float : string -> option pyfloat)
    (pairs : list (string * string)) (self : State) :
  State.init_loop float pairs self <> OutOfFuel.
Proof.
  revert self. induction pairs as [|[k v] pairs IH]; intros self; simpl; [discriminate|].
  unfold State.call_convert.
  destruct (bool_decide _); simpl; [discriminate|].
  destruct (_ && _); simpl; [discriminate|].
  unfold State.setattr.
  destruct (bool_decide _); simpl; [discriminate|].
  destruct (String.eqb _ _); simpl; [discriminate|]. apply IH.
Qed.

Lemma rows_loop_returns (float : string -> option pyfloat)
    (header lines : list string) (acc : list State) :
  rows_loop float header lines acc <> OutOfFuel.
Proof.
  revert acc. induction lines as [|line lines IH]; intros acc; simpl; [discriminate|].
  destruct (String.eqb _ _); [apply IH|].
  rewrite parse_csv_line_fields_of. simpl.
  destruct (State.__init__ float header _) as [st| |] eqn:E; simpl;
    [apply IH|discriminate|].
  now apply init_loop_returns in E.
Qed.

Lemma load_returns (float : string -> option pyfloat)
    (fs : string -> result string) (path : string) :
  fs path <> OutOfFuel ->
  load_states_no_imports float fs path <> OutOfFuel.
Proof.
  intros Hfs. unfold load_states_no_imports.
  destruct (fs path) as [text| |]; simpl; [|discriminate|contradiction].
  destruct (file_lines text []) as [|first lines]; [discriminate|].
  rewrite parse_csv_line_fields_of. simpl. apply rows_loop_returns.
Qed.

Lemma enumerate_text (states : list State) (n : nat) :
  Forall text_state states ->
  Forall (fun r : Ref => text_state r.2) (enumerate n states).
Proof.
  intros H. revert n. induction H as [|s states Hs _ IH]; intros n; simpl;
    constructor; auto.
Qed.

(** ** The loop *)

Lemma show_rows_raises (idx : nat) (rows : list Ref) (e : exn) :
  (show_rows idx rows).2 = Some e ->
  e = TypeError /\ exists r, r ∈ rows /\ is_Some (r.2 !! "as_dict").
Proof.
  revert idx. induction rows as [|r rows IH]; intros idx; simpl; [discriminate|].
  case_bool_decide as Hd; simpl.
  - intros [= <-]. split; [reflexivity|]. exists r. split; [left|assumption].
  - intros H. destruct (IH _ H) as (-> & r' & Hr' & Hs).
    split; [reflexivity|]. exists r'. split; [now right|assumption].
Qed.

Lemma show_rows_returns (idx : nat) (rows : list Ref) :
  Forall (fun r : Ref => r.2 !! "as_dict" = None) rows ->
  (show_rows idx rows).2 = None.
Proof.
  intros H. revert idx. induction H as [|r rows Hr _ IH]; intros idx; simpl; [reflexivity|].
  case_bool_decide as Hd; simpl; [|apply IH].
  rewrite Hr in Hd. now destruct Hd.
Qed.

Lemma session_raises (keys : list string) (index : gmap string (list Ref))
    (inputs : list string) (e : exn) :
  (session keys index inputs).2 = Some e ->
  e = TypeError
  /\ exists c rows r, index !! c = Some rows /\ r ∈ rows /\ is_Some (r.2 !! "as_dict").
Proof.
  induction inputs as [|line rest IH]; simpl; [discriminate|].
  destruct (String.eqb (Py.strip line) EmptyString); simpl; [assumption|].
  destruct (_ || _); simpl; [discriminate|].
  destruct (String.eqb _ "ALL"); simpl; [assumption|].
  destruct (index !! _) as [rows|] eqn:Hrows; simpl; [|assumption].
  destruct (show_rows 1 rows).2 as [e'|] eqn:Hshow; simpl; [|assumption].
  intros [= <-]. destruct (show_rows_raises _ _ _ Hshow) as (-> & r & Hr & Has).
  split; [reflexivity|]. eauto 6.
Qed.

(** X15: [main] always ends.  When the loader raises, it reports the
    error and returns 2, having made no other call.  Otherwise grouping
    cannot fail, and [main] returns 0, or raises TypeError while showing
    a record that has an attribute named [as_dict]. *)
Theorem main_returns (float : string -> option pyfloat)
    (fs : string -> result string) (argv : option (list string))
    (inputs : list string) :
  fs (path_of argv) <> OutOfFuel ->
  (exists out r, main_run float fs argv inputs out r)
  /\ forall out r, main_run float fs argv inputs out r ->
       (exists e, load_states_no_imports float fs (path_of argv) = Raise e
                  /\ out = [PrintLoading (path_of argv); PrintErrorLoading e]
                  /\ r = Ok 2%Z)
       \/ (exists states, load_states_no_imports float fs (path_of argv) = Ok states
                  /\ (r = Ok 0%Z
                      \/ (r = Raise TypeError
                          /\ exists s, s ∈ states /\ is_Some (s !! "as_dict")))).
Proof.
  intros Hfs. split.
  - destruct (load_states_no_imports float fs (path_of argv)) as [states|e|] eqn:Hload.
    + pose proof (load_text_state _ _ _ _ Hload) as Ht.
      destruct (group_loop_buckets (enumerate 0 states) ∅ (enumerate_text _ 0 Ht))
        as (groups & Hloop & _).
      eexists _, _.
      eapply run_session;
        [exact Hload|apply build_index_sort_or_leave; exact Hloop|reflexivity].
    + eexists _, _. apply run_load_error. exact Hload.
    + now apply load_returns in Hload.
  - intros out r Hrun.
    destruct Hrun as [e Hload|states e Hload Hloop|states index shown Hload Hbuild Hshown].
    + left. eauto.
    + pose proof (load_text_state _ _ _ _ Hload) as Ht.
      destruct (group_loop_buckets (enumerate 0 states) ∅ (enumerate_text _ 0 Ht))
        as (groups & Hloop' & _).
      rewrite Hloop in Hloop'. discriminate.
    + right. exists states. split; [assumption|].
      destruct shown.2 as [e|] eqn:He; [right|now left].
      rewrite <- Hshown in He.
      destruct (session_raises _ _ _ _ He) as (-> & c & rows & ref & Hrows & Href & Has).
      split; [reflexivity|].
      destruct (bucket_members _ _ _ _ Hbuild Hrows) as [_ Hm].
      destruct (Hm ref Href) as [Hlk _].
      exists ref.2. split; [|assumption].
      eapply list_elem_of_lookup_2. exact Hlk.
Qed.

Lemma main_returns_witness :
  exists out r,
    main_run (fun _ => None)
      (fun _ => Ok ("state,date" +:+ String LF "WA,20200301")) None ["wa"; "quit"]
      out r.
Proof.
  refine (proj1 (main_returns (fun _ => None) _ None ["wa"; "quit"] _)).
  discriminate.
Defined.

Lemma upper_empty (s : string) : Py.upper s = EmptyString -> s = EmptyString.
Proof.
  destruct s as [|c s]; [reflexivity|]. cbn [Py.upper]. unfold Py.upper_char.
  destruct (_ || _); [discriminate|]. destruct (_ =? _)%N; discriminate.
Qed.

Lemma session_step (keys : list string) (index : gmap string (list Ref))
    (line : string) (rest : list string) :
  session keys index (line :: rest) =
    if String.eqb (Py.strip line) EmptyString
    then and_then [Input] (session keys index rest)
    else
      let c := Py.upper (Py.strip line) in
      if String.eqb c "QUIT" || String.eqb c "EXIT"
      then ([Input; PrintGoodbye], None)
      else if String.eqb c "ALL"
      then and_then (Input :: listing keys index) (session keys index rest)
      else
        match index !! c with
        | None => and_then (Input :: no_data keys c) (session keys index rest)
        | Some rows =>
            match (show_rows 1 rows).2 with
            | Some e => (Input :: PrintShowing (length rows) c :: (show_rows 1 rows).1, Some e)
            | None =>
                and_then (Input :: PrintShowing (length rows) c :: (show_rows 1 rows).1)
                         (session keys index rest)
            end
        end.
Proof. cbn [session]. rewrite strip_idem. reflexivity. Qed.

Lemma session_quit_here (keys : list string) (index : gmap string (list Ref))
    (line : string) (rest : list string) :
  Py.upper (Py.strip line) ∈ ["QUIT"; "EXIT"] ->
  session keys index (line :: rest) = ([Input; PrintGoodbye], None).
Proof.
  intros Hq. rewrite session_step.
  destruct (String.eqb_spec (Py.strip line) EmptyString) as [E|_].
  - rewrite E in Hq. exfalso. revert Hq. cbn [Py.upper].
    rewrite !elem_of_cons, elem_of_nil. intros [H|[H|[]]]; discriminate.
  - cbv zeta. apply elem_of_cons in Hq as [->| ->%list_elem_of_singleton]; reflexivity.
Qed.

(** X16: the loop stops at [quit] or [exit], in any letter case and with
    white space around it: what is typed after it is never read, and the
    last call of a session that ends there prints the farewell. *)
Theorem session_quit (keys : list string) (index : gmap string (list Ref))
    (before : list string) (line : string) (after : list string) :
  Py.upper (Py.strip line) ∈ ["QUIT"; "EXIT"] ->
  session keys index (before ++ line :: after) = session keys index (before ++ [line])
  /\ ((session keys index (before ++ line :: after)).2 = None ->
      exists out, (session keys index (before ++ line :: after)).1
                  = out ++ [Input; PrintGoodbye]).
Proof.
  intros Hq. induction before as [|l before [IH1 IH2]].
  - rewrite !app_nil_l, !session_quit_here by assumption.
    split; [reflexivity|]. intros _. now exists [].
  - rewrite <- !app_comm_cons, !session_step, IH1.
    split; [reflexivity|]. rewrite IH1 in IH2.
    destruct (String.eqb (Py.strip l) EmptyString).
    { intros H. destruct (IH2 H) as [out Hout]. exists (Input :: out).
      unfold and_then. simpl. now rewrite Hout. }
    cbv zeta. destruct (_ || _).
    { intros _. now exists []. }
    destruct (String.eqb _ "ALL").
    { intros H. destruct (IH2 H) as [out Hout].
      exists (Input :: listing keys index ++ out).
      unfold and_then. simpl. now rewrite Hout, app_assoc. }
    destruct (index !! _) as [rows|].
    + destruct (show_rows 1 rows).2; [discriminate|].
      intros H. destruct (IH2 H) as [out Hout].
      exists (Input :: PrintShowing (length rows) (Py.upper (Py.strip l))
                :: (show_rows 1 rows).1 ++ out).
      unfold and_then. simpl. now rewrite Hout, app_assoc.
    + intros H. destruct (IH2 H) as [out Hout].
      exists (Input :: no_data keys (Py.upper (Py.strip l)) ++ out).
      unfold and_then. cbn [fst snd app]. now rewrite Hout, app_assoc.
Qed.

Lemma session_quit_witness :
  session [] ∅ (["all"; "x"] ++ " Quit " :: ["all"; "y"])
  = session [] ∅ (["all"; "x"] ++ [" Quit "]).
Proof.
  refine (proj1 (session_quit [] ∅ ["all"; "x"] " Quit " ["all"; "y"] _)).
  apply (bool_decide_eq_true_1 (_ ∈ _)). vm_compute. reflexivity.
Defined.

Lemma show_rows_calls (idx : nat) (rows : list Ref) (x : call) :
  x ∈ (show_rows idx rows).1 ->
  (exists i, x = PrintRow i) \/ (exists k v, x = PrintField k v).
Proof.
  revert idx. induction rows as [|r rows IH]; intros idx; simpl.
  - now intros ?%elem_of_nil.
  - case_bool_decide as Hd; simpl.
    + intros ->%list_elem_of_singleton. left. eauto.
    + rewrite elem_of_cons, elem_of_app. intros [->|[Hx|Hx]]; [left; eauto| |eauto].
      unfold show_fields in Hx. apply list_elem_of_omap in Hx as (k & _ & Hk).
      destruct (as_dict r.2 !! k) as [v|]; [|discriminate].
      injection Hk as <-. right. eauto.
Qed.

Lemma listing_calls (keys : list string) (index : gmap string (list Ref)) (x : call) :
  x ∈ listing keys index ->
  exists code rows, index !! code = Some rows /\ x = PrintCount code (length rows).
Proof.
  unfold listing. intros (code & _ & H)%list_elem_of_omap.
  destruct (index !! code) as [rows|] eqn:E; [|discriminate].
  injection H as <-. eauto.
Qed.

(** Where a call of the loop comes from. *)
Lemma session_calls (keys : list string) (index : gmap string (list Ref))
    (inputs : list string) (x : call) :
  x ∈ (session keys index inputs).1 ->
  x ∈ [Input; PrintInputError; PrintGoodbye]
  \/ x ∈ listing keys index
  \/ exists line c,
       line ∈ inputs /\ c = Py.upper (Py.strip line)
       /\ Py.strip line <> EmptyString /\ (c ∉ ["QUIT"; "EXIT"; "ALL"])
       /\ ((index !! c = None /\ x ∈ no_data keys c)
           \/ exists rows, index !! c = Some rows
                /\ (x = PrintShowing (length rows) c \/ x ∈ (show_rows 1 rows).1)).
Proof.
  induction inputs as [|line rest IH].
  - simpl. intros H. left. revert H. rewrite !elem_of_cons. tauto.
  - match goal with |- _ -> ?G => set (goal := G) end.
    assert (Hinput : x = Input -> goal) by (intros ->; left; left).
    assert (Hrest : x ∈ (session keys index rest).1 -> goal).
    { intros H. destruct (IH H) as [H1|[H1|(l & c & Hl & H1)]];
        [now left|right; now left|].
      right. right. exists l, c. split; [now right|assumption]. }
    clear IH. rewrite session_step.
    destruct (String.eqb_spec (Py.strip line) EmptyString) as [E|E].
    { unfold and_then. simpl. intros [->|H]%elem_of_cons; auto. }
    cbv zeta.
    destruct (String.eqb_spec (Py.upper (Py.strip line)) "QUIT") as [Eq|Eq].
    { simpl. intros H. left. revert H. rewrite !elem_of_cons. tauto. }
    destruct (String.eqb_spec (Py.upper (Py.strip line)) "EXIT") as [Ee|Ee].
    { simpl. intros H. left. revert H. rewrite !elem_of_cons. tauto. }
    destruct (String.eqb_spec (Py.upper (Py.strip line)) "ALL") as [Ea|Ea].
    { unfold and_then. simpl. intros [->|[H|H]%elem_of_app]%elem_of_cons; auto.
      right. now left. }
    assert (Hc : Py.upper (Py.strip line) ∉ ["QUIT"; "EXIT"; "ALL"]).
    { rewrite !elem_of_cons, elem_of_nil. tauto. }
    assert (Hline : forall P : Prop,
      P ->
      (P -> (index !! Py.upper (Py.strip line) = None
             /\ x ∈ no_data keys (Py.upper (Py.strip line)))
            \/ exists rows, index !! Py.upper (Py.strip line) = Some rows
                 /\ (x = PrintShowing (length rows) (Py.upper (Py.strip line))
                     \/ x ∈ (show_rows 1 rows).1)) ->
      goal).
    { intros P HP Hcase. right. right. exists line, (Py.upper (Py.strip line)).
      split; [left|]. repeat (split; [solve [auto]|]). auto. }
    simpl.
    destruct (index !! Py.upper (Py.strip line)) as [rows|] eqn:Hrows.
    + assert (Hhere : x ∈ Input :: PrintShowing (length rows) (Py.upper (Py.strip line))
                            :: (show_rows 1 rows).1 -> goal).
      { intros [->|H]%elem_of_cons; [auto|].
        apply (Hline _ H). intros [->|H']%elem_of_cons; right; exists rows; auto. }
      destruct (show_rows 1 rows).2; [exact Hhere|].
      unfold and_then. cbn [fst snd].
      intros [H|H]%elem_of_app; auto.
    + unfold and_then. cbn [fst snd].
      intros [[->|H]%elem_of_cons|H]%elem_of_app; auto.
      apply (Hline _ H). auto.
Qed.

(** X17: the words of the loop hide the buckets of the same name.  Rows
    are shown only for a code that is a key of the index and is none of
    QUIT, EXIT and ALL, and the number announced is the length of its
    bucket. *)
Theorem shown_codes (keys : list string) (index : gmap string (list Ref))
    (inputs : list string) (n : nat) (c : string) :
  PrintShowing n c ∈ (session keys index inputs).1 ->
  (c ∉ ["QUIT"; "EXIT"; "ALL"])
  /\ exists rows, index !! c = Some rows /\ n = length rows.
Proof.
  intros H. apply session_calls in H as [H|[H|(line & c' & _ & -> & _ & Hc & H)]].
  - exfalso. revert H. rewrite !elem_of_cons, elem_of_nil.
    intros [H|[H|[H|[]]]]; discriminate.
  - apply listing_calls in H as (code & rows & _ & H). discriminate.
  - destruct H as [[_ H]|(rows & Hrows & [H|H])].
    + exfalso. unfold no_data in H. apply elem_of_cons in H as [H'|H']; [discriminate|].
      destruct (suggestions _ _); [now apply elem_of_nil in H'|].
      apply list_elem_of_singleton in H'. discriminate.
    + injection H as -> ->. eauto.
    + apply show_rows_calls in H as [[i H]|(k & v & H)]; discriminate.
Qed.

Lemma shown_codes_witness :
  ("WA" ∉ ["QUIT"; "EXIT"; "ALL"])
  /\ exists rows,
       ({[ "WA" := [(0, record (PyStr "WA") (PyInt 3))] ]} : gmap string (list Ref))
         !! "WA" = Some rows
       /\ 1 = length rows.
Proof.
  apply (shown_codes ["WA"] {[ "WA" := [(0, record (PyStr "WA") (PyInt 3))] ]}
           [" wa"] 1 "WA").
  assert (E : (session ["WA"]
                 ({[ "WA" := [(0, record (PyStr "WA") (PyInt 3))] ]}) [" wa"]).1
              = [Input; PrintShowing 1 "WA"; PrintRow 1;
                 PrintField "date" (PyInt 3); PrintField "state" (PyStr "WA");
                 Input; PrintInputError])
    by (vm_compute; reflexivity).
  rewrite E. right. left.
Defined.

Lemma show_rows_at (idx n : nat) (rows : list Ref) (r : Ref) :
  Forall (fun r : Ref => r.2 !! "as_dict" = None) rows ->
  rows !! n = Some r ->
  exists before after,
    (show_rows idx rows).1
    = before ++ PrintRow (idx + n) :: show_fields (as_dict r.2) ++ after.
Proof.
  intros H. revert idx n. induction H as [|r0 rows Hr0 _ IH]; intros idx n Hn.
  - discriminate.
  - cbn [show_rows].
    rewrite bool_decide_eq_false_2 by (rewrite Hr0; intros [x Hx]; discriminate).
    cbn [fst]. destruct n as [|n].
    + injection Hn as <-. exists [], (show_rows (S idx) rows).1.
      now rewrite Nat.add_0_r.
    + destruct (IH (S idx) n Hn) as (before & after & E).
      exists (PrintRow idx :: show_fields (as_dict r0.2) ++ before), after.
      rewrite E. replace (idx + S n) with (S idx + n) by lia.
      cbn [app]. now rewrite <- app_assoc.
Qed.

(** X18: every loaded record can be reached, when no column is named
    [as_dict].  Typing the state of a record as the file gives it, in any
    letter case and with white space around it, is answered with the rows
    of the bucket that holds the record, the record among them with all
    its fields under its number, and the loop goes on; unless the code is
    one of the words QUIT, EXIT and ALL. *)
Theorem typed_state_shown (float : string -> option pyfloat)
    (fs : string -> result string) (path : string) (states : list State)
    (index : gmap string (list Ref)) (keys : list string)
    (s : State) (t line : string) (rest : list string) :
  load_states_no_imports float fs path = Ok states ->
  build_index states index ->
  Forall (fun s' : State => s' !! "as_dict" = None) states ->
  s ∈ states -> s !! "state" = Some (PyStr t) ->
  Py.upper (Py.strip line) = Py.upper t ->
  Py.upper t ∉ ["QUIT"; "EXIT"; "ALL"] ->
  exists rows n i before after,
    index !! Py.upper t = Some rows /\ rows !! n = Some (i, s)
    /\ (show_rows 1 rows).1
       = before ++ PrintRow (S n) :: show_fields (as_dict s) ++ after
    /\ session keys index (line :: rest)
       = and_then (Input :: PrintShowing (length rows) (Py.upper t)
                         :: (show_rows 1 rows).1)
                  (session keys index rest).
Proof.
  intros Hload Hbuild Hplain Hs Hstate Hline Hword.
  destruct (trimmed_member float fs path states s "state" t Hload Hs Hstate)
    as [_ Ht].
  apply list_elem_of_lookup in Hs as [i Hi].
  assert (Href : (i, s) ∈ enumerate 0 states).
  { apply enumerate_lookup. split; [lia|]. simpl. now rewrite Nat.sub_0_r. }
  assert (Hkey : bucket_key (i, s) = Some (Py.upper t)).
  { unfold bucket_key, getattr. simpl. now rewrite Hstate. }
  pose proof Hbuild as (groups & Hloop & Hsort).
  destruct (grouped_member _ _ _ _ Hloop Href Hkey) as (rows & Hrows & Hin).
  destruct (proj1 (sort_groups_lookup _ _ (Py.upper t) Hsort) rows Hrows)
    as (rows' & Hrows' & Htry).
  apply try_sort_perm in Htry.
  assert (Hin' : (i, s) ∈ rows') by now rewrite Htry.
  apply list_elem_of_lookup in Hin' as [n Hn].
  assert (Hnone : Forall (fun r : Ref => r.2 !! "as_dict" = None) rows').
  { apply Forall_forall. intros r Hr.
    destruct (bucket_members _ _ _ _ Hbuild Hrows') as [_ Hm].
    destruct (Hm r Hr) as [Hlk _].
    rewrite Forall_forall in Hplain. apply Hplain.
    eapply list_elem_of_lookup_2. exact Hlk. }
  destruct (show_rows_at 1 n rows' (i, s) Hnone Hn) as (before & after & Eshow).
  exists rows', n, i, before, after.
  split; [assumption|]. split; [assumption|]. split; [exact Eshow|].
  rewrite session_step.
  destruct (String.eqb_spec (Py.strip line) EmptyString) as [E|E].
  { rewrite E in Hline. symmetry in Hline. apply upper_empty in Hline. contradiction. }
  cbv zeta. rewrite Hline.
  destruct (String.eqb_spec (Py.upper t) "QUIT") as [Eq|Eq].
  { exfalso. apply Hword. rewrite Eq. left. }
  destruct (String.eqb_spec (Py.upper t) "EXIT") as [Ee|Ee].
  { exfalso. apply Hword. rewrite Ee. right. left. }
  destruct (String.eqb_spec (Py.upper t) "ALL") as [Ea|Ea].
  { exfalso. apply Hword. rewrite Ea. right. right. left. }
  simpl. rewrite Hrows'. now rewrite (show_rows_returns 1 rows' Hnone).
Qed.

Lemma typed_state_shown_witness :
  exists rows n i before after,
    (sort_or_leave <$> ({[ "WA" := [(0, record (PyStr "wa") (PyInt 3))] ]}
                          : gmap string (list Ref)))
      !! Py.upper "wa" = Some rows
    /\ rows !! n = Some (i, record (PyStr "wa") (PyInt 3))
    /\ (show_rows 1 rows).1
       = before ++ PrintRow (S n)
                :: show_fields (as_dict (record (PyStr "wa") (PyInt 3))) ++ after
    /\ session [] (sort_or_leave <$> {[ "WA" := [(0, record (PyStr "wa") (PyInt 3))] ]})
         (" Wa " :: ["quit"])
       = and_then (Input :: PrintShowing (length rows) (Py.upper "wa")
                         :: (show_rows 1 rows).1)
           (session [] (sort_or_leave <$>
                          {[ "WA" := [(0, record (PyStr "wa") (PyInt 3))] ]})
                    ["quit"]).
Proof.
  apply (typed_state_shown (fun _ => None)
           (fun _ => Ok ("state,date" +:+ String LF "wa,3")) "data.csv"
           [record (PyStr "wa") (PyInt 3)]).
  - vm_compute. reflexivity.
  - apply build_index_sort_or_leave. vm_compute. reflexivity.
  - constructor; [vm_compute; reflexivity|constructor].
  - left.
  - vm_compute. reflexivity.
  - vm_compute. reflexivity.
  - apply (bool_decide_eq_true_1 (_ ∉ _)). vm_compute. reflexivity.
Defined.

(** ** The answers of the loop *)

Lemma upper_head (s : string) :
  s <> EmptyString -> exists ch tail, Py.upper s = String ch tail.
Proof.
  intros Hs. destruct (Py.upper s) as [|ch tail] eqn:E; [|eauto].
  now apply upper_empty in E.
Qed.

Lemma prefix_head (ch : ascii) (tail k : string) :
  String.prefix (substring 0 1 (String ch tail)) k = true ->
  exists rest, k = String ch rest.
Proof.
  assert (E : substring 0 1 (String ch tail) = String ch EmptyString).
  { simpl. now destruct tail. }
  rewrite E. destruct k as [|c k]; simpl; [discriminate|].
  destruct (ascii_dec ch c) as [->|]; [eauto|discriminate].
Qed.

Lemma head_prefix (ch : ascii) (tail k : string) :
  String.prefix (substring 0 1 (String ch tail)) k = true
  <-> exists rest, k = String ch rest.
Proof.
  split; [apply prefix_head|]. intros [rest ->].
  assert (E : substring 0 1 (String ch tail) = String ch EmptyString).
  { simpl. now destruct tail. }
  rewrite E. simpl. destruct (ascii_dec ch ch); [now destruct rest|contradiction].
Qed.

Lemma session_head (keys : list string) (index : gmap string (list Ref))
    (inputs : list string) :
  (session keys index inputs).1 !! 0 = Some Input.
Proof.
  destruct inputs as [|line rest]; [reflexivity|]. rewrite session_step.
  destruct (String.eqb _ _); [reflexivity|]. cbv zeta.
  destruct (_ || _); [reflexivity|].
  destruct (String.eqb _ _); [reflexivity|].
  destruct (index !! _) as [rows|]; [|reflexivity].
  destruct (show_rows 1 rows).2; reflexivity.
Qed.

(** Where the loop prints suggestions: straight after the code that was
    not found, for the line that was typed. *)
Lemma session_suggestions (keys : list string) (index : gmap string (list Ref))
    (inputs : list string) (n : nat) (found : list string) :
  (session keys index inputs).1 !! n = Some (PrintDidYouMean found) ->
  exists m line,
    n = S m /\ line ∈ inputs /\ Py.strip line <> EmptyString
    /\ index !! Py.upper (Py.strip line) = None
    /\ (session keys index inputs).1 !! m
       = Some (PrintNoData (Py.upper (Py.strip line)))
    /\ suggestions keys (Py.upper (Py.strip line)) <> []
    /\ found = take 8 (suggestions keys (Py.upper (Py.strip line))).
Proof.
  revert n. induction inputs as [|line rest IH]; intros n.
  - destruct n as [|[|[|n]]]; discriminate.
  - assert (Hrest : forall out : list call,
      (forall k, out !! k <> Some (PrintDidYouMean found)) ->
      (out ++ (session keys index rest).1) !! n = Some (PrintDidYouMean found) ->
      exists m line0,
        n = S m /\ line0 ∈ line :: rest /\ Py.strip line0 <> EmptyString
        /\ index !! Py.upper (Py.strip line0) = None
        /\ (out ++ (session keys index rest).1) !! m
           = Some (PrintNoData (Py.upper (Py.strip line0)))
        /\ suggestions keys (Py.upper (Py.strip line0)) <> []
        /\ found = take 8 (suggestions keys (Py.upper (Py.strip line0)))).
    { intros out Hout Hn.
      destruct (decide (n < length out)) as [Hlt|Hge].
      { rewrite lookup_app_l in Hn by assumption. now apply Hout in Hn. }
      rewrite lookup_app_r in Hn by lia.
      destruct (IH _ Hn) as (m & l & Hm & Hl & Hne & Hnone & Hprev & Hs & Hf).
      exists (length out + m), l.
      split; [lia|]. split; [now right|].
      repeat (split; [assumption|]).
      split; [|split; assumption].
      rewrite lookup_app_r by lia.
      now replace (length out + m - length out) with m by lia. }
    rewrite session_step.
    destruct (String.eqb_spec (Py.strip line) EmptyString) as [E|E].
    { unfold and_then. cbn [fst]. apply Hrest.
      intros [|k]; discriminate. }
    cbv zeta. destruct (_ || _).
    { destruct n as [|[|n]]; discriminate. }
    destruct (String.eqb _ "ALL").
    { unfold and_then. cbn [fst]. apply Hrest.
      intros [|k]; [discriminate|]. cbn [lookup list_lookup]. intros Hk.
      apply list_elem_of_lookup_2 in Hk.
      apply listing_calls in Hk as (code & rows & _ & Hk). discriminate. }
    destruct (index !! Py.upper (Py.strip line)) as [rows|] eqn:Hrows.
    + assert (Hblock : forall k,
        (Input :: PrintShowing (length rows) (Py.upper (Py.strip line))
               :: (show_rows 1 rows).1) !! k <> Some (PrintDidYouMean found)).
      { intros [|[|k]]; [discriminate|discriminate|].
        cbn [lookup list_lookup]. intros Hk.
        apply list_elem_of_lookup_2 in Hk.
        apply show_rows_calls in Hk as [[i Hk]|(f & v & Hk)]; discriminate. }
      destruct (show_rows 1 rows).2.
      * cbn [fst]. intros Hn. now apply Hblock in Hn.
      * unfold and_then. cbn [fst]. now apply Hrest.
    + unfold and_then, no_data. cbn [fst].
      destruct (suggestions keys (Py.upper (Py.strip line))) as [|k0 more] eqn:Es.
      * apply Hrest. intros [|[|k]]; discriminate.
      * destruct n as [|[|[|n]]].
        -- discriminate.
        -- discriminate.
        -- intros [= <-]. exists 1, line.
           split; [reflexivity|]. split; [left|].
           repeat (split; [assumption|]).
           split; [reflexivity|]. split; [rewrite Es; discriminate|].
           now rewrite Es.
        -- intros Hn.
           change ((([Input; PrintNoData (Py.upper (Py.strip line));
                      PrintDidYouMean (take 8 (k0 :: more))])
                     ++ (session keys index rest).1) !! S (S (S n))
                   = Some (PrintDidYouMean found)) in Hn.
           rewrite lookup_app_r in Hn by (simpl; lia).
           destruct (IH _ Hn) as (m & l & Hm & Hl & Hne & Hnone & Hprev & Hs & Hf).
           exists (3 + m), l.
           split; [simpl in Hm; lia|]. split; [now right|].
           split; [assumption|]. split; [assumption|].
           split; [exact Hprev|]. split; assumption.
Qed.

(** X19: the suggestions after an unknown code.  They are printed straight
    after the report that the code typed, trimmed and upper-cased, was not
    found, and only when there are some: the first eight, in the order of
    the dict, of the keys that begin with the first character of that
    code. *)
Theorem suggestions_given (keys : list string) (index : gmap string (list Ref))
    (inputs : list string) (n : nat) (found : list string) :
  (session keys index inputs).1 !! n = Some (PrintDidYouMean found) ->
  exists m line ch tail,
    n = S m /\ line ∈ inputs /\ Py.upper (Py.strip line) = String ch tail
    /\ index !! String ch tail = None
    /\ (session keys index inputs).1 !! m = Some (PrintNoData (String ch tail))
    /\ found = take 8 (suggestions keys (String ch tail))
    /\ (forall k, k ∈ suggestions keys (String ch tail)
                   <-> k ∈ keys /\ exists rest, k = String ch rest)
    /\ suggestions keys (String ch tail) `sublist_of` keys
    /\ found <> [] /\ length found <= 8.
Proof.
  intros H.
  destruct (session_suggestions _ _ _ _ _ H)
    as (m & line & Hm & Hline & Hne & Hnone & Hprev & Hsome & Hfound).
  destruct (upper_head _ Hne) as (ch & tail & Hup). rewrite Hup in *.
  exists m, line, ch, tail.
  repeat (split; [assumption|]).
  split; [|split; [apply sublist_filter|split]].
  - intros k. unfold suggestions. rewrite list_elem_of_filter, head_prefix. tauto.
  - rewrite Hfound.
    destruct (suggestions keys (String ch tail)); [contradiction|discriminate].
  - rewrite Hfound, length_take. lia.
Qed.

Lemma suggestions_given_witness :
  exists m line ch tail,
    2 = S m /\ line ∈ ["oz"] /\ Py.upper (Py.strip line) = String ch tail
    /\ ({[ "WA" := []; "OR" := []; "ZA" := [] ]} : gmap string (list Ref))
         !! String ch tail = None
    /\ (session ["WA"; "OR"; "ZA"] {[ "WA" := []; "OR" := []; "ZA" := [] ]} ["oz"]).1
         !! m = Some (PrintNoData (String ch tail))
    /\ ["OR"] = take 8 (suggestions ["WA"; "OR"; "ZA"] (String ch tail))
    /\ (forall k, k ∈ suggestions ["WA"; "OR"; "ZA"] (String ch tail)
                   <-> k ∈ ["WA"; "OR"; "ZA"] /\ exists rest, k = String ch rest)
    /\ suggestions ["WA"; "OR"; "ZA"] (String ch tail) `sublist_of` ["WA"; "OR"; "ZA"]
    /\ ["OR"] <> [] /\ length ["OR"] <= 8.
Proof.
  apply (suggestions_given ["WA"; "OR"; "ZA"]
           {[ "WA" := []; "OR" := []; "ZA" := [] ]} ["oz"] 2 ["OR"]).
  vm_compute. reflexivity.
Defined.

(** The entries of a dict, taken by ascending key. *)
Lemma sorted_entries {A B : Type} (point : ascii -> N) (f : string -> A -> B)
    (m : gmap string A) (keys : list string) :
  (forall x y, point x = point y -> x = y) ->
  NoDup keys -> (forall k, k ∈ keys <-> is_Some (m !! k)) ->
  exists entries : list (string * A),
    omap (fun k => f k <$> m !! k) (sorted point keys)
      = map (fun e => f e.1 e.2) entries
    /\ entries ≡ₚ map_to_list m
    /\ StronglySorted
         (fun a b => str_le point a.1 b.1 = true /\ str_le point b.1 a.1 = false)
         entries.
Proof.
  intros Hinj Hnd Hkeys.
  assert (Hall : forall k, k ∈ sorted point keys -> is_Some (m !! k)).
  { intros k Hk. apply Hkeys. now rewrite <- (sorted_perm point keys). }
  assert (Hent : exists entries : list (string * A),
    omap (fun k => f k <$> m !! k) (sorted point keys)
      = map (fun e => f e.1 e.2) entries
    /\ map fst entries = sorted point keys
    /\ Forall (fun e => m !! e.1 = Some e.2) entries).
  { induction (sorted point keys) as [|k ks IH].
    - exists []. repeat split. constructor.
    - destruct IH as (entries & E1 & E2 & E3).
      { intros k' Hk'. apply Hall. now right. }
      destruct (Hall k) as [v Hv]; [left|].
      exists ((k, v) :: entries).
      change (omap (fun k => f k <$> m !! k) (k :: ks))
        with (match f k <$> m !! k with
              | Some y => y :: omap (fun k => f k <$> m !! k) ks
              | None => omap (fun k => f k <$> m !! k) ks
              end).
      rewrite Hv, E1. cbn [map fst snd fmap option_fmap option_map].
      rewrite E2. repeat split. constructor; assumption. }
  destruct Hent as (entries & E1 & E2 & E3).
  exists entries. split; [assumption|]. split.
  - apply NoDup_Permutation.
    + apply (NoDup_fmap_1 fst). change (NoDup (map fst entries)).
      rewrite E2, sorted_perm. assumption.
    + apply NoDup_map_to_list.
    + intros [k v]. rewrite elem_of_map_to_list. split.
      * intros Hin. rewrite Forall_forall in E3. apply (E3 _ Hin).
      * intros Hv.
        assert (Hk : k ∈ map fst entries).
        { rewrite E2, sorted_perm. apply Hkeys. eauto. }
        apply list_elem_of_fmap in Hk as ([k' v'] & -> & Hin).
        rewrite Forall_forall in E3. pose proof (E3 _ Hin) as Hv'.
        simpl in Hv, Hv'. rewrite Hv in Hv'. injection Hv' as <-. exact Hin.
  - pose proof (sorted_strictly point keys Hinj Hnd) as Hs.
    rewrite <- E2 in Hs. clear -Hs.
    induction entries as [|e entries IH]; [constructor|].
    simpl in Hs. apply StronglySorted_inv in Hs as [Hs He].
    constructor; [now apply IH|].
    apply Forall_forall. intros e' He'. rewrite Forall_forall in He.
    apply He. apply list_elem_of_fmap. eauto.
Qed.

Lemma sum_list_zero {A : Type} (l : list A) : sum_list (map (fun _ => 0) l) = 0.
Proof. induction l; simpl; auto. Qed.

Lemma sum_list_add {A : Type} (g h : A -> nat) (l : list A) :
  sum_list (map (fun x => g x + h x) l) = sum_list (map g l) + sum_list (map h l).
Proof. induction l as [|x l IH]; simpl; [reflexivity|]. rewrite IH. lia. Qed.

Lemma sum_list_once (k0 : string) (ks : list string) :
  NoDup ks -> k0 ∈ ks ->
  sum_list (map (fun k => if decide (k = k0) then 1 else 0) ks) = 1.
Proof.
  induction 1 as [|k ks Hk Hnd IH]; [now intros ?%elem_of_nil|].
  simpl. intros [->|Hin]%elem_of_cons.
  - rewrite decide_True by reflexivity.
    rewrite (map_ext_in _ (fun _ => 0)); [now rewrite sum_list_zero|].
    intros k' Hin%list_elem_of_In. rewrite decide_False; [reflexivity|].
    intros ->. contradiction.
  - rewrite decide_False by (intros ->; contradiction). now rewrite IH.
Qed.

(** Buckets taken together hold as many references as have a key. *)
Lemma count_by_key (refs : list Ref) (ks : list string) :
  NoDup ks ->
  (forall r k, r ∈ refs -> bucket_key r = Some k -> k ∈ ks) ->
  sum_list (map (fun k => length (filter (fun r => bucket_key r = Some k) refs)) ks)
  = length (filter (fun r => is_Some (bucket_key r)) refs).
Proof.
  intros Hnd. induction refs as [|r refs IH]; intros Hks.
  - simpl. apply sum_list_zero.
  - assert (IH' : sum_list
        (map (fun k => length (filter (fun r => bucket_key r = Some k) refs)) ks)
      = length (filter (fun r => is_Some (bucket_key r)) refs)).
    { apply IH. intros r' k Hr'. apply Hks. now right. }
    destruct (bucket_key r) as [k0|] eqn:Hr.
    + rewrite (filter_cons_True (fun r => is_Some (bucket_key r)))
        by (rewrite Hr; eauto).
      simpl. rewrite <- IH'.
      rewrite (map_ext _
        (fun k => (if decide (k = k0) then 1 else 0)
                  + length (filter (fun r => bucket_key r = Some k) refs))).
      * rewrite sum_list_add, sum_list_once; [reflexivity|assumption|].
        apply (Hks r); [left|assumption].
      * intros k. destruct (decide (k = k0)) as [->|Hne].
        -- now rewrite filter_cons_True by assumption.
        -- rewrite filter_cons_False; [reflexivity|]. rewrite Hr. congruence.
    + rewrite (filter_cons_False (fun r => is_Some (bucket_key r)))
        by (rewrite Hr; intros [x Hx]; discriminate).
      rewrite <- IH'. f_equal. apply map_ext. intros k.
      rewrite filter_cons_False; [reflexivity|]. rewrite Hr. discriminate.
Qed.

Lemma enumerate_stated (states : list State) (n : nat) :
  Forall text_state states ->
  length (filter (fun r => is_Some (bucket_key r)) (enumerate n states))
  = length (filter (fun s => stated s = true) states).
Proof.
  intros H. revert n. induction H as [|s states Hs _ IH]; intros n; [reflexivity|].
  simpl. unfold text_state in Hs.
  destruct Hs as [Hs|[code Hs]].
  - rewrite !filter_cons_False; [apply IH| |].
    + unfold stated. rewrite Hs. discriminate.
    + unfold bucket_key. simpl. rewrite Hs. intros [x Hx]. discriminate.
  - rewrite !filter_cons_True; [simpl; now rewrite IH| |].
    + unfold stated. now rewrite Hs.
    + unfold bucket_key. simpl. rewrite Hs. eauto.
Qed.

(** X20: the answer to [all].  It lists the buckets of the index, every
    one once, by ascending code, each with the number of its rows; these
    numbers add up to the number of loaded records that have a state. *)
Theorem listing_entries (states : list State) (index : gmap string (list Ref)) :
  build_index states index ->
  exists entries : list (string * list Ref),
    listing (keys_loop (enumerate 0 states) []) index
      = map (fun e => PrintCount e.1 (length e.2)) entries
    /\ entries ≡ₚ map_to_list index
    /\ StronglySorted
         (fun a b => str_le upper_point a.1 b.1 = true
                     /\ str_le upper_point b.1 a.1 = false) entries
    /\ sum_list (map (fun e => length e.2) entries)
       = length (filter (fun s => stated s = true) states).
Proof.
  intros Hbuild. destruct (index_keys _ _ Hbuild) as [Hnd Hkeys].
  destruct (sorted_entries upper_point (fun code rows => PrintCount code (length rows))
              index _ upper_point_inj Hnd Hkeys) as (entries & E1 & E2 & E3).
  exists entries. split; [exact E1|]. split; [exact E2|]. split; [exact E3|].
  destruct Hbuild as (groups & Hloop & Hsort).
  rewrite <- (enumerate_stated states 0)
    by (rewrite Forall_forall; intros s Hs;
        pose proof (group_loop_text _ _ _ Hloop) as Ht;
        apply list_elem_of_lookup in Hs as [i Hi];
        rewrite Forall_forall in Ht;
        apply (Ht (i, s)); apply enumerate_lookup; split; [lia|];
        simpl; now rewrite Nat.sub_0_r).
  rewrite <- (count_by_key (enumerate 0 states) (map fst entries)).
  - rewrite map_map. f_equal. apply map_ext_in.
    intros [k rows'] Hin%list_elem_of_In. simpl.
    rewrite E2 in Hin. apply elem_of_map_to_list in Hin.
    destruct (proj2 (sort_groups_lookup _ _ k Hsort) rows' Hin) as (rows & Hrows & Htry).
    apply try_sort_perm in Htry. rewrite Htry.
    destruct (grouped_bucket _ _ _ _ Hloop Hrows) as (-> & _). reflexivity.
  - apply (NoDup_fmap_2_strong fst).
    + intros [k1 v1] [k2 v2] H1 H2 Hk. simpl in Hk. subst k2.
      rewrite E2 in H1, H2. apply elem_of_map_to_list in H1, H2. congruence.
    + rewrite E2. apply NoDup_map_to_list.
  - intros r k Hr Hk.
    destruct (grouped_member _ _ _ _ Hloop Hr Hk) as (rows & Hrows & _).
    destruct (proj1 (sort_groups_lookup _ _ k Hsort) rows Hrows) as (rows' & Hrows' & _).
    apply list_elem_of_fmap. exists (k, rows'). split; [reflexivity|].
    rewrite E2. now apply elem_of_map_to_list.
Qed.

Lemma listing_entries_witness :
  exists entries : list (string * list Ref),
    listing
      (keys_loop (enumerate 0 [record (PyStr "wa") (PyInt 1);
                               record (PyStr "or") PyNone;
                               record PyNone (PyInt 2);
                               record (PyStr "WA") (PyInt 0)]) [])
      (sort_or_leave <$>
         {[ "WA" := [(0, record (PyStr "wa") (PyInt 1));
                     (3, record (PyStr "WA") (PyInt 0))];
            "OR" := [(1, record (PyStr "or") PyNone)] ]})
      = map (fun e => PrintCount e.1 (length e.2)) entries
    /\ entries ≡ₚ map_to_list
         (sort_or_leave <$>
            ({[ "WA" := [(0, record (PyStr "wa") (PyInt 1));
                         (3, record (PyStr "WA") (PyInt 0))];
                "OR" := [(1, record (PyStr "or") PyNone)] ]}
               : gmap string (list Ref)))
    /\ StronglySorted
         (fun a b => str_le upper_point a.1 b.1 = true
                     /\ str_le upper_point b.1 a.1 = false) entries
    /\ sum_list (map (fun e => length e.2) entries)
       = length (filter (fun s => stated s = true)
                   [record (PyStr "wa") (PyInt 1);
                    record (PyStr "or") PyNone;
                    record PyNone (PyInt 2);
                    record (PyStr "WA") (PyInt 0)]).
Proof.
  apply listing_entries.
  apply build_index_sort_or_leave. vm_compute. reflexivity.
Defined.

Lemma fields_entries (d : gmap string Value) :
  exists entries : list (string * Value),
    show_fields d = map (fun e => PrintField e.1 e.2) entries
    /\ entries ≡ₚ map_to_list d
    /\ StronglySorted
         (fun a b => str_le Py.code a.1 b.1 = true /\ str_le Py.code b.1 a.1 = false)
         entries.
Proof.
  apply (sorted_entries Py.code PrintField d (map fst (map_to_list d)) code_inj).
  - apply NoDup_fst_map_to_list.
  - intros k. split.
    + intros ([k' v] & -> & Hin)%list_elem_of_fmap.
      apply elem_of_map_to_list in Hin. eauto.
    + intros [v Hv]. apply list_elem_of_fmap. exists (k, v).
      split; [reflexivity|]. now apply elem_of_map_to_list.
Qed.

(** X21: the rows of a bucket as they are shown, when no record of it has
    an attribute named [as_dict]: no exception; the rows in the order of
    the bucket, numbered from the first number on; under each row every
    attribute of the record once, by ascending name. *)
Theorem rows_shown (idx : nat) (rows : list Ref) :
  Forall (fun r : Ref => r.2 !! "as_dict" = None) rows ->
  (show_rows idx rows).2 = None
  /\ exists shown : list (list (string * Value)),
       Forall2 (fun (r : Ref) entries =>
                  entries ≡ₚ map_to_list r.2
                  /\ StronglySorted
                       (fun a b => str_le Py.code a.1 b.1 = true
                                   /\ str_le Py.code b.1 a.1 = false) entries)
               rows shown
       /\ (show_rows idx rows).1
          = concat (imap
                      (fun i entries =>
                         PrintRow (idx + i)
                           :: map (fun e => PrintField e.1 e.2) entries)
                      shown).
Proof.
  intros H. split; [now apply show_rows_returns|].
  revert idx. induction H as [|r rows Hr _ IH]; intros idx.
  - exists []. split; [constructor|reflexivity].
  - destruct (IH (S idx)) as (shown & Hall & Htrace).
    destruct (fields_entries (as_dict r.2)) as (entries & E1 & E2 & E3).
    rewrite as_dict_copy in E2.
    exists (entries :: shown). split; [constructor; auto|].
    cbn [show_rows]. rewrite bool_decide_eq_false_2
      by (rewrite Hr; intros [x Hx]; discriminate).
    cbn [fst]. rewrite Htrace, E1. cbn [imap concat].
    rewrite Nat.add_0_r. cbn [app]. do 3 f_equal.
    apply imap_ext. intros i x _. simpl. do 2 f_equal. lia.
Qed.

Lemma rows_shown_witness :
  (show_rows 1 [(0, record (PyStr "WA") (PyInt 3))]).2 = None
  /\ exists shown : list (list (string * Value)),
       Forall2 (fun (r : Ref) entries =>
                  entries ≡ₚ map_to_list r.2
                  /\ StronglySorted
                       (fun a b => str_le Py.code a.1 b.1 = true
                                   /\ str_le Py.code b.1 a.1 = false) entries)
               [(0, record (PyStr "WA") (PyInt 3))] shown
       /\ (show_rows 1 [(0, record (PyStr "WA") (PyInt 3))]).1
          = concat (imap
                      (fun i entries =>
                         PrintRow (1 + i)
                           :: map (fun e => PrintField e.1 e.2) entries)
                      shown).
Proof.
  apply (rows_shown 1 [(0, record (PyStr "WA") (PyInt 3))]).
  constructor; [vm_compute; reflexivity|constructor].
Defined.
